(** * Retrieval and re-ranking pipeline: model cache, candidate retriever,
      cross-encoder re-ranker and query engine.

    Shallow embedding of [rag/model_cache.py], [rag/rerank_improved.py]
    and [rag/query_improved.py].  Python objects that the code shares and
    mutates (candidate dicts, candidate lists, the module-level cache
    slots) live in an explicit store; the external collaborators (model
    constructors, encoder, cross-encoder, vector store distance, JSON
    decoder, wall clock) are section variables, the generator callable is
    an argument of [answer].  Every function of the pipeline records its
    own invocation in a call trace, which plays the part of the call
    counters of a mock.  Console output ([print]) is not modelled. *)

From Stdlib Require Import ZArith NArith List Lia Sorted Permutation Ascii String.
From stdpp Require Import base option list sorting gmap strings.

Open Scope Z_scope.

(** ** Python built-ins used by the pipeline *)

(** A Python [str] holding natural-language text is a sequence of Unicode
    code points.  Identifiers (dict keys, model names) are ASCII and are
    kept as [string]. *)
Definition text := list N.

(** [str.isspace] on one code point (CPython's whitespace table). *)
Definition isspace (c : N) : bool :=
  ((9 <=? c) && (c <=? 13) || (28 <=? c) && (c <=? 32)
   || (c =? 133) || (c =? 160) || (c =? 5760)
   || (8192 <=? c) && (c <=? 8202)
   || (c =? 8232) || (c =? 8233) || (c =? 8239) || (c =? 8287)
   || (c =? 12288))%N.

Fixpoint lstrip (s : text) : text :=
  match s with
  | [] => []
  | c :: s' => if isspace c then lstrip s' else s
  end.

Definition rstrip (s : text) : text := rev (lstrip (rev s)).

(** [s.strip()] *)
Definition strip (s : text) : text := rstrip (lstrip s).

(** Truthiness of a [str]: [not s] holds exactly for the empty string. *)
Definition str_falsy (s : text) : bool :=
  match s with [] => true | _ => false end.

(** An ASCII literal as a [str]. *)
Fixpoint lit (s : string) : text :=
  match s with
  | EmptyString => []
  | String a s' => N_of_ascii a :: lit s'
  end.

(** [l[:n]] for a Python int [n]: a negative bound counts from the end. *)
Definition slice_to {A} (n : Z) (l : list A) : list A :=
  if 0 <=? n then take (Z.to_nat n) l
  else take (length l - Z.to_nat (- n)) l.

(** Stable sorting.  [after x y] says that [x] has to be placed after [y];
    an element is inserted in front of the sorted rest and moves right only
    past elements it has to follow, so elements that tie keep their input
    order: this is the documented contract of [sorted] (also with
    [reverse=True]) on keys that [<] orders consistently.  With a NaN
    among the keys what [sorted] returns depends on which keys it happens
    to compare; one case does not: a list in which no item has to follow
    its successor is taken to be in order already and is returned as it
    is, and so it is here ([sort_stable_already_in_order]). *)
Section StableSort.
Context {X : Type}.
Variable after : X -> X -> bool.

Fixpoint insert_stable (x : X) (l : list X) : list X :=
  match l with
  | [] => [x]
  | y :: l' => if after x y then y :: insert_stable x l' else x :: l
  end.

Definition sort_stable (l : list X) : list X := foldr insert_stable [] l.

(** Neither element has to follow the other. *)
Definition tie (x y : X) : bool := negb (after x y) && negb (after y x).

Definition in_order (x y : X) : Prop := after x y = false.
End StableSort.

(** [after] behaves as the strict part of a total preorder (a strict weak
    order).  Python's [<] on floats is one as long as no NaN is involved. *)
Class StrictWeak {X} (after : X -> X -> bool) : Prop := {
  sw_irrefl : forall x, after x x = false;
  sw_trans : forall x y z, after x y = true -> after y z = true -> after x z = true;
  sw_negtrans : forall x y z, after x y = false -> after y z = false -> after x z = false
}.

(** [sorted(l, key=k, reverse=True)] on the decorated list of (key, item)
    pairs: an item goes after the items whose key is strictly greater. *)
Definition sorted_reverse {K A} (lt : K -> K -> bool) (l : list (K * A)) : list (K * A) :=
  sort_stable (fun x y => lt (fst x) (fst y)) l.

(** [ORDER BY key] (ascending) on decorated rows. *)
Definition order_by {K A} (lt : K -> K -> bool) (l : list (K * A)) : list (K * A) :=
  sort_stable (fun x y => lt (fst y) (fst x)) l.

(** *** Facts about the built-ins *)

Lemma sort_stable_already_in_order {X} (after : X -> X -> bool) (l : list X) :
  (forall i x y, l !! i = Some x -> l !! S i = Some y -> after x y = false) ->
  sort_stable after l = l.
Proof.
  induction l as [|x l IH]; intros Hl; [done|].
  change (sort_stable after (x :: l)) with (insert_stable after x (sort_stable after l)).
  rewrite IH by (intros i a b Ha Hb; by apply (Hl (S i))).
  destruct l as [|y l']; [done|]. cbn [insert_stable].
  by rewrite (Hl 0%nat x y).
Qed.

Lemma lstrip_nil_iff (s : text) : lstrip s = [] <-> forallb isspace s = true.
Proof.
  induction s as [|c s IH]; simpl; [tauto|].
  destruct (isspace c); simpl; [exact IH|].
  split; discriminate.
Qed.

Lemma lstrip_head (s : text) c r : lstrip s = c :: r -> isspace c = false.
Proof.
  induction s as [|d s IH]; simpl; [discriminate|].
  destruct (isspace d) eqn:Ed; [exact IH|].
  intros E. by inversion E; subst.
Qed.

Lemma strip_nil_iff (s : text) : strip s = [] <-> forallb isspace s = true.
Proof.
  unfold strip, rstrip. split.
  - intros H. apply (f_equal (@rev N)) in H. rewrite rev_involutive in H. simpl in H.
    apply lstrip_nil_iff in H.
    destruct (lstrip s) as [|c r] eqn:E; [by apply lstrip_nil_iff|].
    exfalso. apply lstrip_head in E.
    rewrite forallb_forall in H. specialize (H c).
    rewrite E in H. discriminate H. apply in_rev. rewrite rev_involutive. by left.
  - intros H. apply lstrip_nil_iff in H. by rewrite H.
Qed.

Lemma slice_to_length {A} (n : Z) (l : list A) :
  0 <= n -> length (slice_to n l) = Nat.min (Z.to_nat n) (length l).
Proof.
  intros Hn. unfold slice_to.
  destruct (Z.leb_spec 0 n); [|lia]. by rewrite length_take.
Qed.

Lemma slice_to_prefix {A} (n : Z) (l : list A) : slice_to n l `prefix_of` l.
Proof. unfold slice_to. destruct (0 <=? n); apply prefix_take. Qed.

Section StableSortFacts.
Context {X : Type} (after : X -> X -> bool) `{!StrictWeak after}.

Lemma insert_stable_perm x l : insert_stable after x l ≡ₚ x :: l.
Proof.
  induction l as [|y l IH]; simpl; [done|].
  destruct (after x y); [|done].
  rewrite IH. apply Permutation_swap.
Qed.

Lemma sort_stable_perm l : sort_stable after l ≡ₚ l.
Proof.
  induction l as [|x l IH]; simpl; [done|].
  by rewrite insert_stable_perm, IH.
Qed.

Lemma sort_stable_length l : length (sort_stable after l) = length l.
Proof. apply Permutation_length, sort_stable_perm. Qed.

Lemma insert_stable_sorted x l :
  StronglySorted (in_order after) l ->
  StronglySorted (in_order after) (insert_stable after x l).
Proof.
  induction 1 as [|y l Hs IH Hy]; simpl.
  - repeat constructor.
  - destruct (after x y) eqn:E.
    + constructor; [exact IH|].
      rewrite Forall_forall. intros z Hz.
      rewrite insert_stable_perm in Hz. apply elem_of_cons in Hz as [->|Hz].
      * unfold in_order. destruct (after y x) eqn:E'; [|done].
        pose proof (sw_trans _ _ _ E E') as F. by rewrite sw_irrefl in F.
      * rewrite Forall_forall in Hy. by apply Hy.
    + constructor; [by constructor|].
      constructor; [exact E|].
      eapply Forall_impl; [exact Hy|]. intros z Hz.
      by apply (sw_negtrans x y z).
Qed.

Lemma sort_stable_sorted l : StronglySorted (in_order after) (sort_stable after l).
Proof.
  induction l as [|x l IH]; simpl; [constructor|].
  by apply insert_stable_sorted.
Qed.

Lemma tie_after_l k x y : tie after k x = true -> after x y = after k y.
Proof.
  unfold tie. rewrite andb_true_iff, !negb_true_iff. intros [H1 H2].
  destruct (after k y) eqn:E.
  - destruct (after x y) eqn:E'; [done|].
    by rewrite (sw_negtrans k x y H1 E') in E.
  - by apply (sw_negtrans x k y).
Qed.

Lemma tie_after_r k x y : tie after k x = true -> after y x = after y k.
Proof.
  unfold tie. rewrite andb_true_iff, !negb_true_iff. intros [H1 H2].
  destruct (after y k) eqn:E.
  - destruct (after y x) eqn:E'; [done|].
    by rewrite (sw_negtrans y x k E' H2) in E.
  - by apply (sw_negtrans y k x).
Qed.

(** Stability: the items that tie with [k] come out in their input order. *)
Lemma insert_stable_tie k x l :
  List.filter (tie after k) (insert_stable after x l)
  = List.filter (tie after k) (x :: l).
Proof.
  induction l as [|y l IH]; [done|].
  cbn [insert_stable]. destruct (after x y) eqn:E; [|done].
  cbn [List.filter] in *. rewrite IH.
  destruct (tie after k x) eqn:Tx; [|done].
  destruct (tie after k y) eqn:Ty; [|done].
  exfalso. rewrite (tie_after_l k x y Tx) in E.
  unfold tie in Ty. by rewrite E in Ty.
Qed.

Lemma sort_stable_tie k l :
  List.filter (tie after k) (sort_stable after l) = List.filter (tie after k) l.
Proof.
  induction l as [|x l IH]; [done|].
  cbn [sort_stable foldr]. rewrite insert_stable_tie.
  cbn [List.filter]. fold (sort_stable after l). by rewrite IH.
Qed.

(** In a sorted list the items that [r] has to follow form a prefix. *)
Lemma sorted_above_prefix r l :
  StronglySorted (in_order after) l ->
  l = List.filter (after r) l ++ List.filter (fun x => negb (after r x)) l.
Proof.
  induction 1 as [|x l Hs IH Hx]; [done|].
  cbn [List.filter]. destruct (after r x) eqn:E; cbn [negb].
  - simpl. by rewrite <- IH.
  - assert (Hall : Forall (fun y => after r y = false) l).
    { eapply Forall_impl; [exact Hx|]. intros y Hy. by apply (sw_negtrans r x y). }
    assert (List.filter (after r) l = []) as ->.
    { clear -Hall. induction Hall as [|y l Hy _ IH]; [done|].
      simpl. by rewrite Hy. }
    simpl. f_equal.
    clear -Hall. induction Hall as [|y l Hy _ IH]; [done|].
    simpl. rewrite Hy. simpl. by f_equal.
Qed.

Lemma sorted_take_above r l :
  StronglySorted (in_order after) l ->
  take (length (List.filter (after r) l)) l = List.filter (after r) l.
Proof.
  intros Hs. rewrite (sorted_above_prefix r l Hs) at 2.
  by rewrite take_app_length.
Qed.
End StableSortFacts.

Lemma filter_perm {A} (p : A -> bool) (l1 l2 : list A) :
  l1 ≡ₚ l2 -> List.filter p l1 ≡ₚ List.filter p l2.
Proof.
  induction 1 as [|x l1 l2 _ IH|x y l|l1 l2 l3 _ IH1 _ IH2]; simpl.
  - done.
  - destruct (p x); [by constructor|done].
  - destruct (p x), (p y); try done. apply Permutation_swap.
  - by etrans.
Qed.

(** ** Objects, store and effects *)

(** Exceptions that reach the caller. *)
Inductive exn :=
  | KeyError (k : string)
  | TypeError
  | AttributeError
  | ModelLoadError (name : string)
  | DatabaseError
  | JSONDecodeError
  | NotImplementedError
  | ExternalError (code : nat).

(** Object identity of a dict or list in the store. *)
Abbreviation loc := nat (only parsing).

(** A loaded model object ([SentenceTransformer] or [CrossEncoder]
    instance): the name it was built from and its object identity. *)
Record handle := { h_name : string; h_oid : nat }.

Global Instance handle_eq_dec : EqDecision handle.
Proof. solve_decision. Defined.

(** A step of filling a dict key by key. *)
Lemma list_to_set_cons_union (X : gset string) (a : string) (ms : list string) :
  {[a]} ∪ X ∪ list_to_set ms = X ∪ list_to_set (a :: ms).
Proof.
  cbn [list_to_set]. by rewrite (comm_L (∪) {[a]} X), <- (assoc_L (∪)).
Qed.

Section Pipeline.
(** Python [float] with its [<], [+] and [-]. *)
Variable Score : Type.
Variable flt : Score -> Score -> bool.
Variable fadd fsub : Score -> Score -> Score.
(** Embedding vectors and decoded JSON metadata are opaque here. *)
Variable Vec : Type.
Variable Json : Type.

Inductive value :=
  | VNone
  | VStr (s : text)
  | VInt (n : Z)
  | VFloat (x : Score)
  | VJson (j : Json).

(** Mutable objects.  Dict keys are the string literals of the source. *)
Inductive obj :=
  | ODict (d : gmap string value)
  | OList (l : list loc).

(** Observable calls, recorded in call order (oldest first). *)
Inductive event :=
  | EvLoadEmbedding (name : string)
  | EvLoadRerank (name : string)
  | EvRetrieve (question : text)
  | EvRerank (question : text) (candidates : loc)
  | EvPredict (m : handle) (pairs : list (text * value))
  | EvGenerate (question : text) (chunks : loc).

(** The process state: the object store, the four module-level globals of
    [model_cache.py], the number of model constructions attempted so far
    (the source of object identities), the call trace and the number of
    clock readings taken. *)
Record world := World {
  heap : list obj;
  _embedding_model : option handle;
  _rerank_model : option handle;
  _embedding_model_name : option string;
  _rerank_model_name : option string;
  attempts : nat;
  trace : list event;
  ticks : nat
}.

Definition with_heap (h : list obj) (w : world) : world :=
  World h (_embedding_model w) (_rerank_model w) (_embedding_model_name w)
        (_rerank_model_name w) (attempts w) (trace w) (ticks w).
Definition with_embedding_model (m : option handle) (w : world) : world :=
  World (heap w) m (_rerank_model w) (_embedding_model_name w)
        (_rerank_model_name w) (attempts w) (trace w) (ticks w).
Definition with_rerank_model (m : option handle) (w : world) : world :=
  World (heap w) (_embedding_model w) m (_embedding_model_name w)
        (_rerank_model_name w) (attempts w) (trace w) (ticks w).
Definition with_embedding_model_name (n : option string) (w : world) : world :=
  World (heap w) (_embedding_model w) (_rerank_model w) n
        (_rerank_model_name w) (attempts w) (trace w) (ticks w).
Definition with_rerank_model_name (n : option string) (w : world) : world :=
  World (heap w) (_embedding_model w) (_rerank_model w) (_embedding_model_name w)
        n (attempts w) (trace w) (ticks w).
Definition with_attempts (n : nat) (w : world) : world :=
  World (heap w) (_embedding_model w) (_rerank_model w) (_embedding_model_name w)
        (_rerank_model_name w) n (trace w) (ticks w).
Definition with_trace (t : list event) (w : world) : world :=
  World (heap w) (_embedding_model w) (_rerank_model w) (_embedding_model_name w)
        (_rerank_model_name w) (attempts w) t (ticks w).
Definition with_ticks (n : nat) (w : world) : world :=
  World (heap w) (_embedding_model w) (_rerank_model w) (_embedding_model_name w)
        (_rerank_model_name w) (attempts w) (trace w) n.

(** A computation either returns a value or raises, in both cases leaving
    a state behind. *)
Inductive result (A : Type) :=
  | Ok (a : A) (w : world)
  | Raise (e : exn) (w : world).
Arguments Ok {A} a w.
Arguments Raise {A} e w.

Definition M (A : Type) : Type := world -> result A.

Definition ret {A} (a : A) : M A := fun w => Ok a w.
Definition raise {A} (e : exn) : M A := fun w => Raise e w.
Definition bind {A B} (c : M A) (k : A -> M B) : M B :=
  fun w => match c w with
           | Ok a w' => k a w'
           | Raise e w' => Raise e w'
           end.

Notation "x <- c1 ;; c2" := (bind c1 (fun x => c2))
  (at level 100, c1 at next level, right associativity).
Notation "c1 ;; c2" := (bind c1 (fun _ => c2))
  (at level 100, right associativity).

Definition get {A} (f : world -> A) : M A := fun w => Ok (f w) w.
Definition modify (f : world -> world) : M unit := fun w => Ok tt (f w).
Definition emit (e : event) : M unit :=
  modify (fun w => with_trace (trace w ++ [e]) w).
Definition lift {A} (r : exn + A) : M A :=
  match r with inl e => raise e | inr a => ret a end.

Fixpoint map_m {A B} (f : A -> M B) (l : list A) : M (list B) :=
  match l with
  | [] => ret []
  | x :: l' => y <- f x ;; ys <- map_m f l' ;; ret (y :: ys)
  end.

Fixpoint for_each {A} (f : A -> M unit) (l : list A) : M unit :=
  match l with
  | [] => ret tt
  | x :: l' => f x ;; for_each f l'
  end.

(** *** Store operations *)

Definition alloc (o : obj) : M loc :=
  fun w => Ok (length (heap w)) (with_heap (heap w ++ [o]) w).

Definition read_list (l : loc) : M (list loc) :=
  fun w => match heap w !! l with
           | Some (OList ls) => Ok ls w
           | _ => Raise TypeError w
           end.

Definition read_dict (c : loc) : M (gmap string value) :=
  fun w => match heap w !! c with
           | Some (ODict d) => Ok d w
           | _ => Raise TypeError w
           end.

(** [c[k]] *)
Definition getitem (c : loc) (k : string) : M value :=
  d <- read_dict c ;;
  match d !! k with
  | Some v => ret v
  | None => raise (KeyError k)
  end.

(** [c.get(k, dflt)] *)
Definition dict_get (c : loc) (k : string) (dflt : value) : M value :=
  d <- read_dict c ;; ret (default dflt (d !! k)).

(** [c[k] = v] *)
Definition setitem (c : loc) (k : string) (v : value) : M unit :=
  d <- read_dict c ;;
  modify (fun w => with_heap (<[c := ODict (<[k := v]> d)]> (heap w)) w).

(** [c.copy()] *)
Definition dict_copy (c : loc) : M loc :=
  d <- read_dict c ;; alloc (ODict d).

(** [l.append(x)] *)
Definition list_append (l : loc) (x : loc) : M unit :=
  ls <- read_list l ;;
  modify (fun w => with_heap (<[l := OList (ls ++ [x])]> (heap w)) w).

(** *** External collaborators *)

(** Whether building a model from a name succeeds at a given construction
    attempt (the name may be invalid, the hub unreachable). *)
Variable SentenceTransformer_ok : nat -> string -> bool.
Variable CrossEncoder_ok : nat -> string -> bool.
(** [model.encode([q], ...)[0]] and [model.predict(pairs, ...)]; batch
    size and progress bar have no effect on the values. *)
Variable encode : handle -> text -> exn + Vec.
Variable predict : handle -> list (text * value) -> exn + list Score.
(** The store's distance operator, [json.loads], the empty JSON object and
    [time.time()] at the n-th reading. *)
Variable distance : Vec -> Vec -> Score.
Variable json_loads : text -> exn + Json.
Variable empty_json : Json.
Variable time_at : nat -> Score.

Definition time_time : M Score :=
  fun w => Ok (time_at (ticks w)) (with_ticks (S (ticks w)) w).

(** [SentenceTransformer(model_name)] *)
Definition SentenceTransformer (model_name : string) : M handle :=
  emit (EvLoadEmbedding model_name) ;;
  n <- get attempts ;;
  modify (with_attempts (S n)) ;;
  if SentenceTransformer_ok n model_name
  then ret {| h_name := model_name; h_oid := n |}
  else raise (ModelLoadError model_name).

(** [CrossEncoder(model_name)] *)
Definition CrossEncoder (model_name : string) : M handle :=
  emit (EvLoadRerank model_name) ;;
  n <- get attempts ;;
  modify (with_attempts (S n)) ;;
  if CrossEncoder_ok n model_name
  then ret {| h_name := model_name; h_oid := n |}
  else raise (ModelLoadError model_name).

(** ** rag/model_cache.py *)

Definition get_embedding_model (model_name : string) : M (option handle) :=
  m <- get _embedding_model ;;
  n <- get _embedding_model_name ;;
  (if bool_decide (m = None) || bool_decide (n <> Some model_name) then
     h <- SentenceTransformer model_name ;;
     modify (with_embedding_model (Some h)) ;;
     modify (with_embedding_model_name (Some model_name))
   else ret tt) ;;
  get _embedding_model.

Definition RERANK_MODEL_ALIASES : list (string * string) :=
  [ ("fast", "cross-encoder/ms-marco-MiniLM-L-6-v2");
    ("balanced", "BAAI/bge-reranker-base");
    ("best", "BAAI/bge-reranker-large");
    ("latest", "mixedbread-ai/mxbai-rerank-large-v1") ]%string.

(** [d.get(k, dflt)] on a dict literal with string keys. *)
Fixpoint literal_get (d : list (string * string)) (k dflt : string) : string :=
  match d with
  | [] => dflt
  | (k', v) :: d' => if String.eqb k' k then v else literal_get d' k dflt
  end.

Definition get_rerank_model (model_name : string) : M (option handle) :=
  let actual_model_name := literal_get RERANK_MODEL_ALIASES model_name model_name in
  m <- get _rerank_model ;;
  n <- get _rerank_model_name ;;
  (if bool_decide (m = None) || bool_decide (n <> Some actual_model_name) then
     h <- CrossEncoder actual_model_name ;;
     modify (with_rerank_model (Some h)) ;;
     modify (with_rerank_model_name (Some actual_model_name))
   else ret tt) ;;
  get _rerank_model.

Definition clear_cache : M unit :=
  modify (with_embedding_model None) ;;
  modify (with_rerank_model None) ;;
  modify (with_embedding_model_name None) ;;
  modify (with_rerank_model_name None).

(** ** rag/rerank_improved.py *)

Definition RERANK_MODELS : list (string * string) :=
  [ ("fast", "cross-encoder/ms-marco-MiniLM-L-6-v2");
    ("balanced", "BAAI/bge-reranker-base");
    ("best", "BAAI/bge-reranker-large");
    ("latest", "mixedbread-ai/mxbai-rerank-large-v1") ]%string.

Definition DEFAULT_RERANK_MODEL : string := "fast".

(** [reranker.predict(pairs, ...)]; a [None] receiver has no such method. *)
Definition model_predict (reranker : option handle) (pairs : list (text * value))
  : M (list Score) :=
  match reranker with
  | None => raise AttributeError
  | Some h => emit (EvPredict h pairs) ;; lift (predict h pairs)
  end.

Definition as_float (v : value) : M Score :=
  match v with VFloat x => ret x | _ => raise TypeError end.

(** [sorted(l, key=lambda x: x["rerank_score"], reverse=True)]: the key
    of every item is computed once, then the items are sorted on the
    keys.  Both callers store a float under the key just before; ordering
    other kinds of values is not modelled and raises. *)
Definition sorted_by_rerank_score (l : list loc) : M (list loc) :=
  keyed <- map_m (fun x => v <- getitem x "rerank_score" ;;
                           k <- as_float v ;; ret (k, x)) l ;;
  ret (map snd (sorted_reverse flt keyed)).

Definition rerank_chunks (question : text) (chunks : loc) (top_n : Z)
    (model_name : option string) : M loc :=
  cs <- read_list chunks ;;
  match cs with
  | [] => alloc (OList [])
  | _ =>
    let model_name := default DEFAULT_RERANK_MODEL model_name in
    let actual_model_name := literal_get RERANK_MODELS model_name model_name in
    reranker <- get_rerank_model actual_model_name ;;
    pairs <- map_m (fun chunk => t <- dict_get chunk "text" (VStr []) ;;
                                 ret (question, t)) cs ;;
    scores <- model_predict reranker pairs ;;
    scored_chunks <- map_m (fun cs => chunk_with_score <- dict_copy (fst cs) ;;
                                      setitem chunk_with_score "rerank_score"
                                              (VFloat (snd cs)) ;;
                                      ret chunk_with_score)
                           (zip cs scores) ;;
    scored_chunks_sorted <- sorted_by_rerank_score scored_chunks ;;
    alloc (OList (slice_to top_n scored_chunks_sorted))
  end.

(** ** rag/query_improved.py *)

(** What the driver hands back for the [metadata] column. *)
Inductive meta_col :=
  | MNull
  | MDict (j : Json)
  | MStr (s : text)
  | MOther (truthy : bool).

(** A row of [knowledge_chunks]. *)
Record row := Row {
  row_id : text;
  row_text : option text;
  row_metadata : meta_col;
  row_source : option text;
  row_order : option Z;
  row_embedding : option Vec
}.

(** The engine object: the table its connection reads, the two model
    handles taken from the cache at construction, and the two bounds. *)
Record RagQueryEngine := Engine {
  conn : list row;
  embed_model : handle;
  rerank_model : handle;
  top_k_retrieve : Z;
  top_n_rerank : Z
}.

(** [SELECT ..., embedding <=> q AS distance FROM knowledge_chunks
     WHERE embedding IS NOT NULL ORDER BY embedding <=> q LIMIT k];
    a negative [LIMIT] is rejected by the store.  The query is read as an
    exact scan in which rows at the same distance come in table order.
    Which of several rows at the same distance the store returns, what an
    approximate index leaves out and the store's other limits are not
    modelled: what is proved from this definition is the bound, the
    non-null embeddings and the ascending order of the rows, and facts
    that do not depend on which rows come back. *)
Definition with_distance (q : Vec) (r : row) : option (Score * row) :=
  match row_embedding r with
  | Some e => Some (distance e q, r)
  | None => None
  end.

Definition select_nearest (table : list row) (q : Vec) (k : Z)
  : exn + list (Score * row) :=
  if k <? 0 then inl DatabaseError
  else inr (take (Z.to_nat k) (order_by flt (omap (with_distance q) table))).

(** [metadata if isinstance(metadata, dict)
     else json.loads(metadata) if metadata else {}] *)
Definition metadata_dict (metadata : meta_col) : exn + Json :=
  match metadata with
  | MDict j => inr j
  | MStr s => if str_falsy s then inr empty_json else json_loads s
  | MNull => inr empty_json
  | MOther truthy => if truthy then inl TypeError else inr empty_json
  end.

Definition opt_text (t : option text) : value :=
  match t with Some s => VStr s | None => VNone end.

(** [source or "unknown"] and [order or 0] *)
Definition source_or_unknown (source : option text) : text :=
  match source with
  | Some s => if str_falsy s then lit "unknown" else s
  | None => lit "unknown"
  end.
Definition order_or_0 (order : option Z) : Z :=
  match order with
  | Some n => if n =? 0 then 0 else n
  | None => 0
  end.

Definition candidate_dict (r : row) (md : Json) (dist : Score) : gmap string value :=
  <["id" := VStr (row_id r)]>
  (<["text" := opt_text (row_text r)]>
  (<["metadata" := VJson md]>
  (<["source" := VStr (source_or_unknown (row_source r))]>
  (<["chunk_index" := VInt (order_or_0 (row_order r))]>
  (<["order" := VInt (order_or_0 (row_order r))]>
  (<["distance" := VFloat dist]> ∅)))))).

Definition retrieve_candidates (self : RagQueryEngine) (question : text) : M loc :=
  emit (EvRetrieve question) ;;
  q_emb <- lift (encode (embed_model self) question) ;;
  fetched <- lift (select_nearest (conn self) q_emb (top_k_retrieve self)) ;;
  candidates <- alloc (OList []) ;;
  for_each (fun dr =>
              md <- lift (metadata_dict (row_metadata (snd dr))) ;;
              c <- alloc (ODict (candidate_dict (snd dr) md (fst dr))) ;;
              list_append candidates c)
           fetched ;;
  ret candidates.

Definition rerank (self : RagQueryEngine) (question : text) (candidates : loc) : M loc :=
  emit (EvRerank question candidates) ;;
  cs <- read_list candidates ;;
  match cs with
  | [] => alloc (OList [])
  | _ =>
    pairs <- map_m (fun c => t <- getitem c "text" ;; ret (question, t)) cs ;;
    scores <- model_predict (Some (rerank_model self)) pairs ;;
    for_each (fun cs => setitem (fst cs) "rerank_score" (VFloat (snd cs)))
             (zip cs scores) ;;
    candidates_sorted <- sorted_by_rerank_score cs ;;
    alloc (OList (slice_to (top_n_rerank self) candidates_sorted))
  end.

(** The three sentinel messages of [answer]. *)
Definition EMPTY_QUESTION : text :=
  [1513; 1488; 1500; 1492; 32; 1512; 1497; 1511; 1492; 46]%N.
Definition NO_CANDIDATES : text :=
  [1500; 1488; 32; 1504; 1502; 1510; 1488; 1493; 32; 1511; 1496; 1506; 1497;
   1501; 32; 1512; 1500; 1493; 1493; 1504; 1496; 1497; 1497; 1501; 32; 1489;
   1502; 1505; 1502; 1499; 1497; 1501; 46]%N.
Definition NO_RANKED : text :=
  [1500; 1488; 32; 1492; 1510; 1500; 1495; 1514; 1497; 32; 1500; 1491; 1512;
   1490; 32; 1511; 1496; 1506; 1497; 1501; 32; 1512; 1500; 1493; 1493; 1504;
   1496; 1497; 1497; 1501; 46]%N.

(** [if measure_time: start = time.time()] *)
Definition start_timer (measure_time : bool) : M (option Score) :=
  if measure_time then t <- time_time ;; ret (Some t) else ret None.

(** [timing_info[k] = time.time() - start] under [if measure_time]. *)
Definition record_elapsed (timing_info : option loc) (start : option Score)
    (k : string) : M unit :=
  match timing_info, start with
  | Some t, Some s => now <- time_time ;; setitem t k (VFloat (fsub now s))
  | _, _ => ret tt
  end.

Definition record_value (timing_info : option loc) (k : string) (v : value) : M unit :=
  match timing_info with
  | Some t => setitem t k v
  | None => ret tt
  end.

(** [timing_info[k] = timing_info[a] + timing_info[b]] under [if measure_time]. *)
Definition record_sum (timing_info : option loc) (k a b : string) : M unit :=
  match timing_info with
  | Some t => va <- getitem t a ;; x <- as_float va ;;
              vb <- getitem t b ;; y <- as_float vb ;;
              setitem t k (VFloat (fadd x y))
  | None => ret tt
  end.

Definition len (l : loc) : M Z :=
  ls <- read_list l ;; ret (Z.of_nat (length ls)).

Definition answer_from (self : RagQueryEngine) (search_query question : text)
    (llm_callable : text -> loc -> M text) (measure_time : bool)
    (timing_info : option loc) : M (text * loc * option loc) :=
  if str_falsy (strip search_query) then
    none <- alloc (OList []) ;; ret (EMPTY_QUESTION, none, timing_info)
  else
    start_retrieve <- start_timer measure_time ;;
    candidates <- retrieve_candidates self search_query ;;
    record_elapsed timing_info start_retrieve "retrieve_time" ;;
    n <- len candidates ;;
    record_value timing_info "num_candidates" (VInt n) ;;
    if n =? 0 then
      none <- alloc (OList []) ;; ret (NO_CANDIDATES, none, timing_info)
    else
      start_rerank <- start_timer measure_time ;;
      top_chunks <- rerank self search_query candidates ;;
      record_elapsed timing_info start_rerank "rerank_time" ;;
      m <- len top_chunks ;;
      record_value timing_info "num_final_chunks" (VInt m) ;;
      record_sum timing_info "total_chunks_time" "retrieve_time" "rerank_time" ;;
      if m =? 0 then
        none <- alloc (OList []) ;; ret (NO_RANKED, none, timing_info)
      else
        start_llm <- start_timer measure_time ;;
        emit (EvGenerate question top_chunks) ;;
        answer <- llm_callable question top_chunks ;;
        record_elapsed timing_info start_llm "llm_time" ;;
        record_sum timing_info "total_time" "total_chunks_time" "llm_time" ;;
        ret (answer, top_chunks, timing_info).

(** [answer(search_query=None, question=None, llm_callable, measure_time)]:
    each of the two texts defaults to the other; with both missing,
    [search_query.strip()] has no receiver. *)
Definition answer (self : RagQueryEngine) (search_query question : option text)
    (llm_callable : text -> loc -> M text) (measure_time : bool)
    : M (text * loc * option loc) :=
  let question := match question with None => search_query | _ => question end in
  let search_query := match search_query with None => question | _ => search_query end in
  timing_info <- (if measure_time then t <- alloc (ODict ∅) ;; ret (Some t)
                  else ret None) ;;
  match search_query, question with
  | Some sq, Some q => answer_from self sq q llm_callable measure_time timing_info
  | _, _ => raise AttributeError
  end.

(** [call_llm_default] *)
Definition call_llm_default (question : text) (context_chunks : loc) : M text :=
  raise NotImplementedError.

(** ** Model cache: reuse, replacement, aliases, failed loads *)

Local Arguments Nat.ltb : simpl never.

(** Every cached handle was produced by an earlier construction. *)
Definition oid_below (n : nat) (m : option handle) : bool :=
  match m with Some h => Nat.ltb (h_oid h) n | None => true end.
Definition handles_known (w : world) : bool :=
  oid_below (attempts w) (_embedding_model w)
  && oid_below (attempts w) (_rerank_model w).

(** The four globals of the cache module. *)
Definition globals (w : world)
  : option handle * option string * option handle * option string :=
  (_embedding_model w, _embedding_model_name w,
   _rerank_model w, _rerank_model_name w).

Ltac run :=
  unfold get_embedding_model, get_rerank_model, SentenceTransformer, CrossEncoder,
    emit, bind, get, modify, ret, raise, lift in *; cbn in *.

Lemma get_embedding_model_hit name h w :
  _embedding_model w = Some h -> _embedding_model_name w = Some name ->
  get_embedding_model name w = Ok (Some h) w.
Proof.
  intros Hm Hn. run. rewrite Hm, Hn.
  rewrite bool_decide_eq_false_2 by done.
  rewrite bool_decide_eq_false_2 by (intros F; by apply F).
  cbn. by rewrite Hm.
Qed.

Lemma get_embedding_model_miss name w :
  _embedding_model w = None \/ _embedding_model_name w <> Some name ->
  get_embedding_model name w =
    let w0 := with_attempts (S (attempts w))
                (with_trace (trace w ++ [EvLoadEmbedding name]) w) in
    if SentenceTransformer_ok (attempts w) name
    then Ok (Some {| h_name := name; h_oid := attempts w |})
            (with_embedding_model_name (Some name)
               (with_embedding_model (Some {| h_name := name; h_oid := attempts w |}) w0))
    else Raise (ModelLoadError name) w0.
Proof.
  intros Hmiss. run.
  assert (bool_decide (_embedding_model w = None)
          || bool_decide (_embedding_model_name w <> Some name) = true) as ->.
  { destruct Hmiss as [H|H].
    - by rewrite (bool_decide_eq_true_2 _ H).
    - rewrite (bool_decide_eq_true_2 _ H). by destruct (bool_decide _). }
  cbn. by destruct (SentenceTransformer_ok (attempts w) name).
Qed.

Lemma get_rerank_model_hit name h w :
  _rerank_model w = Some h ->
  _rerank_model_name w = Some (literal_get RERANK_MODEL_ALIASES name name) ->
  get_rerank_model name w = Ok (Some h) w.
Proof.
  intros Hm Hn. run. rewrite Hm, Hn.
  rewrite bool_decide_eq_false_2 by done.
  rewrite bool_decide_eq_false_2 by (intros F; by apply F).
  cbn. by rewrite Hm.
Qed.

Lemma get_rerank_model_miss name w :
  let actual := literal_get RERANK_MODEL_ALIASES name name in
  _rerank_model w = None \/ _rerank_model_name w <> Some actual ->
  get_rerank_model name w =
    let w0 := with_attempts (S (attempts w))
                (with_trace (trace w ++ [EvLoadRerank actual]) w) in
    if CrossEncoder_ok (attempts w) actual
    then Ok (Some {| h_name := actual; h_oid := attempts w |})
            (with_rerank_model_name (Some actual)
               (with_rerank_model (Some {| h_name := actual; h_oid := attempts w |}) w0))
    else Raise (ModelLoadError actual) w0.
Proof.
  intros actual Hmiss. run. fold actual.
  assert (bool_decide (_rerank_model w = None)
          || bool_decide (_rerank_model_name w <> Some actual) = true) as ->.
  { destruct Hmiss as [H|H].
    - by rewrite (bool_decide_eq_true_2 _ H).
    - rewrite (bool_decide_eq_true_2 _ H). by destruct (bool_decide _). }
  cbn. by destruct (CrossEncoder_ok (attempts w) actual).
Qed.

Lemma embedding_hit_or_miss name w :
  (exists h, _embedding_model w = Some h /\ _embedding_model_name w = Some name)
  \/ (_embedding_model w = None \/ _embedding_model_name w <> Some name).
Proof.
  destruct (_embedding_model w) as [h|]; [|by right; left].
  destruct (decide (_embedding_model_name w = Some name)) as [E|E].
  - left. by exists h.
  - right. by right.
Qed.

Lemma rerank_hit_or_miss actual w :
  (exists h, _rerank_model w = Some h /\ _rerank_model_name w = Some actual)
  \/ (_rerank_model w = None \/ _rerank_model_name w <> Some actual).
Proof.
  destruct (_rerank_model w) as [h|]; [|by right; left].
  destruct (decide (_rerank_model_name w = Some actual)) as [E|E].
  - left. by exists h.
  - right. by right.
Qed.

Lemma get_embedding_model_cached name w r w1 :
  get_embedding_model name w = Ok r w1 ->
  exists h, r = Some h /\ _embedding_model w1 = Some h
            /\ _embedding_model_name w1 = Some name
            /\ (handles_known w = true -> handles_known w1 = true).
Proof.
  intros Hrun.
  destruct (embedding_hit_or_miss name w) as [(h & Hm & Hn)|Hmiss].
  - rewrite (get_embedding_model_hit name h w Hm Hn) in Hrun.
    inversion Hrun; subst. by exists h.
  - rewrite (get_embedding_model_miss name w Hmiss) in Hrun. cbn in Hrun.
    destruct (SentenceTransformer_ok (attempts w) name); [|discriminate].
    inversion Hrun; subst. eexists. repeat split.
    unfold handles_known. cbn. rewrite !andb_true_iff.
    intros [_ H2]. split; [apply Nat.ltb_lt; lia|].
    destruct (_rerank_model w) as [h|]; [|done]. cbn in *.
    apply Nat.ltb_lt. apply Nat.ltb_lt in H2. lia.
Qed.

Lemma get_rerank_model_cached name w r w1 :
  get_rerank_model name w = Ok r w1 ->
  exists h, r = Some h /\ _rerank_model w1 = Some h
            /\ _rerank_model_name w1 = Some (literal_get RERANK_MODEL_ALIASES name name).
Proof.
  intros Hrun.
  destruct (rerank_hit_or_miss (literal_get RERANK_MODEL_ALIASES name name) w)
    as [(h & Hm & Hn)|Hmiss].
  - rewrite (get_rerank_model_hit name h w Hm Hn) in Hrun.
    inversion Hrun; subst. by exists h.
  - rewrite (get_rerank_model_miss name w Hmiss) in Hrun. cbn in Hrun.
    destruct (CrossEncoder_ok _ _); [|discriminate].
    inversion Hrun; subst. by eexists.
Qed.

(** The identifiers on the right of the alias table are not aliases
    themselves: resolving twice is resolving once. *)
Lemma alias_resolve_idem name :
  In name ["fast"; "balanced"; "best"; "latest"]%string ->
  let actual := literal_get RERANK_MODEL_ALIASES name name in
  literal_get RERANK_MODEL_ALIASES actual actual = actual.
Proof.
  cbn. intros [<-|[<-|[<-|[<-|[]]]]]; reflexivity.
Qed.

(** C5: once [get_embedding_model X] has returned, calling it again with
    the same name returns the same handle instance and leaves the whole
    state as it is (no construction, cache slot untouched); calling it
    with another name that loads builds a new instance, different from
    the cached one, and stores it together with its name. *)
Theorem C5_embedding_cache_reuse_and_replace
    (X : string) (w w1 : world) (r : option handle) :
  handles_known w = true ->
  get_embedding_model X w = Ok r w1 ->
  exists h, r = Some h
    /\ get_embedding_model X w1 = Ok (Some h) w1
    /\ forall Y, Y <> X -> SentenceTransformer_ok (attempts w1) Y = true ->
         exists h' w2, get_embedding_model Y w1 = Ok (Some h') w2
           /\ h' <> h /\ h_name h' = Y
           /\ _embedding_model w2 = Some h'
           /\ _embedding_model_name w2 = Some Y
           /\ trace w2 = trace w1 ++ [EvLoadEmbedding Y].
Proof.
  intros Hk Hrun.
  destruct (get_embedding_model_cached X w r w1 Hrun) as (h & -> & Hm & Hn & Hk1).
  exists h. split; [done|]. split; [by apply get_embedding_model_hit|].
  intros Y HY Hok.
  rewrite (get_embedding_model_miss Y w1)
    by (right; rewrite Hn; congruence).
  cbn. rewrite Hok. do 2 eexists. split; [done|]. cbn.
  split; [|done].
  specialize (Hk1 Hk). unfold handles_known in Hk1.
  apply andb_true_iff in Hk1 as [Hk1 _]. rewrite Hm in Hk1. cbn in Hk1.
  apply Nat.ltb_lt in Hk1. intros <-. cbn in Hk1. lia.
Qed.

(** C6: each alias of the table resolves to its table entry, calling
    [get_rerank_model] with the alias is calling it with that entry, and
    after a call with the alias has returned, a further call with the
    alias or with the resolved identifier returns the cached handle and
    leaves the state as it is (no construction). *)
Theorem C6_rerank_alias_hits_cache
    (alias : string) (w w1 : world) (r : option handle) :
  In alias ["fast"; "balanced"; "best"; "latest"]%string ->
  get_rerank_model alias w = Ok r w1 ->
  let actual := literal_get RERANK_MODEL_ALIASES alias alias in
  In (alias, actual) RERANK_MODEL_ALIASES
  /\ (forall w0, get_rerank_model alias w0 = get_rerank_model actual w0)
  /\ exists h, r = Some h
       /\ _rerank_model_name w1 = Some actual
       /\ get_rerank_model alias w1 = Ok (Some h) w1
       /\ get_rerank_model actual w1 = Ok (Some h) w1.
Proof.
  intros Hin Hrun actual.
  pose proof (alias_resolve_idem alias Hin) as Hidem. cbn zeta in Hidem.
  fold actual in Hidem.
  split; [|split].
  - subst actual. cbn in Hin |- *.
    destruct Hin as [<-|[<-|[<-|[<-|[]]]]]; cbn; tauto.
  - intros w0. unfold get_rerank_model. fold actual. by rewrite Hidem.
  - destruct (get_rerank_model_cached alias w r w1 Hrun) as (h & -> & Hm & Hn).
    fold actual in Hn. exists h. repeat split; [done| |].
    + by apply get_rerank_model_hit.
    + apply get_rerank_model_hit; [done|]. by rewrite Hidem.
Qed.

(** C7: when the construction of the requested model fails, both getters
    raise the load error and leave the four cache globals exactly as they
    were; a model cached before is still returned for its own name. *)
Theorem C7_failed_load_keeps_cache (w : world) (ename rname : string) :
  SentenceTransformer_ok (attempts w) ename = false ->
  (_embedding_model w = None \/ _embedding_model_name w <> Some ename) ->
  CrossEncoder_ok (attempts w) (literal_get RERANK_MODEL_ALIASES rname rname) = false ->
  (_rerank_model w = None
   \/ _rerank_model_name w <> Some (literal_get RERANK_MODEL_ALIASES rname rname)) ->
  (exists w', get_embedding_model ename w = Raise (ModelLoadError ename) w'
     /\ globals w' = globals w
     /\ forall old h, _embedding_model w = Some h ->
          _embedding_model_name w = Some old ->
          get_embedding_model old w' = Ok (Some h) w')
  /\ (exists w', get_rerank_model rname w
                 = Raise (ModelLoadError (literal_get RERANK_MODEL_ALIASES rname rname)) w'
     /\ globals w' = globals w
     /\ forall old h, _rerank_model w = Some h ->
          _rerank_model_name w = Some (literal_get RERANK_MODEL_ALIASES old old) ->
          get_rerank_model old w' = Ok (Some h) w').
Proof.
  intros He Hme Hr Hmr. split.
  - rewrite (get_embedding_model_miss ename w Hme). cbn. rewrite He.
    eexists. split; [done|]. split; [done|].
    intros old h Hm Hn. by apply get_embedding_model_hit.
  - rewrite (get_rerank_model_miss rname w Hmr). cbv zeta. rewrite Hr.
    eexists. split; [done|]. split; [done|].
    intros old h Hm Hn. by apply get_rerank_model_hit.
Qed.

(** ** Reading the store *)

Definition dict_at (h : list obj) (c : loc) : option (gmap string value) :=
  match h !! c with Some (ODict d) => Some d | _ => None end.

Definition field (h : list obj) (c : loc) (k : string) : option value :=
  match dict_at h c with Some d => d !! k | None => None end.

Definition score_of (h : list obj) (c : loc) : option Score :=
  match field h c "rerank_score" with Some (VFloat s) => Some s | _ => None end.

(** The items of the list object [l]. *)
Definition items (h : list obj) (l : loc) : option (list loc) :=
  match h !! l with Some (OList ls) => Some ls | _ => None end.

(** Two scores tie when neither is below the other. *)
Definition score_tie (a b : Score) : bool := negb (flt a b) && negb (flt b a).

(** The items whose stored score ties with [k]. *)
Definition ties (h : list obj) (k : Score) (c : loc) : bool :=
  match score_of h c with Some s => score_tie k s | None => false end.

(** [c1] may stand before [c2] in a descending ranking: both carry a
    score and the first is not below the second. *)
Definition score_ge (h : list obj) (c1 c2 : loc) : Prop :=
  exists s1 s2, score_of h c1 = Some s1 /\ score_of h c2 = Some s2
                /\ flt s1 s2 = false.

(** The effect of the scoring loop on the store. *)
Fixpoint set_scores (l : list (loc * Score)) (h : list obj) : list obj :=
  match l with
  | [] => h
  | cs :: l' =>
      set_scores l'
        (match dict_at h (fst cs) with
         | Some d => <[fst cs := ODict (<["rerank_score" := VFloat (snd cs)]> d)]> h
         | None => h
         end)
  end.

(** The score the loop leaves on [c]: the last one zipped with it. *)
Fixpoint last_score (l : list (loc * Score)) (c : loc) : option Score :=
  match l with
  | [] => None
  | cs :: l' =>
      match last_score l' c with
      | Some s => Some s
      | None => if Nat.eqb (fst cs) c then Some (snd cs) else None
      end
  end.

Lemma set_scores_lookup l h i :
  set_scores l h !! i =
    match h !! i with
    | Some (ODict d) =>
        Some (ODict (match last_score l i with
                     | Some s => <["rerank_score" := VFloat s]> d
                     | None => d
                     end))
    | o => o
    end.
Proof.
  revert h. induction l as [|[c s] l IH]; intros h; cbn [set_scores last_score fst snd].
  - by destruct (h !! i) as [[]|].
  - rewrite IH.
    destruct (Nat.eqb_spec c i) as [->|Hne].
    + unfold dict_at.
      destruct (h !! i) as [[d|ls]|] eqn:Hi; rewrite ?Hi; [|done|done].
      rewrite list_lookup_insert_eq by (by eapply lookup_lt_Some).
      destruct (last_score l i); [|done]. by rewrite insert_insert_eq.
    + assert (match dict_at h c with
              | Some d => <[c := ODict (<["rerank_score" := VFloat s]> d)]> h
              | None => h
              end !! i = h !! i) as ->.
      { destruct (dict_at h c); [|done]. by rewrite list_lookup_insert_ne. }
      destruct (h !! i) as [[]|] eqn:Hi; rewrite ?Hi; [|done|done].
      by destruct (last_score l i).
Qed.

Lemma set_scores_length l h : length (set_scores l h) = length h.
Proof.
  revert h. induction l as [|[c s] l IH]; intros h; cbn [set_scores fst snd]; [done|].
  rewrite IH. destruct (dict_at h c); [|done]. by rewrite length_insert.
Qed.

Lemma set_scores_items l h i : items (set_scores l h) i = items h i.
Proof.
  unfold items. rewrite set_scores_lookup. by destruct (h !! i) as [[]|].
Qed.

Lemma set_scores_dict_at l h c :
  dict_at (set_scores l h) c =
    match last_score l c with
    | Some s => <["rerank_score" := VFloat s]> <$> dict_at h c
    | None => dict_at h c
    end.
Proof.
  unfold dict_at. rewrite set_scores_lookup.
  destruct (h !! c) as [[]|]; by destruct (last_score l c).
Qed.

Lemma set_scores_field l h c k :
  k <> "rerank_score"%string -> field (set_scores l h) c k = field h c k.
Proof.
  intros Hk. unfold field. rewrite set_scores_dict_at.
  destruct (last_score l c); [|done].
  destruct (dict_at h c); [|done]. cbn. by rewrite lookup_insert_ne.
Qed.

Lemma set_scores_score_of l h c s :
  is_Some (dict_at h c) -> last_score l c = Some s ->
  score_of (set_scores l h) c = Some s.
Proof.
  intros [d Hd] Hs. unfold score_of, field.
  rewrite set_scores_dict_at, Hs, Hd. cbn. by rewrite lookup_insert_eq.
Qed.

Lemma last_score_zip cs scores c :
  (length cs <= length scores)%nat -> c ∈ cs ->
  is_Some (last_score (zip cs scores) c).
Proof.
  revert scores. induction cs as [|c0 cs IH]; intros scores Hlen Hin.
  - by apply elem_of_nil in Hin.
  - destruct scores as [|s scores]; [cbn in Hlen; lia|].
    change (zip (c0 :: cs) (s :: scores)) with ((c0, s) :: zip cs scores).
    cbn [last_score fst snd].
    destruct (last_score (zip cs scores) c) eqn:E; [by eexists|].
    apply elem_of_cons in Hin as [->|Hin].
    + rewrite Nat.eqb_refl. by eexists.
    + destruct (IH scores) as [x Hx]; [cbn in Hlen; lia|done|].
      rewrite E in Hx. discriminate.
Qed.

(** With a scorer that is a function of the pair, the score left on a
    candidate is the score of its own pair, whatever the list order. *)
Lemma last_score_zip_map (f : loc -> Score) cs c :
  last_score (zip cs (map f cs)) c = if bool_decide (c ∈ cs) then Some (f c) else None.
Proof.
  induction cs as [|c0 cs IH]; [done|].
  change (zip (c0 :: cs) (map f (c0 :: cs)))
    with ((c0, f c0) :: zip cs (map f cs)).
  cbn [last_score fst snd]. rewrite IH.
  destruct (bool_decide_reflect (c ∈ cs)) as [Hin|Hnin].
  - rewrite bool_decide_eq_true_2; [done|]. by right.
  - destruct (Nat.eqb_spec c0 c) as [->|Hne].
    + rewrite bool_decide_eq_true_2; [done|]. by left.
    + rewrite bool_decide_eq_false_2; [done|].
      intros [->|?]%elem_of_cons; done.
Qed.

(** ** Running the store operations *)

Lemma map_m_ok {A B} (f : A -> M B) (g : A -> B) l w :
  (forall x, x ∈ l -> f x w = Ok (g x) w) ->
  map_m f l w = Ok (map g l) w.
Proof.
  induction l as [|x l IH]; intros Hf; [done|].
  cbn [map_m map]. unfold bind at 1. rewrite Hf by (by left).
  unfold bind at 1. rewrite IH; [done|].
  intros y Hy. apply Hf. by right.
Qed.

Lemma read_list_ok l ls w : items (heap w) l = Some ls -> read_list l w = Ok ls w.
Proof.
  unfold items, read_list. by destruct (heap w !! l) as [[]|]; intros [= ->].
Qed.

Lemma read_dict_ok c d w : dict_at (heap w) c = Some d -> read_dict c w = Ok d w.
Proof.
  unfold dict_at, read_dict. by destruct (heap w !! c) as [[]|]; intros [= ->].
Qed.

Lemma getitem_ok c k v w : field (heap w) c k = Some v -> getitem c k w = Ok v w.
Proof.
  unfold field, getitem, bind. destruct (dict_at (heap w) c) as [d|] eqn:Hd; [|done].
  rewrite (read_dict_ok c d w Hd). by intros ->.
Qed.

Lemma getitem_missing c k d w :
  dict_at (heap w) c = Some d -> d !! k = None -> getitem c k w = Raise (KeyError k) w.
Proof.
  intros Hd Hk. unfold getitem, bind. rewrite (read_dict_ok c d w Hd). by rewrite Hk.
Qed.

Lemma dict_get_ok c k dflt d w :
  dict_at (heap w) c = Some d -> dict_get c k dflt w = Ok (default dflt (d !! k)) w.
Proof.
  intros Hd. unfold dict_get, bind. by rewrite (read_dict_ok c d w Hd).
Qed.

Lemma setitem_ok c k v d w :
  dict_at (heap w) c = Some d ->
  setitem c k v w = Ok tt (with_heap (<[c := ODict (<[k := v]> d)]> (heap w)) w).
Proof.
  intros Hd. unfold setitem, bind. by rewrite (read_dict_ok c d w Hd).
Qed.

Lemma dict_at_insert h c d c' :
  (c < length h)%nat ->
  dict_at (<[c := ODict d]> h) c' = if Nat.eqb c c' then Some d else dict_at h c'.
Proof.
  intros Hlt. unfold dict_at. destruct (Nat.eqb_spec c c') as [->|Hne].
  - by rewrite list_lookup_insert_eq.
  - by rewrite list_lookup_insert_ne.
Qed.

Lemma dict_at_lt h c d : dict_at h c = Some d -> (c < length h)%nat.
Proof.
  unfold dict_at. destruct (h !! c) eqn:E; [|done].
  intros _. by eapply lookup_lt_Some.
Qed.

(** The scoring loop [for c, s in zip(...): c["rerank_score"] = float(s)]. *)
Lemma for_each_setitem (l : list (loc * Score)) w :
  Forall (fun cs => is_Some (dict_at (heap w) (fst cs))) l ->
  for_each (fun cs => setitem (fst cs) "rerank_score" (VFloat (snd cs))) l w
  = Ok tt (with_heap (set_scores l (heap w)) w).
Proof.
  revert w. induction l as [|[c s] l IH]; intros w Hall.
  - by destruct w.
  - inversion Hall as [|? ? [d Hd] Hrest]; subst. cbn [fst snd] in *.
    cbn [for_each set_scores fst snd]. unfold bind.
    rewrite (setitem_ok c _ _ d w Hd), Hd.
    rewrite IH; [done|]. cbn.
    eapply Forall_impl; [exact Hrest|]. intros [c' s'] [d' Hd']. cbn in *.
    rewrite dict_at_insert by (by eapply dict_at_lt).
    destruct (Nat.eqb c c'); by eexists.
Qed.

Lemma sorted_by_rerank_score_ok (l : list loc) (k : loc -> Score) w :
  (forall c, c ∈ l -> score_of (heap w) c = Some (k c)) ->
  sorted_by_rerank_score l w
  = Ok (map snd (sorted_reverse flt (map (fun c => (k c, c)) l))) w.
Proof.
  intros Hk. unfold sorted_by_rerank_score, bind at 1.
  rewrite (map_m_ok _ (fun c => (k c, c))); [done|].
  intros c Hc. specialize (Hk c Hc). unfold score_of in Hk.
  destruct (field (heap w) c "rerank_score") as [[]|] eqn:Hf; try done.
  inversion Hk; subst. unfold bind. by rewrite (getitem_ok _ _ _ _ Hf).
Qed.

(** ** The ranking computed by both re-rankers *)

Lemma prefix_filter {A} (p : A -> bool) (l1 l2 : list A) :
  l1 `prefix_of` l2 -> List.filter p l1 `prefix_of` List.filter p l2.
Proof. intros [r ->]. rewrite List.filter_app. by eexists. Qed.

Lemma prefix_map {A B} (f : A -> B) (l1 l2 : list A) :
  l1 `prefix_of` l2 -> map f l1 `prefix_of` map f l2.
Proof. intros [r ->]. rewrite List.map_app. by eexists. Qed.

Lemma strict_weak_keyed {A} :
  StrictWeak flt -> StrictWeak (fun x y : Score * A => flt (fst x) (fst y)).
Proof.
  intros [Hi Ht Hn]. split.
  - intros x. apply Hi.
  - intros x y z. apply Ht.
  - intros x y z. apply Hn.
Qed.

Definition ranking (k : loc -> Score) (l : list loc) : list loc :=
  map snd (sorted_reverse flt (map (fun c => (k c, c)) l)).

Section Ranking.
Context (Hflt : StrictWeak flt).
Variable h : list obj.
Variable k : loc -> Score.
Variable l : list loc.
Hypothesis Hk : forall c, c ∈ l -> score_of h c = Some (k c).

Local Abbreviation keyed := (map (fun c => (k c, c)) l).
Local Abbreviation after := (fun x y : Score * loc => flt (fst x) (fst y)).

Lemma keyed_elem x : x ∈ sorted_reverse flt keyed -> x = (k (snd x), snd x) /\ snd x ∈ l.
Proof.
  unfold sorted_reverse. intros Hx.
  rewrite (sort_stable_perm after keyed) in Hx.
  apply list_elem_of_In, in_map_iff in Hx as (c & <- & Hc).
  split; [done|]. by apply list_elem_of_In.
Qed.

Lemma ranking_perm : ranking k l ≡ₚ l.
Proof.
  unfold ranking, sorted_reverse.
  etrans; [apply Permutation_map, (sort_stable_perm after)|].
  rewrite List.map_map. cbn. by rewrite List.map_id.
Qed.

Lemma ranking_length : length (ranking k l) = length l.
Proof. apply Permutation_length, ranking_perm. Qed.

Lemma ranking_sorted : StronglySorted (score_ge h) (ranking k l).
Proof.
  unfold ranking.
  pose proof (sort_stable_sorted after (StrictWeak0 := strict_weak_keyed Hflt) keyed) as Hs.
  pose proof keyed_elem as He. unfold sorted_reverse in *.
  induction Hs as [|x s Hs IH Hx]; cbn [map]; constructor.
  - apply IH. intros y Hy. apply He. by right.
  - rewrite Forall_forall. intros c Hc.
    apply list_elem_of_In, in_map_iff in Hc as (y & <- & Hy).
    apply list_elem_of_In in Hy.
    destruct x as [sx cx], y as [sy cy].
    destruct (He (sx, cx)) as [[= Ex] Hxl]; [by left|].
    destruct (He (sy, cy)) as [[= Ey] Hyl]; [by right|].
    cbn [fst snd] in *.
    exists sx, sy. rewrite Ex at 1. rewrite Ey at 1.
    repeat split; [by apply Hk|by apply Hk|].
    rewrite Forall_forall in Hx. by specialize (Hx _ Hy).
Qed.

(** Items that tie on their score come out in their input order. *)
Lemma ranking_stable s : List.filter (ties h s) (ranking k l) = List.filter (ties h s) l.
Proof.
  unfold ranking.
  assert (Hties : forall q : list (Score * loc),
             (forall x, x ∈ q -> x = (k (snd x), snd x) /\ snd x ∈ l) ->
             List.filter (ties h s) (map snd q)
             = map snd (List.filter (tie after (s, 0%nat)) q)).
  { induction q as [|x q IH]; intros Hq; [done|].
    cbn [map List.filter]. rewrite IH by (intros y Hy; apply Hq; by right).
    destruct x as [sx cx].
    destruct (Hq (sx, cx)) as [[= Ex] Hxl]; [by left|]. cbn [fst snd] in *.
    unfold ties at 1. rewrite (Hk _ Hxl), <- Ex.
    change (tie after (s, 0%nat) (sx, cx)) with (score_tie s sx).
    by destruct (score_tie s sx). }
  rewrite Hties by apply keyed_elem.
  unfold sorted_reverse.
  rewrite (sort_stable_tie after (StrictWeak0 := strict_weak_keyed Hflt)).
  rewrite <- Hties.
  - rewrite List.map_map. cbn. by rewrite List.map_id.
  - intros x Hx. apply list_elem_of_In, in_map_iff in Hx as (c & <- & Hc).
    split; [done|]. by apply list_elem_of_In.
Qed.

(** What the caller gets: the first [n] items of the ranking. *)
Lemma ranking_facts (n : Z) :
  0 <= n ->
  let out := slice_to n (ranking k l) in
  length out = Nat.min (Z.to_nat n) (length l)
  /\ StronglySorted (score_ge h) out
  /\ (forall s, List.filter (ties h s) out `prefix_of` List.filter (ties h s) l)
  /\ (forall c, c ∈ out -> c ∈ l).
Proof.
  intros Hn out. split; [|split; [|split]].
  - unfold out. by rewrite slice_to_length, ranking_length.
  - pose proof ranking_sorted as Hs.
    destruct (slice_to_prefix n (ranking k l)) as [r Hr]. fold out in Hr.
    rewrite Hr in Hs. by apply StronglySorted_app_1_l in Hs.
  - intros s. rewrite <- (ranking_stable s).
    apply prefix_filter, slice_to_prefix.
  - intros c Hc. rewrite <- ranking_perm.
    destruct (slice_to_prefix n (ranking k l)) as [r Hr]. fold out in Hr.
    rewrite Hr. apply elem_of_app. by left.
Qed.
End Ranking.

Lemma bind_Ok {A B} (c : M A) (k : A -> M B) w a w' :
  c w = Ok a w' -> bind c k w = k a w'.
Proof. unfold bind. by intros ->. Qed.

Lemma bind_Raise {A B} (c : M A) (k : A -> M B) w e w' :
  c w = Raise e w' -> bind c k w = Raise e w'.
Proof. unfold bind. by intros ->. Qed.

(** The text a candidate is paired with ([None] standing for a missing
    value can only show up where the key is present and holds [None]). *)
Definition text_of (h : list obj) (c : loc) : value :=
  default VNone (field h c "text").

Definition pairs_of (h : list obj) (question : text) (cs : list loc)
  : list (text * value) :=
  map (fun c => (question, text_of h c)) cs.

(** ** [RagQueryEngine.rerank] on a well-formed call *)

Lemma rerank_run self question candidates w cs scores :
  items (heap w) candidates = Some cs ->
  cs <> [] ->
  (forall c, c ∈ cs -> is_Some (field (heap w) c "text")) ->
  predict (rerank_model self) (pairs_of (heap w) question cs) = inr scores ->
  (length cs <= length scores)%nat ->
  exists k : loc -> Score,
    (forall c, c ∈ cs -> last_score (zip cs scores) c = Some (k c))
    /\ rerank self question candidates w
       = Ok (length (heap w))
            (with_heap (set_scores (zip cs scores) (heap w)
                        ++ [OList (slice_to (top_n_rerank self) (ranking k cs))])
               (with_trace (trace w ++ [EvRerank question candidates;
                                        EvPredict (rerank_model self)
                                          (pairs_of (heap w) question cs)]) w)).
Proof.
  intros Hitems Hne Htext Hpred Hlen.
  assert (exists s0 : Score, True) as [s0 _].
  { destruct cs; [done|]. destruct scores; [cbn in Hlen; lia|]. by eexists. }
  exists (fun c => default s0 (last_score (zip cs scores) c)).
  assert (Hk : forall c, c ∈ cs ->
            last_score (zip cs scores) c
            = Some (default s0 (last_score (zip cs scores) c))).
  { intros c Hc. by destruct (last_score_zip cs scores c Hlen Hc) as [s ->]. }
  split; [exact Hk|].
  unfold rerank.
  rewrite (bind_Ok _ _ _ tt (with_trace (trace w ++ [EvRerank question candidates]) w))
    by done.
  cbv beta.
  rewrite (bind_Ok _ _ _ cs _
             (read_list_ok candidates cs
                (with_trace (trace w ++ [EvRerank question candidates]) w) Hitems)).
  destruct cs as [|c0 cs']; [done|]. cbv beta iota.
  set (cs := c0 :: cs') in *.
  rewrite (bind_Ok _ _ _ (pairs_of (heap w) question cs)
             (with_trace (trace w ++ [EvRerank question candidates]) w)).
  2:{ apply map_m_ok. intros c Hc. destruct (Htext c Hc) as [t Ht].
      unfold text_of. rewrite Ht. cbn [default].
      by rewrite (bind_Ok _ _ _ t _
                    (getitem_ok c "text" t
                       (with_trace (trace w ++ [EvRerank question candidates]) w) Ht)). }
  cbv beta.
  rewrite (bind_Ok _ _ _ scores
             (with_trace (trace w ++ [EvRerank question candidates;
                                      EvPredict (rerank_model self)
                                        (pairs_of (heap w) question cs)]) w)).
  2:{ unfold model_predict, emit, modify, bind. rewrite Hpred. cbn.
      by rewrite <- app_assoc. }
  cbv beta. unfold bind at 1.
  rewrite for_each_setitem.
  2:{ rewrite Forall_forall. intros [c s] Hcs. cbn.
      apply elem_of_zip_l in Hcs. destruct (Htext c Hcs) as [t Ht].
      unfold field in Ht. destruct (dict_at (heap w) c); [by eexists|done]. }
  cbv iota beta. unfold bind at 1.
  rewrite (sorted_by_rerank_score_ok cs
             (fun c => default s0 (last_score (zip cs scores) c))).
  2:{ intros c Hc. cbn. apply set_scores_score_of; [|by apply Hk].
      destruct (Htext c Hc) as [t Ht]. unfold field in Ht.
      destruct (dict_at (heap w) c); [by eexists|done]. }
  unfold bind, alloc. cbn. by rewrite set_scores_length.
Qed.

(** ** [rerank_chunks] on a well-formed call *)

Lemma get_rerank_model_heap name w r w1 :
  get_rerank_model name w = Ok r w1 -> heap w1 = heap w.
Proof.
  intros Hrun.
  destruct (rerank_hit_or_miss (literal_get RERANK_MODEL_ALIASES name name) w)
    as [(h & Hm & Hn)|Hmiss].
  - rewrite (get_rerank_model_hit name h w Hm Hn) in Hrun. by inversion Hrun.
  - rewrite (get_rerank_model_miss name w Hmiss) in Hrun. cbv zeta in Hrun.
    destruct (CrossEncoder_ok _ _); [|discriminate]. by inversion Hrun.
Qed.

(** The fresh dict the copy loop builds for one (chunk, score) pair. *)
Definition copy_with_score (h : list obj) (cs : loc * Score) : obj :=
  ODict (<["rerank_score" := VFloat (snd cs)]> (default ∅ (dict_at h (fst cs)))).

Lemma dict_at_app_l h1 h2 c :
  (c < length h1)%nat -> dict_at (h1 ++ h2) c = dict_at h1 c.
Proof. intros Hlt. unfold dict_at. by rewrite lookup_app_l. Qed.

Lemma copy_step c s d w :
  dict_at (heap w) c = Some d ->
  (chunk_with_score <- dict_copy c ;;
   setitem chunk_with_score "rerank_score" (VFloat s) ;;
   ret chunk_with_score) w
  = Ok (length (heap w))
       (with_heap (heap w ++ [copy_with_score (heap w) (c, s)]) w).
Proof.
  intros Hd.
  assert (Hcopy : dict_copy c w
                  = Ok (length (heap w)) (with_heap (heap w ++ [ODict d]) w)).
  { unfold dict_copy. by rewrite (bind_Ok _ _ _ d w (read_dict_ok c d w Hd)). }
  rewrite (bind_Ok _ _ _ _ _ Hcopy). cbv beta.
  assert (Hnew : dict_at (heap (with_heap (heap w ++ [ODict d]) w)) (length (heap w))
                 = Some d).
  { unfold dict_at. cbn. by rewrite lookup_app_r, Nat.sub_diag by lia. }
  rewrite (bind_Ok _ _ _ _ _ (setitem_ok _ "rerank_score" (VFloat s) d _ Hnew)).
  unfold ret, copy_with_score. cbn. rewrite Hd. cbn.
  rewrite insert_app_r_alt by lia. by rewrite Nat.sub_diag.
Qed.

Lemma copy_loop_run (l : list (loc * Score)) w :
  Forall (fun cs => is_Some (dict_at (heap w) (fst cs))) l ->
  map_m (fun cs => chunk_with_score <- dict_copy (fst cs) ;;
                   setitem chunk_with_score "rerank_score" (VFloat (snd cs)) ;;
                   ret chunk_with_score) l w
  = Ok (seq (length (heap w)) (length l))
       (with_heap (heap w ++ map (copy_with_score (heap w)) l) w).
Proof.
  revert w. induction l as [|[c s] l IH]; intros w Hall.
  - cbn. rewrite app_nil_r. by destruct w.
  - inversion Hall as [|? ? [d Hd] Hrest]; subst. cbn [fst snd] in *.
    cbn [map_m].
    rewrite (bind_Ok _ _ _ _ _ (copy_step c s d w Hd)). cbv beta.
    unfold bind at 1. rewrite IH.
    2:{ cbn [heap with_heap]. eapply Forall_impl; [exact Hrest|].
        intros [c' s'] [d' Hd']. cbn in *.
        rewrite dict_at_app_l by (by eapply dict_at_lt). by eexists. }
    cbn [heap with_heap length map seq]. rewrite length_app. cbn [length].
    rewrite Nat.add_1_r. unfold ret. f_equal.
    assert (map (copy_with_score (heap w ++ [copy_with_score (heap w) (c, s)])) l
            = map (copy_with_score (heap w)) l) as ->.
    { apply map_ext_in. intros [c' s'] Hin.
      apply list_elem_of_In in Hin. rewrite Forall_forall in Hrest.
      destruct (Hrest _ Hin) as [d' Hd']. cbn in Hd'.
      unfold copy_with_score. cbn [fst snd].
      by rewrite dict_at_app_l by (by eapply dict_at_lt). }
    rewrite <- app_assoc. cbn [app].
    by destruct w.
Qed.

Lemma copies_lookup h (l : list (loc * Score)) i :
  (h ++ map (copy_with_score h) l) !! (length h + i)%nat
  = copy_with_score h <$> l !! i.
Proof.
  rewrite lookup_app_r by lia.
  replace (length h + i - length h)%nat with i by lia.
  change (map (copy_with_score h) l) with (copy_with_score h <$> l).
  by rewrite list_lookup_fmap.
Qed.

(** [chunk.get("text", "")] for every chunk. *)
Definition pairs_get (h : list obj) (question : text) (cs : list loc)
  : list (text * value) :=
  map (fun c => (question, default (VStr []) (field h c "text"))) cs.

Lemma rerank_chunks_run question chunks top_n model_name w cs m w1 scores :
  items (heap w) chunks = Some cs ->
  cs <> [] ->
  (forall c, c ∈ cs -> is_Some (dict_at (heap w) c)) ->
  (let name := default DEFAULT_RERANK_MODEL model_name in
   get_rerank_model (literal_get RERANK_MODELS name name) w = Ok (Some m) w1) ->
  predict m (pairs_get (heap w) question cs) = inr scores ->
  (length cs <= length scores)%nat ->
  exists k : loc -> Score,
    (forall i s, (i < length cs)%nat -> scores !! i = Some s ->
                 k (length (heap w) + i)%nat = s)
    /\ rerank_chunks question chunks top_n model_name w
       = Ok (length (heap w) + length cs)%nat
            (with_heap ((heap w ++ map (copy_with_score (heap w)) (zip cs scores))
                        ++ [OList (slice_to top_n
                                     (ranking k (seq (length (heap w)) (length cs))))])
               (with_trace (trace w1 ++ [EvPredict m (pairs_get (heap w) question cs)])
                  w1)).
Proof.
  intros Hitems Hne Hdict Hload Hpred Hlen. cbv zeta in Hload.
  pose proof (get_rerank_model_heap _ _ _ _ Hload) as Hheap.
  assert (exists s0 : Score, True) as [s0 _].
  { destruct cs; [done|]. destruct scores; [cbn in Hlen; lia|]. by eexists. }
  set (base := length (heap w)).
  exists (fun o => default s0 (scores !! (o - base)%nat)).
  split.
  { intros i s _ Hs. replace (base + i - base)%nat with i by lia. by rewrite Hs. }
  unfold rerank_chunks.
  rewrite (bind_Ok _ _ _ cs _ (read_list_ok chunks cs w Hitems)).
  destruct cs as [|c0 cs']; [done|]. cbv beta iota zeta.
  set (cs := c0 :: cs') in *.
  rewrite (bind_Ok _ _ _ _ _ Hload). cbv beta.
  rewrite (bind_Ok _ _ _ (pairs_get (heap w) question cs) w1).
  2:{ apply map_m_ok. intros c Hc. destruct (Hdict c Hc) as [d Hd].
      rewrite <- Hheap in Hd.
      rewrite (bind_Ok _ _ _ _ _ (dict_get_ok c "text" (VStr []) d w1 Hd)).
      rewrite Hheap in Hd. unfold field. by rewrite Hd. }
  cbv beta.
  rewrite (bind_Ok _ _ _ scores
             (with_trace (trace w1 ++ [EvPredict m (pairs_get (heap w) question cs)]) w1)).
  2:{ unfold model_predict, emit, modify, bind. by rewrite Hpred. }
  cbv beta. unfold bind at 1.
  rewrite copy_loop_run.
  2:{ cbn [heap with_trace with_heap]. rewrite Hheap.
      rewrite Forall_forall. intros [c s] Hcs. cbn [fst].
      apply elem_of_zip_l in Hcs. by apply Hdict. }
  cbv beta iota. cbn [heap with_trace with_heap]. rewrite Hheap.
  assert (Hzl : length (zip cs scores) = length cs).
  { rewrite length_zip_with. lia. }
  rewrite Hzl. fold base.
  unfold bind at 1.
  rewrite (sorted_by_rerank_score_ok (seq base (length cs))
             (fun o => default s0 (scores !! (o - base)%nat))).
  2:{ intros o Ho. apply elem_of_seq in Ho as [Hge Hlt]. cbn [heap with_heap].
      replace o with (base + (o - base))%nat at 1 by lia.
      unfold score_of, field, dict_at. unfold base. rewrite copies_lookup.
      fold base.
      destruct (lookup_lt_is_Some_2 (zip cs scores) (o - base)%nat) as [[c s] Hcs];
        [lia|].
      rewrite Hcs. cbn. rewrite lookup_insert_eq.
      apply lookup_zip_with_Some in Hcs as (c' & s' & [= <- <-] & _ & Hs).
      by rewrite Hs. }
  unfold alloc. cbn [heap with_heap with_trace].
  rewrite length_app, length_map, Hzl. fold base.
  by destruct w1.
Qed.

(** ** Well-formed inputs *)

Definition is_dict (h : list obj) (c : loc) : bool :=
  match dict_at h c with Some _ => true | None => false end.

Definition has_text (h : list obj) (c : loc) : bool :=
  match field h c "text" with Some _ => true | None => false end.

Lemma has_text_all h cs :
  forallb (has_text h) cs = true -> forall c, c ∈ cs -> is_Some (field h c "text").
Proof.
  rewrite forallb_forall. intros H c Hc. apply list_elem_of_In in Hc.
  specialize (H c Hc). unfold has_text in H.
  destruct (field h c "text"); [by eexists|done].
Qed.

Lemma is_dict_all h cs :
  forallb (is_dict h) cs = true -> forall c, c ∈ cs -> is_Some (dict_at h c).
Proof.
  rewrite forallb_forall. intros H c Hc. apply list_elem_of_In in Hc.
  specialize (H c Hc). unfold is_dict in H.
  destruct (dict_at h c); [by eexists|done].
Qed.

Lemma field_dict h c k v : field h c k = Some v -> is_Some (dict_at h c).
Proof. unfold field. destruct (dict_at h c); [by eexists|done]. Qed.

Lemma field_app_l h1 h2 c k :
  (c < length h1)%nat -> field (h1 ++ h2) c k = field h1 c k.
Proof. intros Hlt. unfold field. by rewrite dict_at_app_l. Qed.

Lemma score_of_app_l h1 h2 c :
  (c < length h1)%nat -> score_of (h1 ++ h2) c = score_of h1 c.
Proof. intros Hlt. unfold score_of. by rewrite field_app_l. Qed.

Lemma items_app_l h1 h2 l :
  (l < length h1)%nat -> items (h1 ++ h2) l = items h1 l.
Proof. intros Hlt. unfold items. by rewrite lookup_app_l. Qed.

Lemma items_lt h l ls : items h l = Some ls -> (l < length h)%nat.
Proof.
  unfold items. destruct (h !! l) eqn:E; [|done]. intros _. by eapply lookup_lt_Some.
Qed.

Lemma items_new h ls : items (h ++ [OList ls]) (length h) = Some ls.
Proof. unfold items. by rewrite lookup_app_r, Nat.sub_diag by lia. Qed.

Lemma copies_score_of h (l : list (loc * Score)) i c s :
  l !! i = Some (c, s) ->
  score_of (h ++ map (copy_with_score h) l) (length h + i)%nat = Some s.
Proof.
  intros Hl. unfold score_of, field, dict_at. rewrite copies_lookup, Hl. cbn.
  by rewrite lookup_insert_eq.
Qed.

Lemma copies_field h (l : list (loc * Score)) i c s k :
  l !! i = Some (c, s) -> k <> "rerank_score"%string ->
  field (h ++ map (copy_with_score h) l) (length h + i)%nat k = field h c k.
Proof.
  intros Hl Hk. unfold field at 1, dict_at. rewrite copies_lookup, Hl. cbn.
  rewrite lookup_insert_ne by done. unfold field.
  by destruct (dict_at h c).
Qed.

(** ** Re-ranking: size, order, stability, provenance *)

(** C1 (as the code has it): on a non-empty candidate list and a positive
    bound, with a cross-encoder that returns one score per pair and scores
    that are never NaN (so that [<] orders them as a strict weak order),
    [RagQueryEngine.rerank] and [rerank_chunks] return a list of
    [min(top_n, len(candidates))] items, sorted by [rerank_score] in
    descending order; the returned items that tie with any given score are
    a prefix of the input items that tie with it, in input order; and
    every returned item carries the text of an input candidate.  For
    [rerank] the returned items are the input dicts themselves.  For
    [rerank_chunks] they are among the copies, the [i]-th object the call
    creates being the copy of the [i]-th input chunk: it holds that chunk's
    entries and, under "rerank_score", the [i]-th score; the input is left
    as it was.  Each re-ranker is covered under its own conditions. *)
Theorem C1_rerank_top_n_sorted_stable
    (Hflt : StrictWeak flt)
    (self : RagQueryEngine) (question : text) (candidates : loc) (top_n : Z)
    (model_name : option string) (w : world) (cs : list loc) :
  items (heap w) candidates = Some cs ->
  cs <> [] ->
  0 < top_n ->
  (forall scores,
      forallb (has_text (heap w)) cs = true ->
      top_n_rerank self = top_n ->
      predict (rerank_model self) (pairs_of (heap w) question cs) = inr scores ->
      length scores = length cs ->
      exists r w' out,
        rerank self question candidates w = Ok r w'
        /\ items (heap w') r = Some out
        /\ length out = Nat.min (Z.to_nat top_n) (length cs)
        /\ StronglySorted (score_ge (heap w')) out
        /\ (forall s, List.filter (ties (heap w') s) out
                      `prefix_of` List.filter (ties (heap w') s) cs)
        /\ (forall c, c ∈ out ->
              c ∈ cs /\ field (heap w') c "text" = field (heap w) c "text"))
  /\ (forall m w1 scores',
      forallb (is_dict (heap w)) cs = true ->
      (let name := default DEFAULT_RERANK_MODEL model_name in
       get_rerank_model (literal_get RERANK_MODELS name name) w = Ok (Some m) w1) ->
      predict m (pairs_get (heap w) question cs) = inr scores' ->
      length scores' = length cs ->
      exists r w' out,
        let copies := seq (length (heap w)) (length cs) in
        rerank_chunks question candidates top_n model_name w = Ok r w'
        /\ items (heap w') r = Some out
        /\ length out = Nat.min (Z.to_nat top_n) (length cs)
        /\ StronglySorted (score_ge (heap w')) out
        /\ (forall i, (i < length (heap w))%nat -> heap w' !! i = heap w !! i)
        /\ (forall i c, cs !! i = Some c ->
              exists d s,
                dict_at (heap w) c = Some d /\ scores' !! i = Some s
                /\ dict_at (heap w') (length (heap w) + i)%nat
                   = Some (<["rerank_score" := VFloat s]> d))
        /\ (forall s, List.filter (ties (heap w') s) out
                      `prefix_of` List.filter (ties (heap w') s) copies)
        /\ (forall o, o ∈ out ->
              o ∈ copies
              /\ exists c, c ∈ cs
                           /\ field (heap w') o "text" = field (heap w) c "text")).
Proof.
  intros Hitems Hne Hn. split.
  - intros scores Htext Htop Hpred Hlen.
    pose proof (has_text_all _ _ Htext) as Htext'.
    assert (Hdict : forall c, c ∈ cs -> is_Some (dict_at (heap w) c)).
    { intros c Hc. destruct (Htext' c Hc) as [t Ht]. by eapply field_dict. }
    destruct (rerank_run self question candidates w cs scores Hitems Hne Htext' Hpred)
      as (k & Hk & Hrun); [lia|].
    rewrite Htop in Hrun.
    set (hs := set_scores (zip cs scores) (heap w)) in *.
    set (out := slice_to top_n (ranking k cs)) in *.
    assert (Hlt : forall c, c ∈ cs -> (c < length hs)%nat).
    { intros c Hc. unfold hs. rewrite set_scores_length.
      destruct (Hdict c Hc) as [d Hd]. by eapply dict_at_lt. }
    assert (Hk' : forall c, c ∈ cs -> score_of (hs ++ [OList out]) c = Some (k c)).
    { intros c Hc. rewrite score_of_app_l by (by apply Hlt).
      apply set_scores_score_of; [by apply Hdict|by apply Hk]. }
    destruct (ranking_facts Hflt (hs ++ [OList out]) k cs Hk' top_n)
      as (F1 & F2 & F3 & F4); [lia|]. fold out in F1, F2, F3, F4.
    eexists _, _, out. split; [exact Hrun|]. cbn [heap with_heap].
    split. { replace (length (heap w)) with (length hs)
               by apply set_scores_length. apply items_new. }
    repeat split; try done.
    + by apply F4.
    + rewrite field_app_l by (by apply Hlt, F4).
      by apply set_scores_field.
  - intros m w1 scores' Hdict0 Hload Hpred' Hlen'.
    pose proof (is_dict_all _ _ Hdict0) as Hdict.
    destruct (rerank_chunks_run question candidates top_n model_name w cs m w1 scores'
                Hitems Hne Hdict Hload Hpred')
      as (k & Hk & Hrun); [lia|].
    set (base := length (heap w)) in *.
    set (hc := heap w ++ map (copy_with_score (heap w)) (zip cs scores')) in *.
    set (copies := seq base (length cs)) in *.
    set (out := slice_to top_n (ranking k copies)) in *.
    assert (Hzl : length (zip cs scores') = length cs).
    { rewrite length_zip_with. lia. }
    assert (Hhc : length hc = (base + length cs)%nat).
    { unfold hc. by rewrite length_app, length_map, Hzl. }
    assert (Hcopy : forall o, o ∈ copies ->
              exists i c s, o = (base + i)%nat /\ (o < length hc)%nat
                            /\ cs !! i = Some c /\ scores' !! i = Some s
                            /\ zip cs scores' !! i = Some (c, s)).
    { intros o Ho. apply elem_of_seq in Ho as [Hge Hlt].
      destruct (lookup_lt_is_Some_2 (zip cs scores') (o - base)%nat) as [[c s] Hcs];
        [lia|].
      exists (o - base)%nat, c, s. split; [lia|]. split; [lia|].
      pose proof Hcs as Hcs'.
      apply lookup_zip_with_Some in Hcs' as (c' & s' & [= <- <-] & Hc & Hs).
      done. }
    assert (Hk' : forall o, o ∈ copies -> score_of (hc ++ [OList out]) o = Some (k o)).
    { intros o Ho. destruct (Hcopy o Ho) as (i & c & s & -> & Hlt & Hc & Hs & Hz).
      rewrite score_of_app_l by done.
      unfold hc, base. rewrite (copies_score_of _ _ _ _ _ Hz).
      f_equal. symmetry. apply Hk; [|done]. by eapply lookup_lt_Some. }
    destruct (ranking_facts Hflt (hc ++ [OList out]) k copies Hk' top_n)
      as (F1 & F2 & F3 & F4); [lia|]. fold out in F1, F2, F3, F4.
    assert (Hfield : forall i c o, cs !! i = Some c -> copies !! i = Some o ->
              field (hc ++ [OList out]) o "text" = field (heap w) c "text").
    { intros i c o Hc Ho. unfold copies in Ho.
      apply lookup_seq in Ho as [-> Hi].
      destruct (lookup_lt_is_Some_2 scores' i) as [s Hs]; [lia|].
      rewrite field_app_l by (rewrite Hhc; lia).
      unfold hc, base. apply (copies_field _ _ _ _ s); [|done].
      apply lookup_zip_with_Some. by exists c, s. }
    eexists _, _, out. cbv zeta. fold base copies.
    split; [exact Hrun|]. cbn [heap with_heap].
    split. { fold hc. rewrite <- Hhc. apply items_new. }
    assert (Hcl : length copies = length cs) by apply length_seq.
    rewrite Hcl in F1.
    split; [done|]. split; [done|].
    split.
    { intros i Hi. rewrite lookup_app_l by (rewrite Hhc; lia).
      unfold hc. by rewrite lookup_app_l. }
    split.
    { intros i c Hc.
      destruct (Hdict c (list_elem_of_lookup_2 _ _ _ Hc)) as [d Hd].
      destruct (lookup_lt_is_Some_2 scores' i) as [s Hs];
        [rewrite Hlen'; by eapply lookup_lt_Some|].
      assert (Hz : zip cs scores' !! i = Some (c, s)).
      { apply lookup_zip_with_Some. by exists c, s. }
      exists d, s. split; [done|]. split; [done|].
      rewrite dict_at_app_l
        by (rewrite Hhc; pose proof (lookup_lt_Some _ _ _ Hc); lia).
      unfold dict_at, hc, base. rewrite copies_lookup, Hz. cbn.
      by rewrite Hd. }
    split; [done|].
    intros o Ho. split; [by apply F4|].
    destruct (Hcopy o (F4 o Ho)) as (i & c & s & -> & Hlt & Hc & Hs & Hz).
    exists c. split; [by eapply list_elem_of_lookup_2|].
    apply (Hfield i); [done|]. unfold copies. apply lookup_seq.
    split; [done|]. by eapply lookup_lt_Some.
Qed.

(** ** Cutting a ranking where the scores do not tie *)

Lemma filter_all {A} (p : A -> bool) l :
  Forall (fun z => p z = true) l -> List.filter p l = l.
Proof. induction 1 as [|z l Hz _ IH]; [done|]. cbn. by rewrite Hz, IH. Qed.

Lemma filter_none {A} (p : A -> bool) l :
  Forall (fun z => p z = false) l -> List.filter p l = [].
Proof. induction 1 as [|z l Hz _ IH]; [done|]. cbn. by rewrite Hz. Qed.

(** Two sorted arrangements of the same items have the same first [n]
    items, up to order, when position [n] is strictly after position
    [n - 1] in one of them. *)
Lemma take_sorted_perm {X} (after : X -> X -> bool) `{!StrictWeak after}
    (l1 l2 : list X) (n : nat) :
  l1 ≡ₚ l2 ->
  StronglySorted (in_order after) l1 ->
  StronglySorted (in_order after) l2 ->
  (0 < n)%nat ->
  (forall x y, l1 !! (n - 1)%nat = Some x -> l1 !! n = Some y -> after y x = true) ->
  take n l1 ≡ₚ take n l2.
Proof.
  intros Hp Hs1 Hs2 Hn Hcut.
  destruct (decide (length l1 <= n)%nat) as [Hge|Hlt].
  { rewrite !take_ge; [done| |done]. by rewrite <- (Permutation_length Hp). }
  destruct (lookup_lt_is_Some_2 l1 n) as [y Hy]; [lia|].
  destruct (lookup_lt_is_Some_2 l1 (n - 1)%nat) as [x Hx]; [lia|].
  specialize (Hcut x y Hx Hy).
  pose proof (take_drop_middle l1 (n - 1)%nat x Hx) as Hsplit.
  replace (S (n - 1)) with n in Hsplit by lia.
  rewrite (drop_S l1 y n Hy) in Hsplit.
  set (A := take (n - 1)%nat l1) in *. set (B := drop (S n) l1) in *.
  assert (HlenA : length (A ++ [x]) = n).
  { unfold A. rewrite length_app, length_take. cbn. lia. }
  assert (Hl1 : l1 = (A ++ [x]) ++ y :: B) by (by rewrite <- app_assoc).
  assert (Habove : Forall (fun z => after y z = true) (A ++ [x])).
  { rewrite Forall_forall. intros z Hz.
    assert (Hzx : after z x = false).
    { apply elem_of_app in Hz as [Hz|Hz].
      - rewrite <- Hsplit in Hs1.
        apply (StronglySorted_app_1_elem_of _ _ _ z x Hs1); [done|by left].
      - apply list_elem_of_singleton in Hz as ->. apply sw_irrefl. }
    destruct (after y z) eqn:E; [done|].
    by rewrite (sw_negtrans y z x E Hzx) in Hcut. }
  assert (Hbelow : Forall (fun z => after y z = false) (y :: B)).
  { rewrite Hl1 in Hs1. apply StronglySorted_app_1_r in Hs1.
    apply StronglySorted_cons in Hs1 as [HyB _].
    constructor; [apply sw_irrefl|done]. }
  assert (Hf1 : List.filter (after y) l1 = take n l1).
  { rewrite Hl1 at 1. rewrite List.filter_app, (filter_all _ _ Habove),
      (filter_none _ _ Hbelow), app_nil_r.
    rewrite Hl1. by rewrite take_app_length'. }
  pose proof (filter_perm (after y) l1 l2 Hp) as Hfp.
  pose proof (sorted_take_above after y l2 Hs2) as Ht2.
  rewrite <- (Permutation_length Hfp), Hf1, length_take in Ht2.
  replace (n `min` length l1)%nat with n in Ht2 by lia.
  by rewrite Ht2, <- Hfp, Hf1.
Qed.

Lemma ranking_ext (k1 k2 : loc -> Score) l :
  (forall c, c ∈ l -> k1 c = k2 c) -> ranking k1 l = ranking k2 l.
Proof.
  intros H. unfold ranking. do 2 f_equal. apply map_ext_in.
  intros c Hc. f_equal. by apply H, list_elem_of_In.
Qed.

Lemma ranking_take_perm (Hflt : StrictWeak flt) (k : loc -> Score)
    (l1 l2 : list loc) (n : nat) :
  l1 ≡ₚ l2 ->
  (0 < n)%nat ->
  (forall x y, ranking k l1 !! (n - 1)%nat = Some x -> ranking k l1 !! n = Some y ->
               flt (k y) (k x) = true) ->
  take n (ranking k l1) ≡ₚ take n (ranking k l2).
Proof.
  intros Hp Hn Hcut. unfold ranking in *.
  change (@map (Score * nat) nat snd) with (@fmap list _ (Score * nat) nat snd) in *.
  rewrite <- !fmap_take. apply fmap_Permutation.
  pose proof (strict_weak_keyed (A := nat) Hflt) as Hsw.
  apply (take_sorted_perm _ _ _ n); try done.
  - unfold sorted_reverse. rewrite !sort_stable_perm. by apply Permutation_map.
  - apply (sort_stable_sorted _).
  - apply (sort_stable_sorted _).
  - intros x y Hx Hy.
    assert (Hel : forall z i, sorted_reverse flt (map (fun c => (k c, c)) l1) !! i = Some z ->
                              fst z = k (snd z)).
    { intros [sz cz] i Hz. apply list_elem_of_lookup_2 in Hz.
      unfold sorted_reverse in Hz. rewrite sort_stable_perm in Hz.
      by apply list_elem_of_In, in_map_iff in Hz as (c & [= <- <-] & _). }
    rewrite (Hel _ _ Hx), (Hel _ _ Hy). apply Hcut.
    + by rewrite list_lookup_fmap, Hx.
    + by rewrite list_lookup_fmap, Hy.
Qed.

(** C2 (as the code has it): neither re-ranker filters on the text.
    Every candidate of the input list is paired with the query, in input
    order, and the whole list of pairs is handed to the cross-encoder in
    one call: [rerank] pairs the value stored under "text" whatever it
    is, [rerank_chunks] pairs the stored value or the empty string when
    the key is missing. *)
Theorem C2_every_candidate_is_paired_and_scored
    (self : RagQueryEngine) (question : text) (candidates chunks : loc) (top_n : Z)
    (model_name : option string) (w w1 : world) (cs cs' : list loc) (m : handle)
    (scores scores' : list Score) :
  items (heap w) candidates = Some cs ->
  cs <> [] ->
  forallb (has_text (heap w)) cs = true ->
  predict (rerank_model self) (pairs_of (heap w) question cs) = inr scores ->
  length scores = length cs ->
  items (heap w) chunks = Some cs' ->
  cs' <> [] ->
  forallb (is_dict (heap w)) cs' = true ->
  (let name := default DEFAULT_RERANK_MODEL model_name in
   get_rerank_model (literal_get RERANK_MODELS name name) w = Ok (Some m) w1) ->
  predict m (pairs_get (heap w) question cs') = inr scores' ->
  length scores' = length cs' ->
  (exists r w',
      rerank self question candidates w = Ok r w'
      /\ trace w' = trace w ++
           [EvRerank question candidates;
            EvPredict (rerank_model self)
              (map (fun c => (question, default VNone (field (heap w) c "text"))) cs)]
      /\ forall c, c ∈ cs -> is_Some (score_of (heap w') c))
  /\ (exists r w',
      rerank_chunks question chunks top_n model_name w = Ok r w'
      /\ trace w' = trace w1 ++
           [EvPredict m
              (map (fun c => (question, default (VStr []) (field (heap w) c "text"))) cs')]).
Proof.
  intros Hitems Hne Htext Hpred Hlen Hitems' Hne' Hdict' Hload Hpred' Hlen'.
  pose proof (has_text_all _ _ Htext) as Htext'.
  assert (Hdict : forall c, c ∈ cs -> is_Some (dict_at (heap w) c)).
  { intros c Hc. destruct (Htext' c Hc) as [t Ht]. by eapply field_dict. }
  split.
  - destruct (rerank_run self question candidates w cs scores Hitems Hne Htext' Hpred)
      as (k & Hk & Hrun); [lia|].
    eexists _, _. split; [exact Hrun|]. split; [done|].
    intros c Hc. exists (k c). cbn [heap with_heap].
    rewrite score_of_app_l.
    + apply set_scores_score_of; [by apply Hdict|by apply Hk].
    + rewrite set_scores_length. destruct (Hdict c Hc) as [d Hd]. by eapply dict_at_lt.
  - destruct (rerank_chunks_run question chunks top_n model_name w cs' m w1 scores'
                Hitems' Hne' (is_dict_all _ _ Hdict') Hload Hpred')
      as (k & Hk & Hrun); [lia|].
    eexists _, _. split; [exact Hrun|]. done.
Qed.

(** C10: [RagQueryEngine.rerank] writes into the caller's dicts.  After
    the call every dict of the input list holds a float under
    "rerank_score" (whether or not it is among the returned items) and is
    otherwise unchanged; the input list object still holds the same items
    in the same order, and the returned list is an object that did not
    exist before the call. *)
Theorem C10_rerank_scores_input_in_place
    (self : RagQueryEngine) (question : text) (candidates : loc)
    (w : world) (cs : list loc) (scores : list Score) :
  items (heap w) candidates = Some cs ->
  cs <> [] ->
  forallb (has_text (heap w)) cs = true ->
  predict (rerank_model self) (pairs_of (heap w) question cs) = inr scores ->
  length scores = length cs ->
  exists r w' out,
    rerank self question candidates w = Ok r w'
    /\ (forall c, c ∈ cs ->
          exists s, field (heap w') c "rerank_score" = Some (VFloat s))
    /\ (forall c k, c ∈ cs -> k <> "rerank_score"%string ->
          field (heap w') c k = field (heap w) c k)
    /\ items (heap w') candidates = Some cs
    /\ r <> candidates
    /\ heap w !! r = None
    /\ items (heap w') r = Some out.
Proof.
  intros Hitems Hne Htext Hpred Hlen.
  pose proof (has_text_all _ _ Htext) as Htext'.
  assert (Hdict : forall c, c ∈ cs -> is_Some (dict_at (heap w) c)).
  { intros c Hc. destruct (Htext' c Hc) as [t Ht]. by eapply field_dict. }
  destruct (rerank_run self question candidates w cs scores Hitems Hne Htext' Hpred)
    as (k & Hk & Hrun); [lia|].
  set (hs := set_scores (zip cs scores) (heap w)) in *.
  assert (Hlen_hs : length hs = length (heap w)) by apply set_scores_length.
  assert (Hlt : forall c, c ∈ cs -> (c < length hs)%nat).
  { intros c Hc. rewrite Hlen_hs. destruct (Hdict c Hc) as [d Hd]. by eapply dict_at_lt. }
  pose proof (items_lt _ _ _ Hitems) as Hcl.
  eexists _, _, _. split; [exact Hrun|]. cbn [heap with_heap]. repeat split.
  - intros c Hc. exists (k c). rewrite field_app_l by (by apply Hlt).
    pose proof (set_scores_score_of (zip cs scores) (heap w) c (k c)
                  (Hdict c Hc) (Hk c Hc)) as Hs.
    fold hs in Hs. unfold score_of in Hs.
    destruct (field hs c "rerank_score") as [[]|]; try done. by inversion Hs.
  - intros c key Hc Hkey. rewrite field_app_l by (by apply Hlt).
    by apply set_scores_field.
  - rewrite items_app_l by lia. unfold hs. by rewrite set_scores_items.
  - lia.
  - apply lookup_ge_None. lia.
  - rewrite <- Hlen_hs. apply items_new.
Qed.

(** C8 (as the code has it): with a cross-encoder that scores each pair
    by a fixed function and never returns NaN (so that [<] orders the
    scores as a strict weak order), and a positive bound N such that the
    N-th best score is strictly above the (N+1)-th (no tie across the cut),
    re-ranking a permutation of the candidate list returns the same items
    up to order, hence the same ids. *)
Theorem C8_permuted_input_same_top_n_without_tie_at_cut
    (Hflt : StrictWeak flt)
    (self : RagQueryEngine) (question : text) (cand1 cand2 : loc)
    (w : world) (cs1 cs2 : list loc) (score : text * value -> Score) :
  items (heap w) cand1 = Some cs1 ->
  items (heap w) cand2 = Some cs2 ->
  cs1 ≡ₚ cs2 ->
  cs1 <> [] ->
  forallb (has_text (heap w)) cs1 = true ->
  (forall ps, predict (rerank_model self) ps = inr (map score ps)) ->
  0 < top_n_rerank self ->
  (let k := fun c => score (question, text_of (heap w) c) in
   let n := Z.to_nat (top_n_rerank self) in
   forall x y, ranking k cs1 !! (n - 1)%nat = Some x -> ranking k cs1 !! n = Some y ->
               flt (k y) (k x) = true) ->
  exists r1 w1 out1 r2 w2 out2,
    rerank self question cand1 w = Ok r1 w1
    /\ rerank self question cand2 w = Ok r2 w2
    /\ items (heap w1) r1 = Some out1
    /\ items (heap w2) r2 = Some out2
    /\ out1 ≡ₚ out2
    /\ map (fun c => field (heap w1) c "id") out1
       ≡ₚ map (fun c => field (heap w2) c "id") out2.
Proof.
  intros Hit1 Hit2 Hperm Hne1 Htext1 Hdet Hn Hcut. cbv zeta in Hcut.
  set (k := fun c => score (question, text_of (heap w) c)) in *.
  set (n := Z.to_nat (top_n_rerank self)) in *.
  pose proof (has_text_all _ _ Htext1) as Ht1.
  assert (Ht2 : forall c, c ∈ cs2 -> is_Some (field (heap w) c "text")).
  { intros c Hc. apply Ht1. by rewrite Hperm. }
  assert (Hne2 : cs2 <> []).
  { intros ->. by apply Permutation_nil_r in Hperm. }
  assert (Hsc : forall cs, map score (pairs_of (heap w) question cs) = map k cs).
  { intros cs. unfold pairs_of. by rewrite List.map_map. }
  assert (Hrun : forall cand cs,
             items (heap w) cand = Some cs -> cs <> [] ->
             (forall c, c ∈ cs -> is_Some (field (heap w) c "text")) ->
             rerank self question cand w
             = Ok (length (heap w))
                  (with_heap (set_scores (zip cs (map k cs)) (heap w)
                              ++ [OList (take n (ranking k cs))])
                     (with_trace (trace w ++ [EvRerank question cand;
                                              EvPredict (rerank_model self)
                                                (pairs_of (heap w) question cs)]) w))).
  { intros cand cs Hit Hne Ht.
    destruct (rerank_run self question cand w cs (map k cs) Hit Hne Ht)
      as (k' & Hk' & Hrun).
    - by rewrite Hdet, Hsc.
    - by rewrite length_map.
    - rewrite Hrun. do 4 f_equal.
      unfold slice_to. destruct (Z.leb_spec 0 (top_n_rerank self)); [|lia].
      fold n. rewrite (ranking_ext k' k cs); [done|]. intros c Hc.
      specialize (Hk' c Hc). rewrite last_score_zip_map in Hk'.
      rewrite bool_decide_eq_true_2 in Hk' by done. by inversion Hk'. }
  assert (Hout : take n (ranking k cs1) ≡ₚ take n (ranking k cs2)).
  { apply ranking_take_perm; [done|done|lia|exact Hcut]. }
  assert (Hid : forall cs c, (forall c, c ∈ cs -> is_Some (field (heap w) c "text")) ->
             c ∈ take n (ranking k cs) ->
             field (set_scores (zip cs (map k cs)) (heap w)
                    ++ [OList (take n (ranking k cs))]) c "id"
             = field (heap w) c "id").
  { intros cs c Ht Hc.
    assert (Hcs : c ∈ cs).
    { apply (subseteq_take n) in Hc.
      unfold ranking, sorted_reverse in Hc.
      apply list_elem_of_In, in_map_iff in Hc as ([s c'] & <- & Hin).
      apply list_elem_of_In in Hin. rewrite sort_stable_perm in Hin.
      by apply list_elem_of_In, in_map_iff in Hin as (c'' & [= _ <-] & ?%list_elem_of_In). }
    rewrite field_app_l.
    - by apply set_scores_field.
    - rewrite set_scores_length. destruct (Ht c Hcs) as [t Hf].
      destruct (field_dict _ _ _ _ Hf) as [d Hd]. by eapply dict_at_lt. }
  eexists _, _, _, _, _, _.
  split; [by apply Hrun|]. split; [by apply Hrun|]. cbn [heap with_heap].
  split. { rewrite <- (set_scores_length (zip cs1 (map k cs1)) (heap w)). apply items_new. }
  split. { rewrite <- (set_scores_length (zip cs2 (map k cs2)) (heap w)). apply items_new. }
  split; [exact Hout|].
  rewrite (map_ext_in _ (fun c => field (heap w) c "id") (take n (ranking k cs1)))
    by (intros c Hc; apply Hid; [done|by apply list_elem_of_In]).
  rewrite (map_ext_in _ (fun c => field (heap w) c "id") (take n (ranking k cs2)))
    by (intros c Hc; apply Hid; [done|by apply list_elem_of_In]).
  by apply Permutation_map.
Qed.

(** ** [RagQueryEngine.retrieve_candidates] *)

(** The metadata of the fetched rows, or the first decoding error. *)
Fixpoint decode_all (l : list (Score * row)) : exn + list Json :=
  match l with
  | [] => inr []
  | dr :: l' =>
      match metadata_dict (row_metadata (snd dr)) with
      | inl e => inl e
      | inr md =>
          match decode_all l' with
          | inl e => inl e
          | inr mds => inr (md :: mds)
          end
      end
  end.

Definition candidate_obj (dr : Score * row) (md : Json) : obj :=
  ODict (candidate_dict (snd dr) md (fst dr)).

Lemma decode_all_length l mds : decode_all l = inr mds -> length mds = length l.
Proof.
  revert mds. induction l as [|dr l IH]; intros mds; cbn.
  - by intros [= <-].
  - destruct (metadata_dict _); [done|]. destruct (decode_all l); [done|].
    intros [= <-]. cbn. by rewrite (IH _ eq_refl).
Qed.

Lemma list_append_ok l x ls w :
  items (heap w) l = Some ls ->
  list_append l x w = Ok tt (with_heap (<[l := OList (ls ++ [x])]> (heap w)) w).
Proof.
  intros Hl. unfold list_append. by rewrite (bind_Ok _ _ _ ls w (read_list_ok l ls w Hl)).
Qed.

Lemma retrieve_loop_spec (l : list (Score * row)) w candidates acc :
  items (heap w) candidates = Some acc ->
  match decode_all l with
  | inr mds =>
      for_each (fun dr =>
                  md <- lift (metadata_dict (row_metadata (snd dr))) ;;
                  c <- alloc (ODict (candidate_dict (snd dr) md (fst dr))) ;;
                  list_append candidates c) l w
      = Ok tt (with_heap
                 (<[candidates := OList (acc ++ seq (length (heap w)) (length l))]>
                    (heap w ++ zip_with candidate_obj l mds)) w)
  | inl e =>
      exists w'',
      for_each (fun dr =>
                  md <- lift (metadata_dict (row_metadata (snd dr))) ;;
                  c <- alloc (ODict (candidate_dict (snd dr) md (fst dr))) ;;
                  list_append candidates c) l w
      = Raise e w''
  end.
Proof.
  revert w acc. induction l as [|dr l IH]; intros w acc Hacc.
  - cbn. rewrite !app_nil_r.
    assert (<[candidates := OList acc]> (heap w) = heap w) as ->.
    { apply list_insert_id. unfold items in Hacc.
      by destruct (heap w !! candidates) as [[]|]; inversion Hacc. }
    by destruct w.
  - cbn [decode_all for_each].
    destruct (metadata_dict (row_metadata (snd dr))) as [e|md] eqn:Hmd.
    { eexists. unfold bind at 1. unfold bind at 1. by cbn. }
    pose proof (items_lt _ _ _ Hacc) as Hlt.
    set (w1 := with_heap (heap w ++ [candidate_obj dr md]) w).
    set (w2 := with_heap (<[candidates := OList (acc ++ [length (heap w)])]> (heap w1)) w1).
    assert (Hstep : (md0 <- lift (inr md) ;;
                     c <- alloc (ODict (candidate_dict (snd dr) md0 (fst dr))) ;;
                     list_append candidates c) w = Ok tt w2).
    { unfold lift. rewrite (bind_Ok _ _ _ md w) by done. cbv beta.
      rewrite (bind_Ok _ _ _ (length (heap w)) w1) by done. cbv beta.
      apply list_append_ok. cbn. by rewrite items_app_l. }
    assert (Hacc2 : items (heap w2) candidates = Some (acc ++ [length (heap w)])).
    { unfold items. cbn. rewrite list_lookup_insert_eq; [done|].
      rewrite length_app. lia. }
    assert (Hlen2 : length (heap w2) = S (length (heap w))).
    { cbn. rewrite length_insert, length_app. cbn. lia. }
    specialize (IH w2 _ Hacc2).
    destruct (decode_all l) as [e|mds].
    + destruct IH as [w'' IH]. exists w''.
      by rewrite (bind_Ok _ _ _ _ _ Hstep).
    + rewrite (bind_Ok _ _ _ _ _ Hstep). cbv beta. rewrite IH. f_equal.
      rewrite Hlen2. cbn [heap with_heap w2 w1 zip_with length seq].
      rewrite <- (app_assoc acc). cbn [app].
      rewrite <- insert_app_l by (rewrite length_app; lia).
      rewrite list_insert_insert_eq. rewrite <- app_assoc. cbn [app].
      by destruct w.
Qed.

(** What [retrieve_candidates] does, in every case. *)
Lemma retrieve_candidates_spec self question w :
  let w0 := with_trace (trace w ++ [EvRetrieve question]) w in
  match encode (embed_model self) question with
  | inl e => retrieve_candidates self question w = Raise e w0
  | inr q_emb =>
      match select_nearest (conn self) q_emb (top_k_retrieve self) with
      | inl e => retrieve_candidates self question w = Raise e w0
      | inr fetched =>
          match decode_all fetched with
          | inl e => exists w'', retrieve_candidates self question w = Raise e w''
          | inr mds =>
              retrieve_candidates self question w
              = Ok (length (heap w))
                   (with_heap
                      (heap w
                       ++ OList (seq (S (length (heap w))) (length fetched))
                          :: zip_with candidate_obj fetched mds) w0)
          end
      end
  end.
Proof.
  intros w0. unfold retrieve_candidates.
  rewrite (bind_Ok _ _ _ tt w0) by done. cbv beta.
  destruct (encode (embed_model self) question) as [e|q_emb]; [done|].
  rewrite (bind_Ok _ _ _ q_emb w0) by done. cbv beta.
  destruct (select_nearest _ _ _) as [e|fetched]; [done|].
  rewrite (bind_Ok _ _ _ fetched w0) by done. cbv beta.
  set (w1 := with_heap (heap w ++ [OList []]) w0).
  rewrite (bind_Ok _ _ _ (length (heap w)) w1) by done. cbv beta.
  assert (Hacc : items (heap w1) (length (heap w)) = Some []) by apply items_new.
  pose proof (retrieve_loop_spec fetched w1 (length (heap w)) [] Hacc) as Hloop.
  destruct (decode_all fetched) as [e|mds].
  - destruct Hloop as [w'' Hloop]. exists w''. by rewrite (bind_Raise _ _ _ _ _ Hloop).
  - rewrite (bind_Ok _ _ _ _ _ Hloop). cbv beta. unfold ret. f_equal.
    cbn [heap with_heap w1 app]. rewrite length_app. cbn [length].
    rewrite Nat.add_1_r.
    rewrite <- app_assoc. cbn [app].
    rewrite insert_app_r_alt by lia. rewrite Nat.sub_diag. cbn.
    by destruct w.
Qed.

Lemma StronglySorted_indexed {A} (R : A -> A -> Prop) (l : list A) :
  (forall i j x y, (i < j)%nat -> l !! i = Some x -> l !! j = Some y -> R x y) ->
  StronglySorted R l.
Proof.
  induction l as [|a l IH]; intros H; constructor.
  - apply IH. intros i j x y Hij Hx Hy. apply (H (S i) (S j)); [lia|done|done].
  - rewrite Forall_forall. intros y Hy.
    apply list_elem_of_lookup in Hy as [j Hj].
    apply (H 0%nat (S j)); [lia|done|done].
Qed.

Lemma StronglySorted_at {A} (R : A -> A -> Prop) (l : list A) i j x y :
  StronglySorted R l -> (i < j)%nat -> l !! i = Some x -> l !! j = Some y -> R x y.
Proof.
  intros Hs. revert i j. induction Hs as [|a l Hs IH Ha]; intros i j Hij Hx Hy.
  - by rewrite lookup_nil in Hx.
  - destruct j as [|j]; [lia|]. cbn in Hy. destruct i as [|i].
    + cbn in Hx. inversion Hx; subst. rewrite Forall_forall in Ha.
      apply Ha. by eapply list_elem_of_lookup_2.
    + cbn in Hx. apply (IH i j); [lia|done|done].
Qed.

Lemma strict_weak_keyed_asc {A} :
  StrictWeak flt -> StrictWeak (fun x y : Score * A => flt (fst y) (fst x)).
Proof.
  intros [Hi Ht Hn]. split.
  - intros x. apply Hi.
  - intros x y z H1 H2. by apply (Ht _ (fst y)).
  - intros x y z H1 H2. by apply (Hn _ (fst y)).
Qed.

(** What the store query returns. *)
Lemma select_nearest_facts (Hflt : StrictWeak flt) table q k fetched :
  select_nearest table q k = inr fetched ->
  0 <= k
  /\ (length fetched <= Z.to_nat k)%nat
  /\ StronglySorted (fun x y : Score * row => flt (fst y) (fst x) = false) fetched
  /\ Forall (fun dr => exists e, snd dr ∈ table /\ row_embedding (snd dr) = Some e
                                 /\ fst dr = distance e q) fetched.
Proof.
  unfold select_nearest. destruct (Z.ltb_spec k 0); [done|]. intros [= <-].
  split; [done|]. split; [rewrite length_take; lia|].
  pose proof (strict_weak_keyed_asc (A := row) Hflt) as Hsw.
  split.
  - pose proof (sort_stable_sorted _ (omap (with_distance q) table)) as Hs.
    unfold order_by.
    rewrite <- (take_drop (Z.to_nat k) (sort_stable _ _)) in Hs.
    by apply StronglySorted_app_1_l in Hs.
  - rewrite Forall_forall. intros dr Hdr.
    apply (subseteq_take (Z.to_nat k)) in Hdr. unfold order_by in Hdr.
    rewrite sort_stable_perm in Hdr.
    apply list_elem_of_omap in Hdr as (r & Hr & Hwd).
    unfold with_distance in Hwd.
    destruct (row_embedding r) as [e|] eqn:He; [|done].
    inversion Hwd; subst. cbn. by exists e.
Qed.

(** Ascending distance between two candidate dicts. *)
Definition dist_le (h : list obj) (c1 c2 : loc) : Prop :=
  exists d1 d2, field h c1 "distance" = Some (VFloat d1)
                /\ field h c2 "distance" = Some (VFloat d2)
                /\ flt d2 d1 = false.

(** C9: whenever [retrieve_candidates] returns, the list it returns has
    at most [top_k_retrieve] items; each item was built from a row of the
    table whose embedding is not null, and carries that row's id and text
    and the distance of its embedding to the query embedding; and the
    items are in ascending order of distance.  It does return when the
    question can be embedded, the bound is not negative and the metadata
    of the fetched rows decodes. *)
Theorem C9_retrieve_bounded_nonnull_ascending
    (Hflt : StrictWeak flt) (self : RagQueryEngine) (question : text)
    (w w' : world) (r : loc) :
  retrieve_candidates self question w = Ok r w' ->
  (exists out,
      items (heap w') r = Some out
      /\ Z.of_nat (length out) <= top_k_retrieve self
      /\ Forall (fun c => exists rw e q_emb,
                    rw ∈ conn self
                    /\ row_embedding rw = Some e
                    /\ encode (embed_model self) question = inr q_emb
                    /\ field (heap w') c "id" = Some (VStr (row_id rw))
                    /\ field (heap w') c "text" = Some (opt_text (row_text rw))
                    /\ field (heap w') c "distance" = Some (VFloat (distance e q_emb)))
                out
      /\ StronglySorted (dist_le (heap w')) out)
  /\ (forall w0 q_emb fetched mds,
        encode (embed_model self) question = inr q_emb ->
        select_nearest (conn self) q_emb (top_k_retrieve self) = inr fetched ->
        decode_all fetched = inr mds ->
        exists r0 w0', retrieve_candidates self question w0 = Ok r0 w0').
Proof.
  intros Hrun. split.
  2:{ intros w0 q_emb fetched mds He Hs Hd.
      pose proof (retrieve_candidates_spec self question w0) as Hspec.
      cbv zeta in Hspec. rewrite He, Hs, Hd in Hspec. eauto. }
  pose proof (retrieve_candidates_spec self question w) as Hspec. cbv zeta in Hspec.
  destruct (encode (embed_model self) question) as [e|q_emb] eqn:He;
    [by rewrite Hspec in Hrun|].
  destruct (select_nearest _ _ _) as [e|fetched] eqn:Hsel;
    [by rewrite Hspec in Hrun|].
  destruct (decode_all fetched) as [e|mds] eqn:Hdec.
  { destruct Hspec as [w'' Hspec]. by rewrite Hspec in Hrun. }
  rewrite Hspec in Hrun. inversion Hrun; subst r w'. clear Hrun Hspec.
  destruct (select_nearest_facts Hflt _ _ _ _ Hsel) as (Hk & Hlen & Hsorted & Hrows).
  pose proof (decode_all_length _ _ Hdec) as Hmds.
  set (base := length (heap w)).
  set (out := seq (S base) (length fetched)).
  set (objs := zip_with candidate_obj fetched mds).
  cbn [heap with_heap].
  assert (Hobj : forall i c, out !! i = Some c ->
            exists dr md, fetched !! i = Some dr
                          /\ dict_at (heap w ++ OList out :: objs) c
                             = Some (candidate_dict (snd dr) md (fst dr))).
  { intros i c Hc. apply lookup_seq in Hc as [-> Hi].
    destruct (lookup_lt_is_Some_2 fetched i Hi) as [dr Hdr].
    destruct (lookup_lt_is_Some_2 mds i) as [md Hmd]; [lia|].
    exists dr, md. split; [done|]. unfold dict_at.
    rewrite lookup_app_r by (fold base; lia). fold base.
    replace (S base + i - base)%nat with (S i) by lia.
    change ((OList out :: objs) !! S i) with (objs !! i).
    unfold objs. by rewrite lookup_zip_with, Hdr, Hmd. }
  exists out. split; [|split; [|split]].
  - unfold items. by rewrite lookup_app_r, Nat.sub_diag by lia.
  - unfold out. rewrite length_seq. lia.
  - rewrite Forall_forall. intros c Hc.
    apply list_elem_of_lookup in Hc as [i Hi].
    destruct (Hobj i c Hi) as (dr & md & Hdr & Hd).
    rewrite Forall_forall in Hrows.
    destruct (Hrows dr) as (e & Hin & Hemb & Hdist);
      [by eapply list_elem_of_lookup_2|].
    exists (snd dr), e, q_emb. unfold field. rewrite Hd, <- Hdist.
    repeat split; try done.
  - apply StronglySorted_indexed. intros i j c1 c2 Hij H1 H2.
    destruct (Hobj i c1 H1) as (dr1 & md1 & Hdr1 & Hd1).
    destruct (Hobj j c2 H2) as (dr2 & md2 & Hdr2 & Hd2).
    exists (fst dr1), (fst dr2). unfold field. rewrite Hd1, Hd2.
    repeat split; try done.
    apply (StronglySorted_at _ _ i j dr1 dr2 Hsorted Hij Hdr1 Hdr2).
Qed.

(** ** [RagQueryEngine.answer]: the two early exits *)

(** C3: for a [search_query] that is empty or made of whitespace only,
    [answer] returns the empty-question message with a new empty list
    (and the empty timing dict when timing is on, [None] otherwise); no
    call is recorded, so neither [retrieve_candidates] nor [rerank] nor
    the cross-encoder nor the generator ran; the clock was not read and
    the model cache is untouched. *)
Theorem C3_blank_query_returns_sentinel_without_calls
    (self : RagQueryEngine) (search_query : text) (question : option text)
    (llm_callable : text -> loc -> M text) (measure_time : bool) (w : world) :
  forallb isspace search_query = true ->
  exists none w',
    answer self (Some search_query) question llm_callable measure_time w
    = Ok (EMPTY_QUESTION, none,
          if measure_time then Some (length (heap w)) else None) w'
    /\ items (heap w') none = Some []
    /\ (if measure_time then dict_at (heap w') (length (heap w)) = Some ∅
        else length (heap w') = S (length (heap w)))
    /\ trace w' = trace w
    /\ ticks w' = ticks w
    /\ globals w' = globals w.
Proof.
  intros Hblank. apply strip_nil_iff in Hblank.
  unfold answer.
  assert (exists q, match question with
                    | Some _ => question
                    | None => Some search_query
                    end = Some q) as [q ->].
  { destruct question; by eexists. }
  unfold answer_from. rewrite Hblank. cbn [str_falsy].
  destruct measure_time.
  - exists (S (length (heap w))). eexists. split.
    + unfold bind, alloc, ret. cbn [heap with_heap].
      rewrite length_app. cbn [length]. rewrite Nat.add_1_r. reflexivity.
    + cbn [heap with_heap trace ticks globals _embedding_model _rerank_model
           _embedding_model_name _rerank_model_name].
      repeat split.
      * replace (S (length (heap w))) with (length (heap w ++ [ODict ∅]))
          by (rewrite length_app; cbn; lia).
        apply items_new.
      * rewrite dict_at_app_l by (rewrite length_app; cbn; lia).
        unfold dict_at. by rewrite lookup_app_r, Nat.sub_diag by lia.
  - exists (length (heap w)). eexists. split.
    + unfold bind, alloc, ret. reflexivity.
    + cbn [heap with_heap trace ticks globals _embedding_model _rerank_model
           _embedding_model_name _rerank_model_name].
      repeat split.
      * apply items_new.
      * rewrite length_app. cbn. lia.
Qed.

(** Whether retrieval comes back empty does not depend on the state it
    starts from: it is decided by the encoder and the store. *)
Lemma retrieve_empty_anywhere self question w r w1 w0 :
  retrieve_candidates self question w = Ok r w1 ->
  items (heap w1) r = Some [] ->
  retrieve_candidates self question w0
  = Ok (length (heap w0))
       (with_heap (heap w0 ++ [OList []])
          (with_trace (trace w0 ++ [EvRetrieve question]) w0)).
Proof.
  intros Hrun Hempty.
  pose proof (retrieve_candidates_spec self question w) as Hspec.
  pose proof (retrieve_candidates_spec self question w0) as Hspec0.
  cbv zeta in Hspec, Hspec0.
  destruct (encode (embed_model self) question) as [e|q_emb];
    [by rewrite Hspec in Hrun|].
  destruct (select_nearest _ _ _) as [e|fetched];
    [by rewrite Hspec in Hrun|].
  destruct (decode_all fetched) as [e|mds] eqn:Hdec.
  { destruct Hspec as [w'' Hspec]. by rewrite Hspec in Hrun. }
  rewrite Hspec in Hrun. inversion Hrun; subst r w1. clear Hrun Hspec.
  cbn [heap with_heap] in Hempty. unfold items in Hempty.
  rewrite lookup_app_r, Nat.sub_diag in Hempty by lia. cbn in Hempty.
  destruct fetched as [|dr fetched]; [|by inversion Hempty].
  cbn in Hdec. inversion Hdec; subst mds. exact Hspec0.
Qed.

(** C4 (as the code has it): for a [search_query] that is not blank and
    for which [retrieve_candidates] returns an empty list, [answer]
    returns the no-candidates message with a new empty list; the only
    call recorded is the retrieval, so neither [rerank] nor the
    cross-encoder nor the generator ran. *)
Theorem C4_no_candidates_returns_sentinel_without_rerank
    (self : RagQueryEngine) (search_query : text) (question : option text)
    (llm_callable : text -> loc -> M text) (measure_time : bool)
    (w w1 : world) (r : loc) :
  str_falsy (strip search_query) = false ->
  retrieve_candidates self search_query w = Ok r w1 ->
  items (heap w1) r = Some [] ->
  exists none timing w',
    answer self (Some search_query) question llm_callable measure_time w
    = Ok (NO_CANDIDATES, none, timing) w'
    /\ items (heap w') none = Some []
    /\ trace w' = trace w ++ [EvRetrieve search_query]
    /\ globals w' = globals w.
Proof.
  intros Hstrip Hrun Hempty.
  pose proof (fun w0 => retrieve_empty_anywhere self search_query w r w1 w0 Hrun Hempty)
    as Hret.
  unfold answer.
  assert (exists q, match question with
                    | Some _ => question
                    | None => Some search_query
                    end = Some q) as [q ->].
  { destruct question; by eexists. }
  destruct measure_time.
  - set (t := length (heap w)).
    set (wa := with_heap (heap w ++ [ODict ∅]) w).
    rewrite (bind_Ok _ _ _ (Some t) wa) by done. cbv beta iota.
    unfold answer_from. rewrite Hstrip.
    set (wb := with_ticks (S (ticks w)) wa).
    rewrite (bind_Ok _ _ _ (Some (time_at (ticks w))) wb) by done. cbv beta.
    rewrite (bind_Ok _ _ _ _ _ (Hret wb)). cbv beta.
    set (wc := with_heap (heap wb ++ [OList []])
                 (with_trace (trace wb ++ [EvRetrieve search_query]) wb)).
    assert (Hlen_a : length (heap w ++ [ODict ∅]) = S t).
    { rewrite length_app. cbn. unfold t. lia. }
    set (v := VFloat (fsub (time_at (S (ticks w))) (time_at (ticks w)))).
    set (wd := with_ticks (S (S (ticks w))) wc).
    set (we := with_heap (<[t := ODict (<["retrieve_time" := v]> ∅)]> (heap wd)) wd).
    assert (He : record_elapsed (Some t) (Some (time_at (ticks w))) "retrieve_time" wc
                 = Ok tt we).
    { unfold record_elapsed. rewrite (bind_Ok _ _ _ (time_at (S (ticks w))) wd) by done.
      cbv beta. apply setitem_ok. cbn [heap wd wc wb wa with_heap with_ticks with_trace].
      rewrite dict_at_app_l by lia.
      unfold dict_at. by rewrite lookup_app_r, Nat.sub_diag by (unfold t; lia). }
    rewrite (bind_Ok _ _ _ _ _ He). cbv beta.
    assert (Hheap_e : heap we
              = <[t := ODict (<["retrieve_time" := v]> ∅)]>
                  ((heap w ++ [ODict ∅]) ++ [OList []])) by done.
    assert (Hn : len (length (heap wb)) we = Ok 0 we).
    { unfold len. rewrite (bind_Ok _ _ _ [] we); [done|].
      apply read_list_ok. rewrite Hheap_e. unfold items.
      change (heap wb) with (heap w ++ [ODict ∅]). rewrite Hlen_a.
      rewrite list_lookup_insert_ne by lia.
      by rewrite lookup_app_r, Hlen_a, Nat.sub_diag by lia. }
    rewrite (bind_Ok _ _ _ _ _ Hn). cbv beta.
    set (wf := with_heap (<[t := ODict (<["num_candidates" := VInt 0]>
                                          (<["retrieve_time" := v]> ∅))]> (heap we)) we).
    assert (Hv : record_value (Some t) "num_candidates" (VInt 0) we = Ok tt wf).
    { unfold record_value. apply setitem_ok. rewrite Hheap_e.
      rewrite dict_at_insert by (rewrite length_app, Hlen_a; lia).
      by rewrite Nat.eqb_refl. }
    rewrite (bind_Ok _ _ _ _ _ Hv). cbv beta.
    change (0 =? 0) with true. cbv iota.
    eexists _, _, _. split; [reflexivity|].
    split; [apply items_new|]. by split.
  - rewrite (bind_Ok _ _ _ None w) by done. cbv beta iota.
    unfold answer_from. rewrite Hstrip.
    rewrite (bind_Ok _ _ _ None w) by done. cbv beta.
    rewrite (bind_Ok _ _ _ _ _ (Hret w)). cbv beta.
    set (wc := with_heap (heap w ++ [OList []])
                 (with_trace (trace w ++ [EvRetrieve search_query]) w)).
    rewrite (bind_Ok _ _ _ tt wc) by done. cbv beta.
    assert (Hn : len (length (heap w)) wc = Ok 0 wc).
    { unfold len. rewrite (bind_Ok _ _ _ [] wc); [done|].
      apply read_list_ok. apply items_new. }
    rewrite (bind_Ok _ _ _ _ _ Hn). cbv beta.
    rewrite (bind_Ok _ _ _ tt wc) by done. cbv beta.
    change (0 =? 0) with true. cbv iota.
    eexists _, _, _. split; [reflexivity|].
    split; [apply items_new|]. by split.
Qed.


(** ** More on the model cache *)

(** The state a computation leaves behind, whether it returned or raised. *)
Definition final {A} (r : result A) : world :=
  match r with Ok _ w => w | Raise _ w => w end.

(** A slot and its name go together: both empty, or a handle built from
    the name that is stored beside it. *)
Definition slot_coherent (m : option handle) (n : option string) : bool :=
  match m, n with
  | Some h, Some name => String.eqb (h_name h) name
  | None, None => true
  | _, _ => false
  end.

Definition cache_coherent (w : world) : bool :=
  slot_coherent (_embedding_model w) (_embedding_model_name w)
  && slot_coherent (_rerank_model w) (_rerank_model_name w).

Lemma get_embedding_model_final name w :
  let w' := final (get_embedding_model name w) in
  _rerank_model w' = _rerank_model w
  /\ _rerank_model_name w' = _rerank_model_name w
  /\ heap w' = heap w
  /\ (slot_coherent (_embedding_model w) (_embedding_model_name w) = true ->
      slot_coherent (_embedding_model w') (_embedding_model_name w') = true).
Proof.
  cbv zeta.
  destruct (embedding_hit_or_miss name w) as [(h & Hm & Hn)|Hmiss].
  - by rewrite (get_embedding_model_hit name h w Hm Hn).
  - rewrite (get_embedding_model_miss name w Hmiss). cbv zeta.
    destruct (SentenceTransformer_ok (attempts w) name); cbn; [|done].
    by rewrite String.eqb_refl.
Qed.

Lemma get_rerank_model_final name w :
  let w' := final (get_rerank_model name w) in
  _embedding_model w' = _embedding_model w
  /\ _embedding_model_name w' = _embedding_model_name w
  /\ heap w' = heap w
  /\ (slot_coherent (_rerank_model w) (_rerank_model_name w) = true ->
      slot_coherent (_rerank_model w') (_rerank_model_name w') = true).
Proof.
  cbv zeta.
  destruct (rerank_hit_or_miss (literal_get RERANK_MODEL_ALIASES name name) w)
    as [(h & Hm & Hn)|Hmiss].
  - by rewrite (get_rerank_model_hit name h w Hm Hn).
  - rewrite (get_rerank_model_miss name w Hmiss). cbv zeta.
    destruct (CrossEncoder_ok _ _); cbn [final]; [|done].
    repeat split. intros _. cbn. by rewrite String.eqb_refl.
Qed.

(** X1: the two cache slots are independent and stay coherent.  Whatever
    its outcome, [get_embedding_model] leaves the re-rank slot and its name
    alone and [get_rerank_model] leaves the embedding slot and its name
    alone; and if each slot held either nothing or a handle built from the
    name stored beside it, this is still so after either getter (returning
    or raising) and after [clear_cache]. *)
Theorem X1_cache_slots_independent_and_coherent (ename rname : string) (w : world) :
  cache_coherent w = true ->
  (let w' := final (get_embedding_model ename w) in
   cache_coherent w' = true
   /\ _rerank_model w' = _rerank_model w
   /\ _rerank_model_name w' = _rerank_model_name w)
  /\ (let w' := final (get_rerank_model rname w) in
      cache_coherent w' = true
      /\ _embedding_model w' = _embedding_model w
      /\ _embedding_model_name w' = _embedding_model_name w)
  /\ cache_coherent (final (clear_cache w)) = true.
Proof.
  unfold cache_coherent. rewrite andb_true_iff. intros [He Hr].
  split; [|split].
  - destruct (get_embedding_model_final ename w) as (H1 & H2 & _ & H4).
    cbv zeta in *. rewrite H1, H2, Hr, (H4 He). done.
  - destruct (get_rerank_model_final rname w) as (H1 & H2 & _ & H4).
    cbv zeta in *. rewrite H1, H2, He, (H4 Hr). done.
  - reflexivity.
Qed.

(** X2: [clear_cache] empties the four globals and nothing else, and the
    next [get_embedding_model] and [get_rerank_model] construct their model
    anew, also for the name that was cached before: a construction is
    recorded and the handle returned is none of the handles cached before
    the clearing. *)
Theorem X2_clear_cache_forces_reload (ename rname : string) (w : world) :
  handles_known w = true ->
  SentenceTransformer_ok (attempts w) ename = true ->
  CrossEncoder_ok (attempts w) (literal_get RERANK_MODEL_ALIASES rname rname) = true ->
  exists w0,
    clear_cache w = Ok tt w0
    /\ globals w0 = (None, None, None, None)
    /\ heap w0 = heap w /\ trace w0 = trace w /\ attempts w0 = attempts w
    /\ (exists h w1,
          get_embedding_model ename w0 = Ok (Some h) w1
          /\ trace w1 = trace w ++ [EvLoadEmbedding ename]
          /\ Some h <> _embedding_model w /\ Some h <> _rerank_model w)
    /\ (exists h w1,
          get_rerank_model rname w0 = Ok (Some h) w1
          /\ trace w1 = trace w
               ++ [EvLoadRerank (literal_get RERANK_MODEL_ALIASES rname rname)]
          /\ Some h <> _embedding_model w /\ Some h <> _rerank_model w).
Proof.
  intros Hk Hoke Hokr. eexists. split; [reflexivity|].
  split; [done|]. split; [done|]. split; [done|]. split; [done|].
  unfold handles_known in Hk. apply andb_true_iff in Hk as [Hke Hkr].
  assert (Hfresh : forall name, Some {| h_name := name; h_oid := attempts w |}
                                <> _embedding_model w
                                /\ Some {| h_name := name; h_oid := attempts w |}
                                   <> _rerank_model w).
  { intros name. split; intros Heq.
    - rewrite <- Heq in Hke. cbn in Hke. apply Nat.ltb_lt in Hke. lia.
    - rewrite <- Heq in Hkr. cbn in Hkr. apply Nat.ltb_lt in Hkr. lia. }
  split.
  - rewrite get_embedding_model_miss by (by left). cbn. rewrite Hoke.
    eexists _, _. split; [reflexivity|]. split; [done|]. apply Hfresh.
  - rewrite get_rerank_model_miss by (by left). cbv zeta.
    cbn [attempts with_rerank_model with_rerank_model_name with_embedding_model
         with_embedding_model_name]. rewrite Hokr.
    eexists _, _. split; [reflexivity|]. split; [done|]. apply Hfresh.
Qed.

(** The names for which a sequence of requests has to construct a model:
    a request constructs unless it repeats the name of the request before
    it ([prev] is the name cached at the start, if any). *)
Fixpoint name_changes (prev : option string) (names : list string) : list string :=
  match names with
  | [] => []
  | x :: names' =>
      if bool_decide (prev = Some x) then name_changes prev names'
      else x :: name_changes (Some x) names'
  end.

(** X3: over any sequence of [get_embedding_model] requests whose models
    all load, a model is constructed exactly when the requested name
    differs from the one requested just before (or from the cached one, for
    the first request): the cache holds one model, so alternating between
    two names constructs every time, and repeating a name never does. *)
Theorem X3_embedding_loads_follow_name_changes (names : list string) (w : world) :
  (forall n name, name ∈ names -> SentenceTransformer_ok n name = true) ->
  slot_coherent (_embedding_model w) (_embedding_model_name w) = true ->
  exists hs w',
    map_m get_embedding_model names w = Ok hs w'
    /\ length hs = length names
    /\ trace w' = trace w
         ++ map EvLoadEmbedding (name_changes (_embedding_model_name w) names).
Proof.
  revert w. induction names as [|x names IH]; intros w Hok Hco.
  - exists [], w. cbn. by rewrite app_nil_r.
  - cbn [map_m name_changes].
    destruct (embedding_hit_or_miss x w) as [(h & Hm & Hn)|Hmiss].
    + rewrite (bind_Ok _ _ _ _ _ (get_embedding_model_hit x h w Hm Hn)). cbv beta.
      destruct (IH w) as (hs & w' & Hrun & Hlen & Htr);
        [intros n name Hin; apply Hok; by right|done|].
      rewrite (bind_Ok _ _ _ _ _ Hrun). cbv beta.
      exists (Some h :: hs), w'. split; [done|]. split; [cbn; lia|].
      rewrite bool_decide_eq_true_2 by done. done.
    + pose proof (get_embedding_model_miss x w Hmiss) as Hrun1. cbv zeta in Hrun1.
      rewrite Hok in Hrun1 by (by left).
      rewrite (bind_Ok _ _ _ _ _ Hrun1). cbv beta.
      set (w1 := with_embedding_model_name _ _) in *.
      destruct (IH w1) as (hs & w' & Hrun & Hlen & Htr);
        [intros n name Hin; apply Hok; by right|cbn; by rewrite String.eqb_refl|].
      rewrite (bind_Ok _ _ _ _ _ Hrun). cbv beta.
      eexists _, w'. split; [reflexivity|]. split; [cbn; lia|].
      rewrite Htr. cbn [trace w1 with_embedding_model_name with_embedding_model
                          with_attempts with_trace _embedding_model_name].
      rewrite bool_decide_eq_false_2.
      * cbn [map]. by rewrite <- app_assoc.
      * destruct Hmiss as [Hnone|Hne]; [|done].
        unfold slot_coherent in Hco. rewrite Hnone in Hco.
        by destruct (_embedding_model_name w).
Qed.


(** ** Re-ranking: edge cases and what is left untouched *)

Lemma rerank_empty_run self question candidates w :
  items (heap w) candidates = Some [] ->
  rerank self question candidates w
  = Ok (length (heap w))
       (with_heap (heap w ++ [OList []])
          (with_trace (trace w ++ [EvRerank question candidates]) w)).
Proof.
  intros Hitems. unfold rerank.
  rewrite (bind_Ok _ _ _ tt (with_trace (trace w ++ [EvRerank question candidates]) w))
    by done.
  cbv beta.
  by rewrite (bind_Ok _ _ _ [] _
                (read_list_ok candidates []
                   (with_trace (trace w ++ [EvRerank question candidates]) w) Hitems)).
Qed.

(** X4: on an empty candidate list both re-rankers return a new empty list
    and nothing else happens: [rerank] only records its own call (no
    cross-encoder call, no object changed), and [rerank_chunks] returns
    before resolving or loading any model, so it succeeds even for a model
    name that cannot be loaded. *)
Theorem X4_rerank_empty_input
    (self : RagQueryEngine) (question : text) (candidates : loc) (top_n : Z)
    (model_name : option string) (w : world) :
  items (heap w) candidates = Some [] ->
  rerank self question candidates w
  = Ok (length (heap w))
       (with_heap (heap w ++ [OList []])
          (with_trace (trace w ++ [EvRerank question candidates]) w))
  /\ rerank_chunks question candidates top_n model_name w
     = Ok (length (heap w)) (with_heap (heap w ++ [OList []]) w).
Proof.
  intros Hitems. split.
  - by apply rerank_empty_run.
  - unfold rerank_chunks.
    by rewrite (bind_Ok _ _ _ [] _ (read_list_ok candidates [] w Hitems)).
Qed.

Lemma map_m_raise {A B} (f : A -> M B) (l : list A) (e : exn) w :
  (forall x, x ∈ l -> (exists y, f x w = Ok y w) \/ f x w = Raise e w) ->
  (exists x, x ∈ l /\ f x w = Raise e w) ->
  map_m f l w = Raise e w.
Proof.
  induction l as [|x l IH]; intros Hall [x0 [Hin Hx0]].
  - by apply elem_of_nil in Hin.
  - cbn [map_m]. destruct (Hall x) as [[y Hy]|Hr]; [by left| |].
    + rewrite (bind_Ok _ _ _ _ _ Hy). cbv beta.
      apply bind_Raise. apply IH.
      * intros z Hz. apply Hall. by right.
      * apply elem_of_cons in Hin as [->|Hin]; [congruence|]. by exists x0.
    + by apply bind_Raise.
Qed.

(** X5: when every candidate is a dict but one of them has no "text" key,
    [RagQueryEngine.rerank] raises [KeyError("text")] while it builds the
    pairs: the cross-encoder is not called and no score is written, the
    store is as it was. *)
Theorem X5_rerank_missing_text_raises_key_error
    (self : RagQueryEngine) (question : text) (candidates : loc)
    (w : world) (cs : list loc) :
  items (heap w) candidates = Some cs ->
  forallb (is_dict (heap w)) cs = true ->
  forallb (has_text (heap w)) cs = false ->
  rerank self question candidates w
  = Raise (KeyError "text")
          (with_trace (trace w ++ [EvRerank question candidates]) w).
Proof.
  intros Hitems Hdict Htext.
  pose proof (is_dict_all _ _ Hdict) as Hd.
  set (w0 := with_trace (trace w ++ [EvRerank question candidates]) w).
  unfold rerank. rewrite (bind_Ok _ _ _ tt w0) by done. cbv beta.
  rewrite (bind_Ok _ _ _ cs _ (read_list_ok candidates cs w0 Hitems)).
  destruct cs as [|c0 cs']; [done|]. cbv beta iota.
  set (cs := c0 :: cs') in *.
  apply bind_Raise. apply map_m_raise.
  - intros c Hc. destruct (Hd c Hc) as [d Hdc].
    destruct (d !! "text") as [t|] eqn:Ht.
    + left. exists (question, t).
      assert (Hf : field (heap w0) c "text" = Some t).
      { unfold field. cbn [heap w0 with_trace]. by rewrite Hdc. }
      by rewrite (bind_Ok _ _ _ t _ (getitem_ok c "text" t w0 Hf)).
    + right. apply bind_Raise. by apply (getitem_missing c "text" d w0).
  - assert (exists c, c ∈ cs /\ has_text (heap w) c = false) as (c & Hc & Hno).
    { clear -Htext. induction cs as [|c cs IH]; [done|]. cbn in Htext.
      destruct (has_text (heap w) c) eqn:E.
      - destruct (IH Htext) as (c' & Hin & Hc'). exists c'. split; [by right|done].
      - exists c. split; [by left|done]. }
    exists c. split; [done|]. destruct (Hd c Hc) as [d Hdc].
    apply bind_Raise. apply (getitem_missing c "text" d w0); [done|].
    unfold has_text, field in Hno. rewrite Hdc in Hno. by destruct (d !! "text").
Qed.

Lemma slice_to_negative {A} (n : Z) (l : list A) :
  n < 0 -> slice_to n l = take (length l - Z.to_nat (- n)) l.
Proof.
  intros Hn. unfold slice_to. by destruct (Z.leb_spec 0 n); [lia|].
Qed.

(** X6: with a bound that is not positive (and scores that are never NaN)
    [RagQueryEngine.rerank] still scores every candidate and ranks them
    all: [full] is the whole list in descending order of score, ties in
    input order, and is what the call returns when the bound is at least
    the number of candidates.  For a bound of 0 the call returns an empty
    list; for a negative bound the slice [[:top_n]] counts from the end,
    so it returns [full] without its last [-top_n] items (all but the
    lowest-ranked one for -1). *)
Theorem X6_rerank_nonpositive_bound_drops_from_the_end
    (Hflt : StrictWeak flt)
    (self : RagQueryEngine) (question : text) (candidates : loc)
    (w : world) (cs : list loc) (scores : list Score) :
  items (heap w) candidates = Some cs ->
  cs <> [] ->
  forallb (has_text (heap w)) cs = true ->
  predict (rerank_model self) (pairs_of (heap w) question cs) = inr scores ->
  length scores = length cs ->
  top_n_rerank self <= 0 ->
  exists r w' out full,
    rerank self question candidates w = Ok r w'
    /\ items (heap w') r = Some out
    /\ (forall c, c ∈ cs -> is_Some (score_of (heap w') c))
    /\ full ≡ₚ cs
    /\ StronglySorted (score_ge (heap w')) full
    /\ (forall s, List.filter (ties (heap w') s) full
                  = List.filter (ties (heap w') s) cs)
    /\ out = (if top_n_rerank self =? 0 then []
              else take (length cs - Z.to_nat (- top_n_rerank self)) full)
    /\ (forall self',
          rerank_model self' = rerank_model self ->
          Z.of_nat (length cs) <= top_n_rerank self' ->
          exists r2 w2,
            rerank self' question candidates w = Ok r2 w2
            /\ items (heap w2) r2 = Some full
            /\ forall c, c ∈ cs -> score_of (heap w2) c = score_of (heap w') c).
Proof.
  intros Hitems Hne Htext Hpred Hlen Hn.
  pose proof (has_text_all _ _ Htext) as Htext'.
  assert (Hdict : forall c, c ∈ cs -> is_Some (dict_at (heap w) c)).
  { intros c Hc. destruct (Htext' c Hc) as [t Ht]. by eapply field_dict. }
  destruct (rerank_run self question candidates w cs scores Hitems Hne Htext' Hpred)
    as (k & Hk & Hrun); [lia|].
  set (hs := set_scores (zip cs scores) (heap w)) in *.
  set (out := slice_to (top_n_rerank self) (ranking k cs)) in *.
  assert (Hlt : forall c, c ∈ cs -> (c < length hs)%nat).
  { intros c Hc. unfold hs. rewrite set_scores_length.
    destruct (Hdict c Hc) as [d Hd]. by eapply dict_at_lt. }
  assert (Hk' : forall l c, c ∈ cs -> score_of (hs ++ l) c = Some (k c)).
  { intros l c Hc. rewrite score_of_app_l by (by apply Hlt).
    apply set_scores_score_of; [by apply Hdict|by apply Hk]. }
  eexists (length (heap w)), _, out, (ranking k cs).
  split; [exact Hrun|]. cbn [heap with_heap].
  split. { rewrite <- (set_scores_length (zip cs scores) (heap w)). apply items_new. }
  split. { intros c Hc. exists (k c). by apply Hk'. }
  split; [apply ranking_perm|].
  split; [by apply (ranking_sorted Hflt _ k cs (Hk' _))|].
  split; [by apply (ranking_stable Hflt _ k cs (Hk' _))|].
  split.
  { unfold out. destruct (Z.eqb_spec (top_n_rerank self) 0) as [H0|H0].
    - by rewrite H0.
    - rewrite slice_to_negative by lia. by rewrite ranking_length. }
  intros self' Hm Hbig.
  destruct (rerank_run self' question candidates w cs scores Hitems Hne Htext')
    as (k' & Hk2 & Hrun'); [by rewrite Hm|lia|].
  assert (Hkk : forall c, c ∈ cs -> k' c = k c).
  { intros c Hc. pose proof (Hk c Hc) as H1. rewrite (Hk2 c Hc) in H1. by inversion H1. }
  eexists _, _. split; [exact Hrun'|]. cbn [heap with_heap]. fold hs.
  split.
  { rewrite <- (set_scores_length (zip cs scores) (heap w)). fold hs.
    rewrite items_new. f_equal. rewrite (ranking_ext k' k cs Hkk).
    unfold slice_to. destruct (Z.leb_spec 0 (top_n_rerank self')); [|lia].
    apply take_ge. rewrite ranking_length. lia. }
  intros c Hc. by rewrite !Hk'.
Qed.

Lemma subseteq_take_slice {A} (n : Z) (l : list A) x : x ∈ slice_to n l -> x ∈ l.
Proof.
  intros Hx. destruct (slice_to_prefix n l) as [r Hr]. rewrite Hr.
  apply elem_of_app. by left.
Qed.

(** X7: [rerank_chunks] works on copies.  Every object that existed before
    the call is unchanged after it (the input chunks get no "rerank_score"),
    and every returned item is a dict created by the call that holds the
    score under "rerank_score" and, under every other key, exactly what
    some input chunk holds under it (metadata and all other fields pass
    through). *)
Theorem X7_rerank_chunks_leaves_input_untouched
    (question : text) (chunks : loc) (top_n : Z) (model_name : option string)
    (w w1 : world) (cs : list loc) (m : handle) (scores : list Score) :
  items (heap w) chunks = Some cs ->
  cs <> [] ->
  forallb (is_dict (heap w)) cs = true ->
  (let name := default DEFAULT_RERANK_MODEL model_name in
   get_rerank_model (literal_get RERANK_MODELS name name) w = Ok (Some m) w1) ->
  predict m (pairs_get (heap w) question cs) = inr scores ->
  length scores = length cs ->
  exists r w' out,
    rerank_chunks question chunks top_n model_name w = Ok r w'
    /\ items (heap w') r = Some out
    /\ (forall i, (i < length (heap w))%nat -> heap w' !! i = heap w !! i)
    /\ (forall o, o ∈ out ->
          (length (heap w) <= o)%nat
          /\ exists c d s, c ∈ cs /\ dict_at (heap w) c = Some d
                           /\ dict_at (heap w') o
                              = Some (<["rerank_score" := VFloat s]> d)).
Proof.
  intros Hitems Hne Hdict Hload Hpred Hlen.
  pose proof (is_dict_all _ _ Hdict) as Hd.
  destruct (rerank_chunks_run question chunks top_n model_name w cs m w1 scores
              Hitems Hne Hd Hload Hpred) as (k & Hk & Hrun); [lia|].
  set (base := length (heap w)) in *.
  set (hc := heap w ++ map (copy_with_score (heap w)) (zip cs scores)) in *.
  set (copies := seq base (length cs)) in *.
  assert (Hzl : length (zip cs scores) = length cs).
  { rewrite length_zip_with. lia. }
  assert (Hhc : length hc = (base + length cs)%nat).
  { unfold hc. by rewrite length_app, length_map, Hzl. }
  eexists _, _, _. split; [exact Hrun|]. cbn [heap with_heap].
  split. { fold hc. rewrite <- Hhc. apply items_new. }
  split.
  - intros i Hi. rewrite lookup_app_l by (rewrite Hhc; lia).
    unfold hc. by rewrite lookup_app_l.
  - intros o Ho.
    assert (Hoc : o ∈ copies).
    { apply (subseteq_take_slice top_n) in Ho.
      unfold ranking, sorted_reverse in Ho.
      apply list_elem_of_In, in_map_iff in Ho as ([s o'] & <- & Hin).
      apply list_elem_of_In in Hin. rewrite sort_stable_perm in Hin.
      by apply list_elem_of_In, in_map_iff in Hin
        as (o'' & [= _ <-] & ?%list_elem_of_In). }
    apply elem_of_seq in Hoc as [Hge Hlt]. split; [lia|].
    destruct (lookup_lt_is_Some_2 (zip cs scores) (o - base)%nat) as [[c s] Hcs];
      [lia|].
    pose proof Hcs as Hcs'.
    apply lookup_zip_with_Some in Hcs' as (c' & s' & [= <- <-] & Hc & Hs).
    assert (Hcin : c ∈ cs) by (by eapply list_elem_of_lookup_2).
    destruct (Hd c Hcin) as [d Hdc].
    exists c, d, s. split; [done|]. split; [done|].
    rewrite dict_at_app_l by (rewrite Hhc; lia).
    replace o with (base + (o - base))%nat at 1 by lia.
    unfold dict_at, hc. unfold base in Hcs |- *. rewrite copies_lookup, Hcs. cbn.
    by rewrite Hdc.
Qed.


(** ** Retrieval: the records it builds *)

Lemma retrieve_ok_inv self question w r w1 :
  retrieve_candidates self question w = Ok r w1 ->
  exists q_emb fetched mds,
    encode (embed_model self) question = inr q_emb
    /\ select_nearest (conn self) q_emb (top_k_retrieve self) = inr fetched
    /\ decode_all fetched = inr mds
    /\ r = length (heap w)
    /\ w1 = with_heap
              (heap w ++ OList (seq (S (length (heap w))) (length fetched))
                         :: zip_with candidate_obj fetched mds)
              (with_trace (trace w ++ [EvRetrieve question]) w).
Proof.
  intros Hrun.
  pose proof (retrieve_candidates_spec self question w) as Hspec. cbv zeta in Hspec.
  destruct (encode (embed_model self) question) as [e|q_emb] eqn:Henc;
    [by rewrite Hspec in Hrun|].
  destruct (select_nearest _ _ _) as [e|fetched] eqn:Hsel;
    [by rewrite Hspec in Hrun|].
  destruct (decode_all fetched) as [e|mds] eqn:Hdec.
  { destruct Hspec as [w'' Hspec]. by rewrite Hspec in Hrun. }
  rewrite Hspec in Hrun. inversion Hrun; subst r w1.
  by exists q_emb, fetched, mds.
Qed.

(** The store after a retrieval: the list at [base], then one dict per
    fetched row. *)
Lemma retrieved_dict_at (h : list obj) (fetched : list (Score * row)) (mds : list Json)
    (out : list loc) i dr md :
  fetched !! i = Some dr -> mds !! i = Some md ->
  dict_at (h ++ OList out :: zip_with candidate_obj fetched mds) (S (length h) + i)
  = Some (candidate_dict (snd dr) md (fst dr)).
Proof.
  intros Hdr Hmd. unfold dict_at.
  rewrite lookup_app_r by lia.
  replace (S (length h) + i - length h)%nat with (S i) by lia.
  change ((OList out :: zip_with candidate_obj fetched mds) !! S i)
    with (zip_with candidate_obj fetched mds !! i).
  by rewrite lookup_zip_with, Hdr, Hmd.
Qed.

Lemma source_or_unknown_nonempty source : source_or_unknown source <> [].
Proof.
  unfold source_or_unknown. destruct source as [[|c s]|]; done.
Qed.

(** X8: every record returned by [retrieve_candidates] is a dict with
    exactly the keys id, text, metadata, source, chunk_index, order and
    distance; its source is a non-empty string ("unknown" stands in for a
    missing or empty one), its order is an integer (0 for a missing one)
    and chunk_index holds the same integer, and its distance is a float. *)
Theorem X8_retrieved_records_are_normalised
    (self : RagQueryEngine) (question : text) (w w1 : world) (r : loc) :
  retrieve_candidates self question w = Ok r w1 ->
  exists out,
    items (heap w1) r = Some out
    /\ Forall (fun c => exists d,
                 dict_at (heap w1) c = Some d
                 /\ dom d = {[ "id"; "text"; "metadata"; "source"; "chunk_index";
                               "order"; "distance" ]}%string
                 /\ (exists s, d !! "source" = Some (VStr s) /\ s <> [])
                 /\ (exists n, d !! "order" = Some (VInt n)
                               /\ d !! "chunk_index" = Some (VInt n))
                 /\ (exists x, d !! "distance" = Some (VFloat x))
                 /\ (exists i, d !! "id" = Some (VStr i))) out.
Proof.
  intros Hrun.
  destruct (retrieve_ok_inv _ _ _ _ _ Hrun)
    as (q_emb & fetched & mds & _ & _ & Hdec & -> & ->).
  pose proof (decode_all_length _ _ Hdec) as Hmds.
  eexists. cbn [heap with_heap]. split.
  { unfold items. by rewrite lookup_app_r, Nat.sub_diag by lia. }
  rewrite Forall_forall. intros c Hc.
  apply elem_of_seq in Hc as [Hge Hlt].
  destruct (lookup_lt_is_Some_2 fetched (c - S (length (heap w)))%nat) as [dr Hdr];
    [lia|].
  destruct (lookup_lt_is_Some_2 mds (c - S (length (heap w)))%nat) as [md Hmd];
    [lia|].
  exists (candidate_dict (snd dr) md (fst dr)). split.
  { replace c with (S (length (heap w)) + (c - S (length (heap w))))%nat at 1 by lia.
    by apply retrieved_dict_at. }
  unfold candidate_dict. split.
  { rewrite !dom_insert_L, dom_empty_L. set_solver. }
  split. { exists (source_or_unknown (row_source (snd dr))).
           split; [by simplify_map_eq|apply source_or_unknown_nonempty]. }
  split. { exists (order_or_0 (row_order (snd dr))). by simplify_map_eq. }
  split. { exists (fst dr). by simplify_map_eq. }
  exists (row_id (snd dr)). by simplify_map_eq.
Qed.

(** X9: [retrieve_candidates] only adds to the store.  Every object that
    existed before the call is unchanged; the returned list and the dicts
    in it are objects created by the call, the dicts pairwise distinct;
    the model cache and the clock are not touched and the only call
    recorded is the retrieval itself. *)
Theorem X9_retrieve_only_allocates
    (self : RagQueryEngine) (question : text) (w w1 : world) (r : loc) :
  retrieve_candidates self question w = Ok r w1 ->
  exists out,
    items (heap w1) r = Some out
    /\ (forall i, (i < length (heap w))%nat -> heap w1 !! i = heap w !! i)
    /\ heap w !! r = None
    /\ NoDup out
    /\ (forall c, c ∈ out -> heap w !! c = None /\ c <> r)
    /\ globals w1 = globals w
    /\ ticks w1 = ticks w
    /\ trace w1 = trace w ++ [EvRetrieve question].
Proof.
  intros Hrun.
  destruct (retrieve_ok_inv _ _ _ _ _ Hrun)
    as (q_emb & fetched & mds & _ & _ & Hdec & -> & ->).
  eexists. cbn [heap with_heap]. split.
  { unfold items. by rewrite lookup_app_r, Nat.sub_diag by lia. }
  split. { intros i Hi. by rewrite lookup_app_l. }
  split. { by apply lookup_ge_None. }
  split. { apply NoDup_seq. }
  split; [|done].
  intros c Hc. apply elem_of_seq in Hc as [Hge Hlt].
  split; [apply lookup_ge_None; lia|lia].
Qed.

Lemma omap_with_distance_length q (table : list row) :
  length (omap (with_distance q) table) = length (omap row_embedding table).
Proof.
  induction table as [|rw table IH]; [done|].
  cbn. unfold with_distance at 1. destruct (row_embedding rw); cbn; by rewrite ?IH.
Qed.

(** The second half of [retrieve_candidates]: [candidates = []] and the
    loop [for row in cursor.fetchall()] over the rows the query returned,
    whichever they are, each row given with its [distance] column. *)
Definition candidates_of_rows (fetched : list (Score * row)) : M loc :=
  candidates <- alloc (OList []) ;;
  for_each (fun dr =>
              md <- lift (metadata_dict (row_metadata (snd dr))) ;;
              c <- alloc (ODict (candidate_dict (snd dr) md (fst dr))) ;;
              list_append candidates c)
           fetched ;;
  ret candidates.

Lemma retrieve_candidates_rows self question :
  retrieve_candidates self question
  = (emit (EvRetrieve question) ;;
     q_emb <- lift (encode (embed_model self) question) ;;
     fetched <- lift (select_nearest (conn self) q_emb (top_k_retrieve self)) ;;
     candidates_of_rows fetched).
Proof. reflexivity. Qed.

Lemma candidates_of_rows_spec fetched w :
  match decode_all fetched with
  | inl e => exists w'', candidates_of_rows fetched w = Raise e w''
  | inr mds =>
      candidates_of_rows fetched w
      = Ok (length (heap w))
           (with_heap
              (heap w ++ OList (seq (S (length (heap w))) (length fetched))
                         :: zip_with candidate_obj fetched mds) w)
  end.
Proof.
  unfold candidates_of_rows.
  set (w1 := with_heap (heap w ++ [OList []]) w).
  rewrite (bind_Ok _ _ _ (length (heap w)) w1) by done. cbv beta.
  assert (Hacc : items (heap w1) (length (heap w)) = Some []) by apply items_new.
  pose proof (retrieve_loop_spec fetched w1 (length (heap w)) [] Hacc) as Hloop.
  destruct (decode_all fetched) as [e|mds].
  - destruct Hloop as [w'' Hloop]. exists w''. by rewrite (bind_Raise _ _ _ _ _ Hloop).
  - rewrite (bind_Ok _ _ _ _ _ Hloop). cbv beta. unfold ret. f_equal.
    cbn [heap with_heap w1 app]. rewrite length_app. cbn [length].
    rewrite Nat.add_1_r.
    rewrite <- app_assoc. cbn [app].
    rewrite insert_app_r_alt by lia. rewrite Nat.sub_diag. cbn.
    by destruct w.
Qed.

Lemma decode_all_ok (fetched : list (Score * row)) :
  (forall dr, dr ∈ fetched -> exists md, metadata_dict (row_metadata (snd dr)) = inr md) ->
  exists mds, decode_all fetched = inr mds.
Proof.
  induction fetched as [|dr l IH]; intros Hall; [by eexists|].
  destruct (Hall dr) as [md Hmd]; [by left|].
  destruct IH as [mds Hmds]; [intros dr' Hdr'; apply Hall; by right|].
  exists (md :: mds). cbn [decode_all]. by rewrite Hmd, Hmds.
Qed.

(** X10: [retrieve_candidates] keeps every row it is given.  Whatever
    rows the query returns, and in whatever order, if the metadata of each
    can be decoded then the loop builds one record per row, in the order of
    the rows: the records are pairwise distinct dicts created by the call,
    the [i]-th one holding the id, the text and the distance of the [i]-th
    row.  No row is dropped, repeated or moved. *)
Theorem X10_retrieve_keeps_every_fetched_row
    (fetched : list (Score * row)) (w : world) :
  (forall dr, dr ∈ fetched ->
              exists md, metadata_dict (row_metadata (snd dr)) = inr md) ->
  exists r w' out,
    candidates_of_rows fetched w = Ok r w'
    /\ items (heap w') r = Some out
    /\ length out = length fetched
    /\ NoDup out
    /\ (forall c, c ∈ out -> heap w !! c = None)
    /\ Forall2 (fun c dr =>
                  field (heap w') c "id" = Some (VStr (row_id (snd dr)))
                  /\ field (heap w') c "text" = Some (opt_text (row_text (snd dr)))
                  /\ field (heap w') c "distance" = Some (VFloat (fst dr)))
               out fetched.
Proof.
  intros Hall. destruct (decode_all_ok fetched Hall) as [mds Hdec].
  pose proof (candidates_of_rows_spec fetched w) as Hrun. rewrite Hdec in Hrun.
  pose proof (decode_all_length _ _ Hdec) as Hmds.
  eexists _, _, _. split; [exact Hrun|]. cbn [heap with_heap].
  split. { unfold items. by rewrite lookup_app_r, Nat.sub_diag by lia. }
  split; [apply length_seq|].
  split; [apply NoDup_seq|].
  split. { intros c [Hge _]%elem_of_seq. apply lookup_ge_None. lia. }
  apply Forall2_same_length_lookup. split; [by rewrite length_seq|].
  intros i c dr Hc Hdr. apply lookup_seq in Hc as [-> Hi].
  destruct (lookup_lt_is_Some_2 mds i) as [md Hmd]; [lia|].
  unfold field. rewrite (retrieved_dict_at _ _ _ _ _ _ _ Hdr Hmd).
  unfold candidate_dict. by simplify_map_eq.
Qed.

(** X11: the records of [retrieve_candidates] are always fit for
    [RagQueryEngine.rerank]: each holds a "text" key, so no [KeyError] can
    arise.  With a cross-encoder that returns one score per pair and a
    bound that is not negative, re-ranking the list just retrieved returns
    [min(top_n_rerank, number of records)] of these records. *)
Theorem X11_rerank_accepts_what_retrieve_returns
    (self : RagQueryEngine) (question question' : text) (w w1 : world) (r : loc) :
  retrieve_candidates self question w = Ok r w1 ->
  (forall ps, exists ss, predict (rerank_model self) ps = inr ss
                         /\ length ss = length ps) ->
  0 <= top_n_rerank self ->
  exists cands r' w2 out,
    items (heap w1) r = Some cands
    /\ rerank self question' r w1 = Ok r' w2
    /\ items (heap w2) r' = Some out
    /\ length out = Nat.min (Z.to_nat (top_n_rerank self)) (length cands)
    /\ (forall c, c ∈ out -> c ∈ cands).
Proof.
  intros Hrun Hpred Hn.
  destruct (retrieve_ok_inv _ _ _ _ _ Hrun)
    as (q_emb & fetched & mds & _ & _ & Hdec & -> & Hw1).
  pose proof (decode_all_length _ _ Hdec) as Hmds.
  set (base := length (heap w)) in *.
  set (cands := seq (S base) (length fetched)) in *.
  assert (Hitems : items (heap w1) base = Some cands).
  { rewrite Hw1. cbn [heap with_heap]. unfold items.
    by rewrite lookup_app_r, Nat.sub_diag by lia. }
  exists cands.
  destruct (decide (cands = [])) as [Hnil|Hne].
  - rewrite Hnil in Hitems |- *.
    pose proof (rerank_empty_run self question' base w1 Hitems) as Hr.
    eexists _, _, []. split; [done|]. split; [exact Hr|].
    cbn [heap with_heap]. split; [apply items_new|].
    split; [by rewrite Nat.min_0_r|]. intros c Hc. by apply elem_of_nil in Hc.
  - assert (Htext : forall c, c ∈ cands -> is_Some (field (heap w1) c "text")).
    { intros c Hc. apply elem_of_seq in Hc as [Hge Hlt].
      destruct (lookup_lt_is_Some_2 fetched (c - S base)%nat) as [dr Hdr]; [lia|].
      destruct (lookup_lt_is_Some_2 mds (c - S base)%nat) as [md Hmd]; [lia|].
      rewrite Hw1. cbn [heap with_heap]. unfold field.
      replace c with (S base + (c - S base))%nat by lia. unfold base.
      rewrite (retrieved_dict_at _ _ _ _ _ _ _ Hdr Hmd).
      unfold candidate_dict. by simplify_map_eq. }
    destruct (Hpred (pairs_of (heap w1) question' cands)) as (ss & Hss & Hlen).
    destruct (rerank_run self question' base w1 cands ss Hitems Hne Htext Hss)
      as (k & Hk & Hrr).
    { rewrite Hlen. unfold pairs_of. by rewrite length_map. }
    eexists _, _, _. split; [done|]. split; [exact Hrr|]. cbn [heap with_heap].
    split. { rewrite <- (set_scores_length (zip cands ss) (heap w1)). apply items_new. }
    split.
    + rewrite slice_to_length by done. unfold ranking, sorted_reverse.
      rewrite length_map, (Permutation_length (sort_stable_perm _ _)).
      by rewrite length_map.
    + intros c Hc. apply subseteq_take_slice in Hc.
      unfold ranking, sorted_reverse in Hc.
      apply list_elem_of_In, in_map_iff in Hc as ([s c'] & <- & Hin).
      apply list_elem_of_In in Hin. rewrite sort_stable_perm in Hin.
      by apply list_elem_of_In, in_map_iff in Hin
        as (c'' & [= _ <-] & ?%list_elem_of_In).
Qed.


(** ** [RagQueryEngine.answer]: outcomes *)

Lemma bind_inv_Ok {A B} (c : M A) (k : A -> M B) w b w' :
  bind c k w = Ok b w' -> exists a w1, c w = Ok a w1 /\ k a w1 = Ok b w'.
Proof.
  unfold bind. destruct (c w) as [a w1|e w1]; [|done]. intros H. by exists a, w1.
Qed.

(** A step that records no call and leaves the cache and every list of
    the store as they are. *)
Definition quiet (w w' : world) : Prop :=
  trace w' = trace w /\ globals w' = globals w /\ attempts w' = attempts w
  /\ forall l, items (heap w') l = items (heap w) l.

Lemma quiet_refl w : quiet w w.
Proof. by repeat split. Qed.

Lemma quiet_trans w1 w2 w3 : quiet w1 w2 -> quiet w2 w3 -> quiet w1 w3.
Proof.
  intros (T1 & G1 & A1 & I1) (T2 & G2 & A2 & I2).
  split; [congruence|]. split; [congruence|]. split; [congruence|].
  intros l. by rewrite I2, I1.
Qed.

Lemma read_dict_inv c w d w' : read_dict c w = Ok d w' -> w' = w /\ dict_at (heap w) c = Some d.
Proof.
  unfold read_dict, dict_at. destruct (heap w !! c) as [[d0|l0]|]; try done.
  by intros [= <- <-].
Qed.

Lemma read_list_inv l w ls w' : read_list l w = Ok ls w' -> w' = w /\ items (heap w) l = Some ls.
Proof.
  unfold read_list, items. destruct (heap w !! l) as [[d0|l0]|]; try done.
  by intros [= <- <-].
Qed.

Lemma getitem_inv c k w v w' : getitem c k w = Ok v w' -> w' = w /\ field (heap w) c k = Some v.
Proof.
  unfold getitem. intros (d & w1 & [-> Hd]%read_dict_inv & H)%bind_inv_Ok.
  unfold field. rewrite Hd. destruct (d !! k); [|done]. by inversion H.
Qed.

Lemma items_insert_dict h c d l :
  is_Some (dict_at h c) -> items (<[c := ODict d]> h) l = items h l.
Proof.
  intros [d0 Hd]. unfold items. destruct (decide (c = l)) as [->|Hne].
  - rewrite list_lookup_insert_eq by (by eapply dict_at_lt).
    unfold dict_at in Hd. by destruct (h !! l) as [[]|].
  - by rewrite list_lookup_insert_ne.
Qed.

Lemma setitem_quiet c k v w u w' : setitem c k v w = Ok u w' -> quiet w w'.
Proof.
  unfold setitem. intros (d & w1 & [-> Hd]%read_dict_inv & H)%bind_inv_Ok.
  inversion H; subst. repeat split. intros l. cbn [heap with_heap].
  by apply items_insert_dict.
Qed.

Lemma time_time_quiet w x w' : time_time w = Ok x w' -> quiet w w'.
Proof. intros [= _ <-]. by repeat split. Qed.

Lemma start_timer_quiet mt w x w' : start_timer mt w = Ok x w' -> quiet w w'.
Proof.
  unfold start_timer. destruct mt.
  - intros (t & w1 & Ht%time_time_quiet & [= _ <-])%bind_inv_Ok. done.
  - intros [= _ <-]. apply quiet_refl.
Qed.

Lemma record_elapsed_quiet t s k w u w' : record_elapsed t s k w = Ok u w' -> quiet w w'.
Proof.
  unfold record_elapsed. destruct t as [t|], s as [s|]; try (intros [= _ <-]; apply quiet_refl).
  intros (now & w1 & Ht%time_time_quiet & Hs%setitem_quiet)%bind_inv_Ok.
  by eapply quiet_trans.
Qed.

Lemma record_value_quiet t k v w u w' : record_value t k v w = Ok u w' -> quiet w w'.
Proof.
  unfold record_value. destruct t as [t|]; [apply setitem_quiet|].
  intros [= _ <-]. apply quiet_refl.
Qed.

Lemma as_float_inv v w x w' : as_float v w = Ok x w' -> w' = w /\ v = VFloat x.
Proof. destruct v; cbn; try done. by intros [= <- <-]. Qed.

Lemma record_sum_quiet t k a b w u w' : record_sum t k a b w = Ok u w' -> quiet w w'.
Proof.
  unfold record_sum. destruct t as [t|]; [|intros [= _ <-]; apply quiet_refl].
  intros (va & w1 & [-> _]%getitem_inv & H)%bind_inv_Ok.
  apply bind_inv_Ok in H as (x & w2 & [-> _]%as_float_inv & H).
  apply bind_inv_Ok in H as (vb & w3 & [-> _]%getitem_inv & H).
  apply bind_inv_Ok in H as (y & w4 & [-> _]%as_float_inv & H).
  by eapply setitem_quiet.
Qed.

Lemma len_inv l w n w' :
  len l w = Ok n w' -> w' = w /\ exists ls, items (heap w) l = Some ls /\ n = Z.of_nat (length ls).
Proof.
  unfold len. intros (ls & w1 & [-> Hl]%read_list_inv & [= <- <-])%bind_inv_Ok.
  split; [done|]. by exists ls.
Qed.

Lemma alloc_list_new ls w l w' :
  alloc (OList ls) w = Ok l w' ->
  items (heap w') l = Some ls /\ trace w' = trace w /\ globals w' = globals w.
Proof. intros [= <- <-]. cbn. split; [apply items_new|done]. Qed.

Lemma map_m_state {A B} (f : A -> M B) l w ys w' :
  (forall x w0 y w1, f x w0 = Ok y w1 -> w1 = w0) ->
  map_m f l w = Ok ys w' -> w' = w.
Proof.
  intros Hf. revert w ys w'. induction l as [|x l IH]; intros w ys w'; cbn [map_m].
  - by intros [= _ <-].
  - intros (y & w1 & Hy & H)%bind_inv_Ok. apply Hf in Hy as ->.
    apply bind_inv_Ok in H as (ys' & w2 & Hys & [= _ <-]). by apply IH in Hys.
Qed.

Lemma for_each_setitem_trace (l : list (loc * Score)) w u w' :
  for_each (fun cs => setitem (fst cs) "rerank_score" (VFloat (snd cs))) l w = Ok u w' ->
  trace w' = trace w.
Proof.
  revert w. induction l as [|x l IH]; intros w; cbn [for_each].
  - by intros [= _ <-].
  - intros (y & w1 & (T & _)%setitem_quiet & H)%bind_inv_Ok.
    apply IH in H. congruence.
Qed.

(** What a returning [rerank] has recorded. *)
Lemma rerank_trace_inv self question candidates w r w' :
  rerank self question candidates w = Ok r w' ->
  exists cs, items (heap w) candidates = Some cs
    /\ (cs = [] /\ trace w' = trace w ++ [EvRerank question candidates]
        \/ cs <> [] /\ exists ps,
             trace w' = trace w ++ [EvRerank question candidates;
                                    EvPredict (rerank_model self) ps]).
Proof.
  unfold rerank. intros (u & w0 & [= _ <-] & H)%bind_inv_Ok.
  apply bind_inv_Ok in H as (cs & w1 & [-> Hcs]%read_list_inv & H).
  exists cs. split; [done|].
  destruct cs as [|c0 cs'].
  - left. split; [done|]. by inversion H.
  - right. split; [done|]. set (cs := c0 :: cs') in *.
    apply bind_inv_Ok in H as (ps & w1 & Hps & H).
    apply map_m_state in Hps as ->.
    2:{ intros x w2 y w3 (t & w4 & [-> _]%getitem_inv & [= _ <-])%bind_inv_Ok. done. }
    apply bind_inv_Ok in H as (ss & w1 & Hss & H).
    unfold model_predict in Hss.
    apply bind_inv_Ok in Hss as (u' & w2 & [= _ <-] & Hss).
    unfold lift in Hss. destruct (predict (rerank_model self) ps); [done|].
    inversion Hss; subst.
    apply bind_inv_Ok in H as (u'' & w3 & Htr%for_each_setitem_trace & H).
    apply bind_inv_Ok in H as (sorted & w4 & Hsorted & H).
    unfold sorted_by_rerank_score in Hsorted.
    apply bind_inv_Ok in Hsorted as (keyed & w5 & Hkeyed & [= _ <-]).
    apply map_m_state in Hkeyed as ->.
    2:{ intros x w2 y w6 (v & w7 & [-> _]%getitem_inv & Hy)%bind_inv_Ok.
        apply bind_inv_Ok in Hy as (kk & w8 & [-> _]%as_float_inv & [= _ <-]). done. }
    inversion H; subst. exists ps. cbn [trace with_heap]. rewrite Htr. cbn.
    by rewrite <- app_assoc.
Qed.

Lemma retrieve_trace_inv self question w r w' :
  retrieve_candidates self question w = Ok r w' ->
  trace w' = trace w ++ [EvRetrieve question].
Proof.
  intros H. by destruct (retrieve_ok_inv _ _ _ _ _ H) as (? & ? & ? & _ & _ & _ & _ & ->).
Qed.


Lemma items_app_dict h d l : items (h ++ [ODict d]) l = items h l.
Proof.
  unfold items. destruct (decide (l < length h)%nat) as [Hlt|Hge].
  - by rewrite lookup_app_l.
  - rewrite lookup_app_r by lia. rewrite (lookup_ge_None_2 h l) by lia.
    by destruct (l - length h)%nat as [|[|n]].
Qed.

Lemma timing_alloc_quiet (mt : bool) w t w0 :
  (if mt then t <- alloc (ODict ∅) ;; ret (Some t) else ret None) w = Ok t w0 ->
  quiet w w0.
Proof.
  destruct mt.
  - intros (l & w1 & [= _ <-] & [= _ <-])%bind_inv_Ok.
    repeat split. intros l'. cbn. apply items_app_dict.
  - intros [= _ <-]. apply quiet_refl.
Qed.

Lemma not_blank_strip sq : str_falsy (strip sq) = false -> forallb isspace sq = false.
Proof.
  intros H. destruct (forallb isspace sq) eqn:E; [|done].
  apply strip_nil_iff in E. by rewrite E in H.
Qed.

(** X12: the four ways in which [answer] returns, and what has run in
    each.  A returning call gave either the empty-question message on a
    blank query with no call recorded; or, on a query that is not blank,
    the no-candidates message after the retrieval alone; or the
    could-not-rank message after retrieval and re-ranking (cross-encoder
    included); or the text the generator returned, after retrieval,
    re-ranking and the generator call in this order, the generator having
    received the question (the search query when no question was given) and
    the very list that [answer] returns.  In the three sentinel cases the
    list returned is a new empty list. *)
Theorem X12_answer_outcomes
    (self : RagQueryEngine) (search_query : text) (question : option text)
    (llm_callable : text -> loc -> M text) (measure_time : bool)
    (w w' : world) (a : text) (chunks : loc) (timing : option loc) :
  answer self (Some search_query) question llm_callable measure_time w
  = Ok (a, chunks, timing) w' ->
  (a = EMPTY_QUESTION /\ forallb isspace search_query = true
   /\ items (heap w') chunks = Some [] /\ trace w' = trace w)
  \/ (forallb isspace search_query = false
      /\ ((a = NO_CANDIDATES /\ items (heap w') chunks = Some []
           /\ trace w' = trace w ++ [EvRetrieve search_query])
          \/ (exists cands ps,
                a = NO_RANKED /\ items (heap w') chunks = Some []
                /\ trace w' = trace w ++ [EvRetrieve search_query;
                                          EvRerank search_query cands;
                                          EvPredict (rerank_model self) ps])
          \/ (exists cands ps wg wg',
                trace wg = trace w ++ [EvRetrieve search_query;
                                       EvRerank search_query cands;
                                       EvPredict (rerank_model self) ps;
                                       EvGenerate (default search_query question) chunks]
                /\ llm_callable (default search_query question) chunks wg = Ok a wg'
                /\ trace w' = trace wg'))).
Proof.
  intros H. unfold answer in H.
  assert (E : match question with
              | Some _ => question
              | None => Some search_query
              end = Some (default search_query question)) by (by destruct question).
  rewrite E in H. clear E.
  apply bind_inv_Ok in H as (t & w0 & Q0%timing_alloc_quiet & H).
  unfold answer_from in H.
  destruct (str_falsy (strip search_query)) eqn:Hblank.
  { left. apply bind_inv_Ok in H as (none & w1 & (Hi & Ht & _)%alloc_list_new & H).
    inversion H; subst. split; [done|]. split.
    - apply strip_nil_iff. by destruct (strip search_query).
    - split; [done|]. destruct Q0 as (T0 & _). congruence. }
  right. split; [by apply not_blank_strip|].
  apply bind_inv_Ok in H as (s1 & w1 & Q1%start_timer_quiet & H).
  apply bind_inv_Ok in H as (cands & w2 & Hret%retrieve_trace_inv & H).
  apply bind_inv_Ok in H as (u3 & w3 & Q3%record_elapsed_quiet & H).
  apply bind_inv_Ok in H as (n & w4 & [-> (ls & Hls & Hn)]%len_inv & H).
  apply bind_inv_Ok in H as (u5 & w5 & Q5%record_value_quiet & H).
  assert (Tr5 : trace w5 = trace w ++ [EvRetrieve search_query]).
  { destruct Q0 as (T0 & _), Q1 as (T1 & _), Q3 as (T3 & _), Q5 as (T5 & _).
    congruence. }
  destruct (n =? 0) eqn:Hn0.
  { left. apply bind_inv_Ok in H as (none & w6 & (Hi & Ht & _)%alloc_list_new & H).
    inversion H; subst. split; [done|]. split; [done|]. congruence. }
  right.
  apply bind_inv_Ok in H as (s6 & w6 & Q6%start_timer_quiet & H).
  apply bind_inv_Ok in H as (top & w7 & Hrr%rerank_trace_inv & H).
  destruct Hrr as (cs & Hcs & Hrr).
  assert (Hcsls : cs = ls).
  { destruct Q5 as (_ & _ & _ & I5), Q6 as (_ & _ & _ & I6).
    rewrite I6, I5, Hls in Hcs. by inversion Hcs. }
  destruct Hrr as [[Hnil _]|[_ [ps Tr7]]].
  { exfalso. subst cs ls. cbn in Hn. subst n. done. }
  assert (Tr7' : trace w7 = trace w ++ [EvRetrieve search_query;
                                        EvRerank search_query cands;
                                        EvPredict (rerank_model self) ps]).
  { destruct Q6 as (T6 & _). rewrite Tr7, T6, Tr5, <- app_assoc. done. }
  apply bind_inv_Ok in H as (u8 & w8 & Q8%record_elapsed_quiet & H).
  apply bind_inv_Ok in H as (m & w9 & [-> (ls' & Hls' & Hm)]%len_inv & H).
  apply bind_inv_Ok in H as (u10 & w10 & Q10%record_value_quiet & H).
  apply bind_inv_Ok in H as (u11 & w11 & Q11%record_sum_quiet & H).
  assert (Tr11 : trace w11 = trace w7).
  { destruct Q8 as (T8 & _), Q10 as (T10 & _), Q11 as (T11 & _). congruence. }
  destruct (m =? 0) eqn:Hm0.
  { left. apply bind_inv_Ok in H as (none & w12 & (Hi & Ht & _)%alloc_list_new & H).
    inversion H; subst. exists cands, ps. split; [done|]. split; [done|]. congruence. }
  right.
  apply bind_inv_Ok in H as (s12 & w12 & Q12%start_timer_quiet & H).
  apply bind_inv_Ok in H as (u13 & w13 & [= _ <-] & H).
  apply bind_inv_Ok in H as (ans & w14 & Hllm & H).
  apply bind_inv_Ok in H as (u15 & w15 & Q15%record_elapsed_quiet & H).
  apply bind_inv_Ok in H as (u16 & w16 & Q16%record_sum_quiet & H).
  inversion H; subst.
  eexists cands, ps, _, w14. split; [|split; [exact Hllm|]].
  - cbn [trace with_trace]. destruct Q12 as (T12 & _).
    rewrite T12, Tr11, Tr7', <- app_assoc. done.
  - destruct Q15 as (T15 & _), Q16 as (T16 & _). congruence.
Qed.

(** X13: with the default generator [call_llm_default] the pipeline never
    yields an answer.  Whenever [answer] returns, it returns one of the
    three sentinel messages with a new empty list, and no generator call
    was recorded during the call. *)
Theorem X13_default_generator_never_answers
    (self : RagQueryEngine) (search_query : text) (question : option text)
    (measure_time : bool) (w w' : world) (a : text) (chunks : loc)
    (timing : option loc) :
  answer self (Some search_query) question call_llm_default measure_time w
  = Ok (a, chunks, timing) w' ->
  (a = EMPTY_QUESTION \/ a = NO_CANDIDATES \/ a = NO_RANKED)
  /\ items (heap w') chunks = Some []
  /\ forall q c, EvGenerate q c ∉ drop (length (trace w)) (trace w').
Proof.
  intros H.
  assert (H' := H). unfold answer in H'.
  assert (E : match question with
              | Some _ => question
              | None => Some search_query
              end = Some (default search_query question)) by (by destruct question).
  rewrite E in H'. clear E.
  apply bind_inv_Ok in H' as (t & w0 & Q0%timing_alloc_quiet & H').
  unfold answer_from in H'.
  destruct (str_falsy (strip search_query)) eqn:Hblank.
  { apply bind_inv_Ok in H' as (none & w1 & (Hi & Ht & _)%alloc_list_new & H').
    inversion H'; subst. split; [by left|]. split; [done|].
    destruct Q0 as (T0 & _). rewrite Ht, T0, drop_all. intros q c Hin.
    by apply elem_of_nil in Hin. }
  apply bind_inv_Ok in H' as (s1 & w1 & Q1%start_timer_quiet & H').
  apply bind_inv_Ok in H' as (cands & w2 & Hret%retrieve_trace_inv & H').
  apply bind_inv_Ok in H' as (u3 & w3 & Q3%record_elapsed_quiet & H').
  apply bind_inv_Ok in H' as (n & w4 & [-> (ls & Hls & Hn)]%len_inv & H').
  apply bind_inv_Ok in H' as (u5 & w5 & Q5%record_value_quiet & H').
  assert (Tr5 : trace w5 = trace w ++ [EvRetrieve search_query]).
  { destruct Q0 as (T0 & _), Q1 as (T1 & _), Q3 as (T3 & _), Q5 as (T5 & _).
    congruence. }
  destruct (n =? 0) eqn:Hn0.
  { apply bind_inv_Ok in H' as (none & w6 & (Hi & Ht & _)%alloc_list_new & H').
    inversion H'; subst. split; [by right; left|]. split; [done|].
    rewrite Ht, Tr5, drop_app_length. intros q c Hin.
    apply list_elem_of_singleton in Hin. done. }
  apply bind_inv_Ok in H' as (s6 & w6 & Q6%start_timer_quiet & H').
  apply bind_inv_Ok in H' as (top & w7 & Hrr%rerank_trace_inv & H').
  destruct Hrr as (cs & Hcs & Hrr).
  apply bind_inv_Ok in H' as (u8 & w8 & Q8%record_elapsed_quiet & H').
  apply bind_inv_Ok in H' as (m & w9 & [-> (ls' & Hls' & Hm)]%len_inv & H').
  apply bind_inv_Ok in H' as (u10 & w10 & Q10%record_value_quiet & H').
  apply bind_inv_Ok in H' as (u11 & w11 & Q11%record_sum_quiet & H').
  assert (Tr11 : trace w11 = trace w7).
  { destruct Q8 as (T8 & _), Q10 as (T10 & _), Q11 as (T11 & _). congruence. }
  destruct (m =? 0) eqn:Hm0.
  { apply bind_inv_Ok in H' as (none & w12 & (Hi & Ht & _)%alloc_list_new & H').
    inversion H'; subst. split; [by right; right|]. split; [done|].
    destruct Q6 as (T6 & _).
    intros q c Hin. rewrite Ht, Tr11 in Hin.
    destruct Hrr as [[_ Tr7]|[_ [ps Tr7]]]; rewrite Tr7, T6, Tr5, <- app_assoc in Hin;
      rewrite drop_app_length in Hin; cbn in Hin;
      repeat (apply elem_of_cons in Hin as [Hin|Hin]; [done|]);
      by apply elem_of_nil in Hin. }
  apply bind_inv_Ok in H' as (s12 & w12 & Q12%start_timer_quiet & H').
  apply bind_inv_Ok in H' as (u13 & w13 & [= _ <-] & H').
  by apply bind_inv_Ok in H' as (ans & w14 & Hllm & H').
Qed.

(** X14: called with neither a search query nor a question, [answer]
    raises [AttributeError] (the missing query has no [strip]); the timing
    dict, if asked for, has already been created, and nothing else has
    happened. *)
Theorem X14_answer_without_query_raises
    (self : RagQueryEngine) (llm_callable : text -> loc -> M text)
    (measure_time : bool) (w : world) :
  exists w',
    answer self None None llm_callable measure_time w = Raise AttributeError w'
    /\ trace w' = trace w
    /\ ticks w' = ticks w
    /\ heap w' = if measure_time then heap w ++ [ODict ∅] else heap w.
Proof.
  unfold answer. destruct measure_time; eexists; (split; [reflexivity|done]).
Qed.


(** ** [RagQueryEngine.answer]: running through the ranking *)

(** The timing dict, when there is one, is a dict whose content satisfies
    [P]. *)
Definition timing_ok (t : option loc) (h : list obj)
    (P : gmap string value -> Prop) : Prop :=
  match t with
  | None => True
  | Some l => exists d, dict_at h l = Some d /\ P d
  end.

(** A step that changes at most the timing dict (and the clock). *)
Definition touches_only (t : option loc) (w w' : world) : Prop :=
  trace w' = trace w /\ globals w' = globals w /\ attempts w' = attempts w
  /\ length (heap w') = length (heap w)
  /\ forall i, t <> Some i -> heap w' !! i = heap w !! i.

Lemma touches_only_refl t w : touches_only t w w.
Proof. by repeat split. Qed.

Lemma touches_only_trans t w1 w2 w3 :
  touches_only t w1 w2 -> touches_only t w2 w3 -> touches_only t w1 w3.
Proof.
  intros (T1 & G1 & A1 & L1 & I1) (T2 & G2 & A2 & L2 & I2).
  split; [congruence|]. split; [congruence|]. split; [congruence|].
  split; [congruence|]. intros i Hi. by rewrite I2, I1.
Qed.

Lemma setitem_touch l k v d w :
  dict_at (heap w) l = Some d ->
  exists w', setitem l k v w = Ok tt w'
             /\ touches_only (Some l) w w'
             /\ dict_at (heap w') l = Some (<[k := v]> d)
             /\ ticks w' = ticks w.
Proof.
  intros Hd. eexists. split; [by apply setitem_ok|].
  unfold touches_only. cbn [heap with_heap]. split; [|split; [|done]].
  - split; [done|]. split; [done|]. split; [done|].
    split; [by rewrite length_insert|].
    intros i Hi. rewrite list_lookup_insert_ne; [done|congruence].
  - rewrite dict_at_insert by (by eapply dict_at_lt). by rewrite Nat.eqb_refl.
Qed.

Lemma record_elapsed_run t s k w P :
  (t = None \/ is_Some s) ->
  timing_ok t (heap w) P ->
  exists w', record_elapsed t s k w = Ok tt w'
             /\ touches_only t w w'
             /\ timing_ok t (heap w')
                  (fun d' => exists d x, P d /\ d' = <[k := VFloat x]> d).
Proof.
  intros Hts Hok. destruct t as [l|].
  - destruct Hts as [|[s0 ->]]; [done|]. destruct Hok as (d & Hd & HP).
    unfold record_elapsed.
    set (w1 := with_ticks (S (ticks w)) w).
    destruct (setitem_touch l k (VFloat (fsub (time_at (ticks w)) s0)) d w1 Hd)
      as (w' & Hset & Htouch & Hd' & _).
    exists w'. split.
    + rewrite (bind_Ok _ _ _ (time_at (ticks w)) w1) by done. exact Hset.
    + split; [exact Htouch|]. exists (<[k := VFloat (fsub (time_at (ticks w)) s0)]> d).
      split; [done|]. by exists d, (fsub (time_at (ticks w)) s0).
  - exists w. split; [by destruct s|]. split; [apply touches_only_refl|done].
Qed.

Lemma record_value_run t k v w P :
  timing_ok t (heap w) P ->
  exists w', record_value t k v w = Ok tt w'
             /\ touches_only t w w'
             /\ timing_ok t (heap w') (fun d' => exists d, P d /\ d' = <[k := v]> d).
Proof.
  intros Hok. destruct t as [l|].
  - destruct Hok as (d & Hd & HP).
    destruct (setitem_touch l k v d w Hd) as (w' & Hset & Htouch & Hd' & _).
    exists w'. split; [exact Hset|]. split; [exact Htouch|].
    exists (<[k := v]> d). split; [done|]. by exists d.
  - exists w. split; [done|]. split; [apply touches_only_refl|done].
Qed.

Lemma record_sum_run t k a b w P :
  timing_ok t (heap w) P ->
  (forall d, P d -> exists x y, d !! a = Some (VFloat x) /\ d !! b = Some (VFloat y)) ->
  exists w', record_sum t k a b w = Ok tt w'
             /\ touches_only t w w'
             /\ timing_ok t (heap w')
                  (fun d' => exists d x, P d /\ d' = <[k := VFloat x]> d).
Proof.
  intros Hok Hab. destruct t as [l|].
  - destruct Hok as (d & Hd & HP). destruct (Hab d HP) as (x & y & Hx & Hy).
    destruct (setitem_touch l k (VFloat (fadd x y)) d w Hd)
      as (w' & Hset & Htouch & Hd' & _).
    exists w'. split.
    + unfold record_sum.
      assert (Hfa : field (heap w) l a = Some (VFloat x)) by (unfold field; by rewrite Hd).
      assert (Hfb : field (heap w) l b = Some (VFloat y)) by (unfold field; by rewrite Hd).
      rewrite (bind_Ok _ _ _ _ _ (getitem_ok l a _ w Hfa)). cbv beta.
      rewrite (bind_Ok _ _ _ x w) by done. cbv beta.
      rewrite (bind_Ok _ _ _ _ _ (getitem_ok l b _ w Hfb)). cbv beta.
      rewrite (bind_Ok _ _ _ y w) by done. exact Hset.
    + split; [exact Htouch|]. exists (<[k := VFloat (fadd x y)]> d).
      split; [done|]. by exists d, (fadd x y).
  - exists w. split; [done|]. split; [apply touches_only_refl|done].
Qed.

Lemma start_timer_run (mt : bool) t w :
  exists s w', start_timer mt w = Ok s w'
               /\ touches_only t w w' /\ heap w' = heap w
               /\ (mt = false \/ is_Some s).
Proof.
  destruct mt.
  - eexists _, _. split; [reflexivity|]. split; [by repeat split|].
    split; [done|]. right. by eexists.
  - exists None, w. split; [done|]. split; [apply touches_only_refl|]. by split; [|left].
Qed.

Lemma timing_ok_touch t w w' P :
  heap w' = heap w -> timing_ok t (heap w) P -> timing_ok t (heap w') P.
Proof. by intros ->. Qed.

Lemma touches_only_items t w w' l :
  touches_only t w w' -> t <> Some l -> items (heap w') l = items (heap w) l.
Proof. intros (_ & _ & _ & _ & I) Hl. unfold items. by rewrite I. Qed.

Lemma touches_only_field t w w' c k :
  touches_only t w w' -> t <> Some c -> field (heap w') c k = field (heap w) c k.
Proof. intros (_ & _ & _ & _ & I) Hl. unfold field, dict_at. by rewrite I. Qed.

Lemma last_score_notin cs (scores : list Score) c :
  c ∉ cs -> last_score (zip cs scores) c = None.
Proof.
  revert scores. induction cs as [|c0 cs IH]; intros scores Hc; [done|].
  destruct scores as [|s scores]; [done|].
  change (zip (c0 :: cs) (s :: scores)) with ((c0, s) :: zip cs scores).
  cbn [last_score fst snd]. rewrite IH by (intros ?; apply Hc; by right).
  destruct (Nat.eqb_spec c0 c) as [->|]; [|done]. exfalso. apply Hc. by left.
Qed.

(** What is left of [answer] once the ranking has been timed. *)
Definition answer_tail (question : text) (llm_callable : text -> loc -> M text)
    (measure_time : bool) (timing_info : option loc) (top_chunks : loc) (m : Z)
    : M (text * loc * option loc) :=
  if m =? 0 then
    none <- alloc (OList []) ;; ret (NO_RANKED, none, timing_info)
  else
    start_llm <- start_timer measure_time ;;
    emit (EvGenerate question top_chunks) ;;
    answer <- llm_callable question top_chunks ;;
    record_elapsed timing_info start_llm "llm_time" ;;
    record_sum timing_info "total_time" "total_chunks_time" "llm_time" ;;
    ret (answer, top_chunks, timing_info).

(** The content of the timing dict once the ranking has been timed. *)
Definition ranking_timed (n m : Z) (d : gmap string value) : Prop :=
  (exists x, d !! "retrieve_time" = Some (VFloat x))
  /\ (exists x, d !! "rerank_time" = Some (VFloat x))
  /\ (exists x, d !! "total_chunks_time" = Some (VFloat x))
  /\ d !! "num_candidates" = Some (VInt n)
  /\ d !! "num_final_chunks" = Some (VInt m)
  /\ d !! "llm_time" = None /\ d !! "total_time" = None.


Lemma timing_ok_impl t h (P Q : gmap string value -> Prop) :
  timing_ok t h P -> (forall d, P d -> Q d) -> timing_ok t h Q.
Proof.
  destruct t as [l|]; [|done]. intros (d & Hd & HP) HPQ. exists d. split; [done|].
  by apply HPQ.
Qed.

Lemma timing_ok_app t h1 h2 P :
  timing_ok t h1 P -> timing_ok t (h1 ++ h2) P.
Proof.
  destruct t as [l|]; [|done]. intros (d & Hd & HP). exists d. split; [|done].
  rewrite dict_at_app_l; [done|]. by eapply dict_at_lt.
Qed.

Lemma timing_ok_lt t h P l : timing_ok t h P -> t = Some l -> (l < length h)%nat.
Proof. intros Hok ->. destruct Hok as (d & Hd & _). by eapply dict_at_lt. Qed.

(** From the call of [answer] to the end of the timed ranking, on a query
    that is not blank and has candidates. *)
Lemma answer_reaches_ranking self search_query question llm_callable
    (measure_time : bool) w r0 w1 :
  str_falsy (strip search_query) = false ->
  retrieve_candidates self search_query w = Ok r0 w1 ->
  items (heap w1) r0 <> Some [] ->
  (forall ps, exists ss, predict (rerank_model self) ps = inr ss
                         /\ length ss = length ps) ->
  0 <= top_n_rerank self ->
  exists cands cs top out ps wr,
    let t := if measure_time then Some (length (heap w)) else None in
    answer self (Some search_query) question llm_callable measure_time w
    = answer_tail (default search_query question) llm_callable measure_time t top
                  (Z.of_nat (length out)) wr
    /\ trace wr = trace w ++ [EvRetrieve search_query; EvRerank search_query cands;
                              EvPredict (rerank_model self) ps]
    /\ globals wr = globals w
    /\ items (heap wr) cands = Some cs
    /\ length cs = length (default [] (items (heap w1) r0))
    /\ items (heap wr) top = Some out
    /\ length out = Nat.min (Z.to_nat (top_n_rerank self)) (length cs)
    /\ (forall c, c ∈ out -> c ∈ cs)
    /\ t <> Some top
    /\ timing_ok t (heap wr)
         (ranking_timed (Z.of_nat (length cs)) (Z.of_nat (length out))).
Proof.
  intros Hstrip Hret Hne Hpred Hn.
  destruct (retrieve_ok_inv _ _ _ _ _ Hret)
    as (q_emb & fetched & mds & Henc & Hsel & Hdec & -> & Hw1).
  pose proof (decode_all_length _ _ Hdec) as Hmds.
  assert (Hitems1 : items (heap w1) (length (heap w))
                    = Some (seq (S (length (heap w))) (length fetched))).
  { rewrite Hw1. cbn [heap with_heap]. unfold items.
    by rewrite lookup_app_r, Nat.sub_diag by lia. }
  rewrite Hitems1 in Hne.
  assert (Hfne : (0 < length fetched)%nat).
  { destruct fetched; [done|cbn; lia]. }
  set (t := if measure_time then Some (length (heap w)) else None).
  (* the timing dict *)
  assert (exists w0,
             (if measure_time then t <- alloc (ODict ∅) ;; ret (Some t) else ret None) w
             = Ok t w0
             /\ trace w0 = trace w /\ globals w0 = globals w
             /\ timing_ok t (heap w0) (fun d => d = ∅))
    as (w0 & Hw0 & T0 & G0 & Ok0).
  { unfold t. destruct measure_time.
    - eexists. split; [reflexivity|]. cbn. split; [done|]. split; [done|].
      exists ∅. split; [|done]. unfold dict_at.
      by rewrite lookup_app_r, Nat.sub_diag by lia.
    - exists w. by repeat split. }
  destruct (start_timer_run measure_time t w0) as (s1 & wa & Hs1 & Ta & Ha & Hs1').
  assert (Hts : forall s : option Score,
             (measure_time = false \/ is_Some s) -> t = None \/ is_Some s).
  { intros s [->|Hs]; [by left|by right]. }
  (* retrieval *)
  set (base := length (heap wa)).
  set (cs := seq (S base) (length fetched)).
  set (wb := with_heap (heap wa ++ OList cs :: zip_with candidate_obj fetched mds)
               (with_trace (trace wa ++ [EvRetrieve search_query]) wa)).
  assert (Hretb : retrieve_candidates self search_query wa = Ok base wb).
  { pose proof (retrieve_candidates_spec self search_query wa) as Hspec.
    cbv zeta in Hspec. by rewrite Henc, Hsel, Hdec in Hspec. }
  assert (Okb : timing_ok t (heap wb) (fun d => d = ∅)).
  { cbn [heap wb with_heap]. apply timing_ok_app. by rewrite Ha. }
  assert (Hltb : forall l, t = Some l -> (l < base)%nat).
  { intros l Hl. unfold base. rewrite Ha. by eapply timing_ok_lt. }
  assert (Hitemsb : items (heap wb) base = Some cs).
  { cbn [heap wb with_heap]. unfold items, base.
    by rewrite lookup_app_r, Nat.sub_diag by lia. }
  assert (Htextb : forall c, c ∈ cs -> is_Some (field (heap wb) c "text")).
  { intros c Hc. apply elem_of_seq in Hc as [Hge Hlt].
    destruct (lookup_lt_is_Some_2 fetched (c - S base)%nat) as [dr Hdr]; [lia|].
    destruct (lookup_lt_is_Some_2 mds (c - S base)%nat) as [md Hmd]; [lia|].
    cbn [heap wb with_heap]. unfold field.
    replace c with (S base + (c - S base))%nat by lia. unfold base.
    rewrite (retrieved_dict_at _ _ _ _ _ _ _ Hdr Hmd).
    unfold candidate_dict. by simplify_map_eq. }
  assert (Hnotin : forall l, t = Some l -> l <> base /\ l ∉ cs).
  { intros l Hl. specialize (Hltb l Hl). split; [lia|].
    intros [? ?]%elem_of_seq. lia. }
  (* timing of the retrieval *)
  destruct (record_elapsed_run t s1 "retrieve_time" wb _ (Hts _ Hs1') Okb)
    as (wc & Erc & Tc & Okc).
  destruct (record_value_run t "num_candidates" (VInt (Z.of_nat (length cs))) wc _ Okc)
    as (wd & Erd & Td & Okd).
  destruct (start_timer_run measure_time t wd) as (s2 & we & Hs2 & Te & He & Hs2').
  pose proof (touches_only_trans _ _ _ _ Tc (touches_only_trans _ _ _ _ Td Te)) as Tbe.
  assert (Hbase_t : t <> Some base).
  { intros Hl. destruct (Hnotin base Hl). done. }
  assert (Hcs_t : forall c, c ∈ cs -> t <> Some c).
  { intros c Hc Hl. destruct (Hnotin c Hl). done. }
  assert (Hitemsc : items (heap wc) base = Some cs).
  { by rewrite (touches_only_items _ _ _ _ Tc Hbase_t). }
  assert (Hlen_c : len base wc = Ok (Z.of_nat (length cs)) wc).
  { unfold len. by rewrite (bind_Ok _ _ _ cs wc (read_list_ok base cs wc Hitemsc)). }
  (* re-ranking *)
  assert (Hitemse : items (heap we) base = Some cs).
  { by rewrite (touches_only_items _ _ _ _ Tbe Hbase_t). }
  assert (Htexte : forall c, c ∈ cs -> is_Some (field (heap we) c "text")).
  { intros c Hc. rewrite (touches_only_field _ _ _ _ _ Tbe (Hcs_t c Hc)). by apply Htextb. }
  assert (Hcsne : cs <> []).
  { unfold cs. destruct (length fetched); [lia|done]. }
  destruct (Hpred (pairs_of (heap we) search_query cs)) as (ss & Hss & Hsslen).
  destruct (rerank_run self search_query base we cs ss Hitemse Hcsne Htexte Hss)
    as (k & Hk & Hrr).
  { rewrite Hsslen. unfold pairs_of. by rewrite length_map. }
  set (out := slice_to (top_n_rerank self) (ranking k cs)) in *.
  set (hs := set_scores (zip cs ss) (heap we)) in *.
  set (wf := with_heap (hs ++ [OList out]) _) in Hrr.
  assert (Hlen_hs : length hs = length (heap we)) by apply set_scores_length.
  assert (Okf : timing_ok t (heap wf)
                  (fun d' => exists d, (exists d0 x, d0 = ∅
                                          /\ d = <["retrieve_time" := VFloat x]> d0)
                                       /\ d' = <["num_candidates"
                                                 := VInt (Z.of_nat (length cs))]> d)).
  { cbn [heap wf with_heap]. apply timing_ok_app.
    destruct t as [l|] eqn:Et; [|done]. destruct (Hnotin l eq_refl) as [_ Hl].
    destruct Okd as (d & Hdd & HP). exists d. split; [|exact HP].
    unfold hs. rewrite set_scores_dict_at, (last_score_notin _ _ _ Hl).
    rewrite He. exact Hdd. }
  destruct (record_elapsed_run t s2 "rerank_time" wf _ (Hts _ Hs2') Okf)
    as (wg & Erg & Tg & Okg).
  assert (Htop_t : t <> Some (length (heap we))).
  { intros Hl. specialize (Hltb _ Hl).
    destruct Tbe as (_ & _ & _ & Lbe & _). rewrite Lbe in Hltb.
    cbn [heap wb with_heap] in Hltb. rewrite length_app in Hltb. fold base in Hltb. lia. }
  assert (Hitemsf : items (heap wf) (length (heap we)) = Some out).
  { cbn [heap wf with_heap]. rewrite <- Hlen_hs. apply items_new. }
  assert (Hitemsg : items (heap wg) (length (heap we)) = Some out).
  { by rewrite (touches_only_items _ _ _ _ Tg Htop_t). }
  assert (Hlen_g : len (length (heap we)) wg = Ok (Z.of_nat (length out)) wg).
  { unfold len. by rewrite (bind_Ok _ _ _ out wg (read_list_ok _ out wg Hitemsg)). }
  destruct (record_value_run t "num_final_chunks" (VInt (Z.of_nat (length out))) wg _ Okg)
    as (wh & Erh & Th & Okh).
  destruct (record_sum_run t "total_chunks_time" "retrieve_time" "rerank_time" wh _ Okh)
    as (wi & Eri & Ti & Oki).
  { intros d (d4 & (d3 & x3 & (d2 & (d1 & x1 & -> & ->) & ->) & ->) & ->).
    exists x1, x3. by simplify_map_eq. }
  pose proof (touches_only_trans _ _ _ _ Tg (touches_only_trans _ _ _ _ Th Ti)) as Tfi.
  exists base, cs, (length (heap we)), out, (pairs_of (heap we) search_query cs), wi.
  cbv zeta. fold t.
  split.
  { unfold answer.
    assert (E : match question with
                | Some _ => question
                | None => Some search_query
                end = Some (default search_query question)) by (by destruct question).
    rewrite E. clear E.
    rewrite (bind_Ok _ _ _ _ _ Hw0). cbv beta iota.
    unfold answer_from. rewrite Hstrip.
    rewrite (bind_Ok _ _ _ _ _ Hs1). cbv beta.
    rewrite (bind_Ok _ _ _ _ _ Hretb). cbv beta.
    rewrite (bind_Ok _ _ _ _ _ Erc). cbv beta.
    rewrite (bind_Ok _ _ _ _ _ Hlen_c). cbv beta.
    rewrite (bind_Ok _ _ _ _ _ Erd). cbv beta.
    assert ((Z.of_nat (length cs) =? 0) = false) as ->.
    { apply Z.eqb_neq. unfold cs. rewrite length_seq. lia. }
    rewrite (bind_Ok _ _ _ _ _ Hs2). cbv beta.
    rewrite (bind_Ok _ _ _ _ _ Hrr). cbv beta.
    rewrite (bind_Ok _ _ _ _ _ Erg). cbv beta.
    rewrite (bind_Ok _ _ _ _ _ Hlen_g). cbv beta.
    rewrite (bind_Ok _ _ _ _ _ Erh). cbv beta.
    rewrite (bind_Ok _ _ _ _ _ Eri). cbv beta.
    reflexivity. }
  assert (Trf : trace wf = trace w ++ [EvRetrieve search_query;
                                       EvRerank search_query base;
                                       EvPredict (rerank_model self)
                                         (pairs_of (heap we) search_query cs)]).
  { cbn [trace wf with_heap with_trace].
    destruct Tbe as (Tbe' & _), Ta as (Ta' & _).
    rewrite Tbe'. cbn [trace wb with_heap with_trace]. rewrite Ta', T0.
    by rewrite <- app_assoc. }
  assert (Gf : globals wf = globals w).
  { cbn [globals wf with_heap with_trace _embedding_model _rerank_model
         _embedding_model_name _rerank_model_name].
    destruct Tbe as (_ & Gbe & _), Ta as (_ & Ga & _).
    change (globals we = globals w). rewrite Gbe.
    change (globals wa = globals w). by rewrite Ga. }
  split. { destruct Tfi as (Tfi' & _). by rewrite Tfi'. }
  split. { destruct Tfi as (_ & Gfi & _). by rewrite Gfi. }
  split.
  { rewrite (touches_only_items _ _ _ _ Tfi Hbase_t). cbn [heap wf with_heap].
    rewrite items_app_l by (rewrite Hlen_hs; by eapply items_lt).
    unfold hs. by rewrite set_scores_items. }
  split. { rewrite Hitems1. unfold cs. cbn. by rewrite !length_seq. }
  split. { by rewrite (touches_only_items _ _ _ _ (touches_only_trans _ _ _ _ Th Ti) Htop_t). }
  split.
  { unfold out. rewrite slice_to_length by done. unfold ranking, sorted_reverse.
    rewrite length_map, (Permutation_length (sort_stable_perm _ _)).
    by rewrite length_map. }
  split.
  { intros c Hc. apply subseteq_take_slice in Hc.
    unfold ranking, sorted_reverse in Hc.
    apply list_elem_of_In, in_map_iff in Hc as ([s c'] & <- & Hin).
    apply list_elem_of_In in Hin. rewrite sort_stable_perm in Hin.
    by apply list_elem_of_In, in_map_iff in Hin
      as (c'' & [= _ <-] & ?%list_elem_of_In). }
  split; [exact Htop_t|].
  eapply timing_ok_impl; [exact Oki|].
  intros d (d5 & x5 & (d4 & (d3 & x3 & (d2 & (d1 & x1 & -> & ->) & ->) & ->) & ->) & ->).
  unfold ranking_timed. repeat split; try (eexists; by simplify_map_eq);
    by simplify_map_eq.
Qed.


Lemma retrieve_items_Some self question w r w1 :
  retrieve_candidates self question w = Ok r w1 -> is_Some (items (heap w1) r).
Proof.
  intros Hret.
  destruct (retrieve_ok_inv _ _ _ _ _ Hret) as (q & f & m & _ & _ & _ & -> & ->).
  cbn [heap with_heap]. unfold items.
  by rewrite lookup_app_r, Nat.sub_diag by lia.
Qed.

(** X15: with [top_n_rerank = 0] a query that has candidates ends in the
    could-not-rank message: retrieval and re-ranking run (the cross-encoder
    included), the ranking is cut to nothing, and [answer] returns the
    message with a new empty list without calling the generator. *)
Theorem X15_zero_bound_gives_no_ranked_sentinel
    (self : RagQueryEngine) (search_query : text) (question : option text)
    (llm_callable : text -> loc -> M text) (measure_time : bool)
    (w w1 : world) (r0 : loc) :
  str_falsy (strip search_query) = false ->
  retrieve_candidates self search_query w = Ok r0 w1 ->
  items (heap w1) r0 <> Some [] ->
  (forall ps, exists ss, predict (rerank_model self) ps = inr ss
                         /\ length ss = length ps) ->
  top_n_rerank self = 0 ->
  exists none w' cands ps,
    answer self (Some search_query) question llm_callable measure_time w
    = Ok (NO_RANKED, none,
          if measure_time then Some (length (heap w)) else None) w'
    /\ items (heap w') none = Some []
    /\ trace w' = trace w ++ [EvRetrieve search_query; EvRerank search_query cands;
                              EvPredict (rerank_model self) ps].
Proof.
  intros Hstrip Hret Hne Hpred Hn.
  destruct (answer_reaches_ranking self search_query question llm_callable measure_time
              w r0 w1 Hstrip Hret Hne Hpred)
    as (cands & cs & top & out & ps & wr & Hrun & Tr & _ & _ & _ & _ & Hlen & _);
    [lia|].
  cbv zeta in Hrun. rewrite Hn in Hlen. cbn in Hlen.
  rewrite Hlen in Hrun. unfold answer_tail in Hrun. cbn [Z.of_nat Z.eqb] in Hrun.
  eexists _, _, cands, ps. split; [exact Hrun|]. cbn [heap with_heap trace].
  split; [apply items_new|exact Tr].
Qed.

(** X16: what the generator raises, [answer] raises.  On a query that has
    candidates, with a positive bound, retrieval and re-ranking run, the
    generator is called once with the question, and its exception reaches
    the caller; with the default generator [call_llm_default] this is
    [NotImplementedError]. *)
Theorem X16_generator_error_propagates
    (self : RagQueryEngine) (search_query : text) (question : option text)
    (llm_callable : text -> loc -> M text) (e : exn) (measure_time : bool)
    (w w1 : world) (r0 : loc) :
  str_falsy (strip search_query) = false ->
  retrieve_candidates self search_query w = Ok r0 w1 ->
  items (heap w1) r0 <> Some [] ->
  (forall ps, exists ss, predict (rerank_model self) ps = inr ss
                         /\ length ss = length ps) ->
  0 < top_n_rerank self ->
  (forall c wg, llm_callable (default search_query question) c wg = Raise e wg) ->
  exists w' cands ps top,
    answer self (Some search_query) question llm_callable measure_time w = Raise e w'
    /\ trace w' = trace w ++ [EvRetrieve search_query; EvRerank search_query cands;
                              EvPredict (rerank_model self) ps;
                              EvGenerate (default search_query question) top].
Proof.
  intros Hstrip Hret Hne Hpred Hn Hllm.
  destruct (answer_reaches_ranking self search_query question llm_callable measure_time
              w r0 w1 Hstrip Hret Hne Hpred)
    as (cands & cs & top & out & ps & wr & Hrun & Tr & _ & _ & Hcs & _ & Hlen & _);
    [lia|].
  cbv zeta in Hrun.
  assert (Hcs0 : (0 < length cs)%nat).
  { rewrite Hcs. destruct (retrieve_items_Some _ _ _ _ _ Hret) as [l Hl].
    rewrite Hl in *. destruct l; [done|cbn; lia]. }
  assert ((Z.of_nat (length out) =? 0) = false) as Hm by (apply Z.eqb_neq; lia).
  unfold answer_tail in Hrun. rewrite Hm in Hrun.
  destruct (start_timer_run measure_time None wr) as (s & wj & Hs & (Tj & _) & _ & _).
  rewrite (bind_Ok _ _ _ _ _ Hs) in Hrun. cbv beta in Hrun.
  set (wk := with_trace (trace wj ++ [EvGenerate (default search_query question) top]) wj).
  rewrite (bind_Ok _ _ _ tt wk) in Hrun by done. cbv beta in Hrun.
  rewrite (bind_Raise _ _ _ _ _ (Hllm top wk)) in Hrun.
  exists wk, cands, ps, top. split; [exact Hrun|].
  cbn [trace wk with_trace]. rewrite Tj, Tr, <- app_assoc. done.
Qed.

(** The content of the timing dict at the end of a full run. *)
Definition fully_timed (n m : Z) (d : gmap string value) : Prop :=
  (exists x, d !! "retrieve_time" = Some (VFloat x))
  /\ (exists x, d !! "rerank_time" = Some (VFloat x))
  /\ (exists x, d !! "total_chunks_time" = Some (VFloat x))
  /\ (exists x, d !! "llm_time" = Some (VFloat x))
  /\ (exists x, d !! "total_time" = Some (VFloat x))
  /\ d !! "num_candidates" = Some (VInt n)
  /\ d !! "num_final_chunks" = Some (VInt m).

(** X17: the full pipeline.  On a query that is not blank and has
    candidates, with a positive bound, a cross-encoder returning one score
    per pair and a generator that only reads the state, [answer] returns
    the generator's text for the question (the search query when no
    question is given) together with the list re-ranking produced:
    [min(top_n_rerank, number of candidates)] of the retrieved records, at
    least one.  Retrieval, re-ranking, cross-encoder and generator are
    called once each, in this order.  With timing on, the third component
    is a dict holding the five durations and the two counts; with timing
    off it is [None]. *)
Theorem X17_answer_full_pipeline
    (self : RagQueryEngine) (search_query : text) (question : option text)
    (llm_callable : text -> loc -> M text) (generate : loc -> world -> text)
    (measure_time : bool) (w w1 : world) (r0 : loc) :
  str_falsy (strip search_query) = false ->
  retrieve_candidates self search_query w = Ok r0 w1 ->
  items (heap w1) r0 <> Some [] ->
  (forall ps, exists ss, predict (rerank_model self) ps = inr ss
                         /\ length ss = length ps) ->
  0 < top_n_rerank self ->
  (forall c wg, llm_callable (default search_query question) c wg
                = Ok (generate c wg) wg) ->
  exists top w' wg cands cs out ps,
    let t := if measure_time then Some (length (heap w)) else None in
    answer self (Some search_query) question llm_callable measure_time w
    = Ok (generate top wg, top, t) w'
    /\ trace w' = trace w ++ [EvRetrieve search_query; EvRerank search_query cands;
                              EvPredict (rerank_model self) ps;
                              EvGenerate (default search_query question) top]
    /\ trace wg = trace w'
    /\ items (heap w') cands = Some cs
    /\ items (heap w') top = Some out
    /\ length out = Nat.min (Z.to_nat (top_n_rerank self)) (length cs)
    /\ (0 < length out)%nat
    /\ (forall c, c ∈ out -> c ∈ cs)
    /\ timing_ok t (heap w')
         (fully_timed (Z.of_nat (length cs)) (Z.of_nat (length out))).
Proof.
  intros Hstrip Hret Hne Hpred Hn Hllm.
  destruct (answer_reaches_ranking self search_query question llm_callable measure_time
              w r0 w1 Hstrip Hret Hne Hpred)
    as (cands & cs & top & out & ps & wr & Hrun & Tr & _ & Hcands & Hcs & Htop & Hlen
        & Hsub & Htt & Okr); [lia|].
  cbv zeta in Hrun. set (t := if measure_time then Some (length (heap w)) else None) in *.
  assert (Hcs0 : (0 < length cs)%nat).
  { rewrite Hcs. destruct (retrieve_items_Some _ _ _ _ _ Hret) as [l Hl].
    rewrite Hl in *. destruct l; [done|cbn; lia]. }
  assert (Hout0 : (0 < length out)%nat) by lia.
  assert ((Z.of_nat (length out) =? 0) = false) as Hm by (apply Z.eqb_neq; lia).
  unfold answer_tail in Hrun. rewrite Hm in Hrun.
  destruct (start_timer_run measure_time t wr) as (s & wj & Hs & Tj & Hj & Hs').
  rewrite (bind_Ok _ _ _ _ _ Hs) in Hrun. cbv beta in Hrun.
  set (wk := with_trace (trace wj ++ [EvGenerate (default search_query question) top]) wj).
  rewrite (bind_Ok _ _ _ tt wk) in Hrun by done. cbv beta in Hrun.
  rewrite (bind_Ok _ _ _ _ _ (Hllm top wk)) in Hrun. cbv beta in Hrun.
  assert (Okk : timing_ok t (heap wk)
                  (ranking_timed (Z.of_nat (length cs)) (Z.of_nat (length out)))).
  { cbn [heap wk with_trace]. by rewrite Hj. }
  assert (Hts : t = None \/ is_Some s).
  { destruct Hs' as [Hmt|Hs']; [left; unfold t; by rewrite Hmt|by right]. }
  destruct (record_elapsed_run t s "llm_time" wk _ Hts Okk) as (wl & Erl & Tl & Okl).
  destruct (record_sum_run t "total_time" "total_chunks_time" "llm_time" wl _ Okl)
    as (wm & Erm & Tm & Okm).
  { intros d (d0 & x & (_ & _ & [y Hy] & _) & ->). exists y, x. by simplify_map_eq. }
  rewrite (bind_Ok _ _ _ _ _ Erl) in Hrun. cbv beta in Hrun.
  rewrite (bind_Ok _ _ _ _ _ Erm) in Hrun. cbv beta in Hrun.
  pose proof (touches_only_trans _ _ _ _ Tl Tm) as Tkm.
  assert (Trk : trace wk = trace w ++ [EvRetrieve search_query;
                                       EvRerank search_query cands;
                                       EvPredict (rerank_model self) ps;
                                       EvGenerate (default search_query question) top]).
  { cbn [trace wk with_trace]. destruct Tj as (Tj' & _).
    rewrite Tj', Tr, <- app_assoc. done. }
  assert (Hcands_t : t <> Some cands).
  { intros Ht. destruct t as [l|] eqn:Et; [|done]. inversion Ht; subst l.
    destruct Okr as (d & Hd & _). unfold items in Hcands. unfold dict_at in Hd.
    by destruct (heap wr !! cands) as [[]|]. }
  exists top, wm, wk, cands, cs, out, ps. cbv zeta.
  split; [exact Hrun|].
  destruct Tkm as (Tkm' & _ & _ & _ & Ikm).
  split; [by rewrite Tkm'|]. split; [by rewrite Tkm'|].
  split. { unfold items. rewrite Ikm by done. cbn [heap wk with_trace]. rewrite Hj.
           exact Hcands. }
  split. { unfold items. rewrite Ikm by done. cbn [heap wk with_trace]. rewrite Hj.
           exact Htop. }
  split; [done|]. split; [done|]. split; [done|].
  eapply timing_ok_impl; [exact Okm|].
  intros d (d1 & x1 & (d0 & x0 & (R1 & R2 & R3 & R4 & R5 & _ & _) & ->) & ->).
  destruct R1 as [y1 R1], R2 as [y2 R2], R3 as [y3 R3].
  unfold fully_timed.
  repeat split; try (eexists; by simplify_map_eq); by simplify_map_eq.
Qed.


(** What a retrieval leaves behind, whether it returned or raised: its own
    call recorded, the cache and the clock as they were. *)
Lemma for_each_final {A} (f : A -> M unit) (P : world -> world -> Prop) :
  (forall w, P w w) ->
  (forall w1 w2 w3, P w1 w2 -> P w2 w3 -> P w1 w3) ->
  (forall x w, P w (final (f x w))) ->
  forall l w, P w (final (for_each f l w)).
Proof.
  intros Hrefl Htrans Hf. induction l as [|x l IH]; intros w; [apply Hrefl|].
  cbn [for_each]. unfold bind. pose proof (Hf x w) as Hx.
  destruct (f x w) as [u w1|e w1]; cbn [final] in *; [|done].
  eapply Htrans; [exact Hx|apply IH].
Qed.

Lemma retrieve_loop_final candidates (l : list (Score * row)) w :
  let r := for_each (fun dr =>
                       md <- lift (metadata_dict (row_metadata (snd dr))) ;;
                       c <- alloc (ODict (candidate_dict (snd dr) md (fst dr))) ;;
                       list_append candidates c) l w in
  trace (final r) = trace w /\ globals (final r) = globals w
  /\ ticks (final r) = ticks w.
Proof.
  cbv zeta.
  apply (for_each_final _ (fun w w' => trace w' = trace w /\ globals w' = globals w
                                       /\ ticks w' = ticks w)).
  - done.
  - intros w1 w2 w3 (T1 & G1 & K1) (T2 & G2 & K2). by rewrite T2, G2, K2.
  - intros dr w0. unfold bind, lift, alloc, list_append, read_list, modify, ret, raise.
    destruct (metadata_dict (row_metadata dr.2)) as [e|md]; [done|].
    unfold bind. cbn [heap with_heap]. repeat case_match; by simplify_eq.
Qed.

Lemma retrieve_final self question w :
  let r := retrieve_candidates self question w in
  trace (final r) = trace w ++ [EvRetrieve question]
  /\ globals (final r) = globals w /\ ticks (final r) = ticks w.
Proof.
  cbv zeta. unfold retrieve_candidates.
  set (w0 := with_trace (trace w ++ [EvRetrieve question]) w).
  rewrite (bind_Ok _ _ _ tt w0) by done. cbv beta.
  destruct (encode (embed_model self) question) as [e|q_emb]; [done|].
  rewrite (bind_Ok _ _ _ q_emb w0) by done. cbv beta.
  destruct (select_nearest _ _ _) as [e|fetched]; [done|].
  rewrite (bind_Ok _ _ _ fetched w0) by done. cbv beta.
  set (w1 := with_heap (heap w ++ [OList []]) w0).
  rewrite (bind_Ok _ _ _ (length (heap w)) w1) by done. cbv beta.
  pose proof (retrieve_loop_final (length (heap w)) fetched w1) as Hloop.
  cbv zeta in Hloop. unfold bind.
  destruct (for_each _ fetched w1) as [u w2|e w2]; exact Hloop.
Qed.

(** Whether a retrieval raises, and what, does not depend on the state. *)
Lemma retrieve_raise_frame self question w e w1 w2 :
  retrieve_candidates self question w = Raise e w1 ->
  exists w2', retrieve_candidates self question w2 = Raise e w2'.
Proof.
  intros Hrun.
  pose proof (retrieve_candidates_spec self question w) as Hw.
  pose proof (retrieve_candidates_spec self question w2) as Hw2.
  cbv zeta in Hw, Hw2.
  destruct (encode (embed_model self) question) as [e0|q_emb].
  { rewrite Hw in Hrun. inversion Hrun; subst. by eexists. }
  destruct (select_nearest _ _ _) as [e0|fetched].
  { rewrite Hw in Hrun. inversion Hrun; subst. by eexists. }
  destruct (decode_all fetched) as [e0|mds].
  - destruct Hw as [w'' Hw]. rewrite Hw in Hrun. inversion Hrun; subst. exact Hw2.
  - by rewrite Hw in Hrun.
Qed.

(** X18: what the retrieval raises, [answer] raises.  When
    [retrieve_candidates] fails on a query that is not blank (the embedding
    model, the store or a row's metadata raising), [answer] raises the same
    exception; only the retrieval has been called, neither the re-ranking
    nor the generator, and the model cache is as it was. *)
Theorem X18_retrieval_error_propagates
    (self : RagQueryEngine) (search_query : text) (question : option text)
    (llm_callable : text -> loc -> M text) (measure_time : bool)
    (w w1 : world) (e : exn) :
  str_falsy (strip search_query) = false ->
  retrieve_candidates self search_query w = Raise e w1 ->
  exists w',
    answer self (Some search_query) question llm_callable measure_time w = Raise e w'
    /\ trace w' = trace w ++ [EvRetrieve search_query]
    /\ globals w' = globals w.
Proof.
  intros Hstrip Hret.
  assert (exists t w0,
             (if measure_time then t <- alloc (ODict ∅) ;; ret (Some t) else ret None) w
             = Ok t w0 /\ trace w0 = trace w /\ globals w0 = globals w)
    as (t & w0 & Hw0 & T0 & G0).
  { destruct measure_time; eexists _, _; (split; [reflexivity|done]). }
  destruct (start_timer_run measure_time t w0) as (s1 & wa & Hs1 & (Ta & Ga & _) & _).
  destruct (retrieve_raise_frame _ _ _ _ _ wa Hret) as (w' & Hraise).
  pose proof (retrieve_final self search_query wa) as Hfin. cbv zeta in Hfin.
  rewrite Hraise in Hfin. cbn [final] in Hfin. destruct Hfin as (Tf & Gf & _).
  exists w'. split.
  - unfold answer.
    assert (E : match question with
                | Some _ => question
                | None => Some search_query
                end = Some (default search_query question)) by (by destruct question).
    rewrite E. clear E.
    rewrite (bind_Ok _ _ _ _ _ Hw0). cbv beta iota.
    unfold answer_from. rewrite Hstrip.
    rewrite (bind_Ok _ _ _ _ _ Hs1). cbv beta.
    by rewrite (bind_Raise _ _ _ _ _ Hraise).
  - split; [by rewrite Tf, Ta, T0|by rewrite Gf, Ga, G0].
Qed.


(** ** Comparing re-rank models ([rerank_improved.compare_rerank_models]) *)

(** [f"{top_score:.3f}"]: only a number can be formatted this way. *)
Definition format_3f (v : value) : M unit :=
  match v with
  | VFloat _ | VInt _ => ret tt
  | _ => raise TypeError
  end.

(** [if reranked: top_score = reranked[0].get("rerank_score", 0); print(...)] *)
Definition report_top_score (reranked : loc) : M unit :=
  rs <- read_list reranked ;;
  match rs with
  | [] => ret tt
  | r0 :: _ => top_score <- dict_get r0 "rerank_score" (VInt 0) ;; format_3f top_score
  end.

(** The loop [for model_alias in models] with the dict [results] it fills. *)
Fixpoint compare_loop (question : text) (chunks : loc) (top_n : Z)
    (models : list string) (results : gmap string loc) : M (gmap string loc) :=
  match models with
  | [] => ret results
  | model_alias :: models' =>
      reranked <- rerank_chunks question chunks top_n (Some model_alias) ;;
      let results := <[model_alias := reranked]> results in
      report_top_score reranked ;;
      compare_loop question chunks top_n models' results
  end.

Definition compare_rerank_models (question : text) (chunks : loc)
    (models : list string) (top_n : Z) : M (gmap string loc) :=
  compare_loop question chunks top_n models ∅.

(** The model name a name or alias stands for, [rerank_chunks] and
    [get_rerank_model] each resolving it in turn. *)
Definition resolved (a : string) : string :=
  let n := literal_get RERANK_MODELS a a in
  literal_get RERANK_MODEL_ALIASES n n.

(** [o] is a copy of one of the chunks [cs] with a score added. *)
Definition scored_copy_of (h : list obj) (cs : list loc) (o : loc) : Prop :=
  exists c d s, c ∈ cs /\ dict_at h c = Some d
                /\ dict_at h o = Some (<["rerank_score" := VFloat s]> d).

(** What an entry of the comparison holds: [min(top_n, number of chunks)]
    scored copies, all created after the store had [n] objects. *)
Definition ranked_copies (h : list obj) (cs : list loc) (top_n : Z) (n : nat)
    (r : loc) : Prop :=
  exists out, items h r = Some out
              /\ length out = Nat.min (Z.to_nat top_n) (length cs)
              /\ forall o, o ∈ out -> (n <= o)%nat /\ scored_copy_of h cs o.

Lemma scored_copy_of_app h1 h2 cs o :
  scored_copy_of h1 cs o -> scored_copy_of (h1 ++ h2) cs o.
Proof.
  intros (c & d & s & Hc & Hd & Ho). exists c, d, s. split; [done|].
  rewrite !dict_at_app_l by (by eapply dict_at_lt). done.
Qed.

Lemma ranked_copies_app h1 h2 cs top_n n n' r :
  (n' <= n)%nat -> ranked_copies h1 cs top_n n r -> ranked_copies (h1 ++ h2) cs top_n n' r.
Proof.
  intros Hn (out & Hr & Hlen & Hout). exists out.
  split; [by rewrite items_app_l by (by eapply items_lt)|]. split; [done|].
  intros o Ho. destruct (Hout o Ho) as [Hge Hcopy]. split; [lia|].
  by apply scored_copy_of_app.
Qed.

Lemma get_rerank_model_loads name w :
  (forall n, CrossEncoder_ok n (literal_get RERANK_MODEL_ALIASES name name) = true) ->
  exists h w1,
    get_rerank_model name w = Ok (Some h) w1
    /\ heap w1 = heap w
    /\ _rerank_model_name w1 = Some (literal_get RERANK_MODEL_ALIASES name name)
    /\ _embedding_model w1 = _embedding_model w
    /\ _embedding_model_name w1 = _embedding_model_name w.
Proof.
  intros Hok.
  pose proof (get_rerank_model_final name w) as Hfin. cbv zeta in Hfin.
  assert (exists r w1, get_rerank_model name w = Ok r w1) as (r & w1 & Hrun).
  { destruct (rerank_hit_or_miss (literal_get RERANK_MODEL_ALIASES name name) w)
      as [(h & Hm & Hn)|Hmiss].
    - rewrite (get_rerank_model_hit name h w Hm Hn). by eexists _, _.
    - rewrite (get_rerank_model_miss name w Hmiss). cbv zeta. rewrite Hok.
      by eexists _, _. }
  rewrite Hrun in Hfin. cbn [final] in Hfin. destruct Hfin as (Em & En & Hh & _).
  destruct (get_rerank_model_cached _ _ _ _ Hrun) as (h & -> & _ & Hname).
  by exists h, w1.
Qed.

Lemma rerank_chunks_step question chunks top_n a w cs :
  items (heap w) chunks = Some cs ->
  cs <> [] ->
  (forall c, c ∈ cs -> is_Some (dict_at (heap w) c)) ->
  (forall n, CrossEncoder_ok n (resolved a) = true) ->
  (forall h ps, exists ss, predict h ps = inr ss /\ length ss = length ps) ->
  0 <= top_n ->
  exists r w' ext,
    rerank_chunks question chunks top_n (Some a) w = Ok r w'
    /\ heap w' = heap w ++ ext
    /\ ranked_copies (heap w') cs top_n (length (heap w)) r
    /\ _rerank_model_name w' = Some (resolved a)
    /\ _embedding_model w' = _embedding_model w
    /\ _embedding_model_name w' = _embedding_model_name w.
Proof.
  intros Hitems Hne Hd Hok Hpred Hn.
  destruct (get_rerank_model_loads (literal_get RERANK_MODELS a a) w Hok)
    as (m & w1 & Hload & Hheap & Hname & Hem & Hen).
  destruct (Hpred m (pairs_get (heap w) question cs)) as (scores & Hscores & Hlen).
  assert (Hlen' : length scores = length cs).
  { rewrite Hlen. unfold pairs_get. by rewrite length_map. }
  destruct (rerank_chunks_run question chunks top_n (Some a) w cs m w1 scores
              Hitems Hne Hd Hload Hscores) as (k & Hk & Hrun); [lia|].
  set (base := length (heap w)) in *.
  set (hc := heap w ++ map (copy_with_score (heap w)) (zip cs scores)) in *.
  set (copies := seq base (length cs)) in *.
  set (out := slice_to top_n (ranking k copies)) in *.
  assert (Hzl : length (zip cs scores) = length cs).
  { rewrite length_zip_with. lia. }
  assert (Hhc : length hc = (base + length cs)%nat).
  { unfold hc. by rewrite length_app, length_map, Hzl. }
  eexists _, _, (map (copy_with_score (heap w)) (zip cs scores) ++ [OList out]).
  split; [exact Hrun|]. cbn [heap with_heap _rerank_model_name _embedding_model
                             _embedding_model_name with_trace].
  split; [unfold hc; by rewrite <- app_assoc|].
  split; [|done].
  exists out. split. { fold hc. rewrite <- Hhc. apply items_new. }
  split.
  { unfold out. rewrite slice_to_length by done. unfold ranking, sorted_reverse.
    rewrite length_map, (Permutation_length (sort_stable_perm _ _)).
    unfold copies. by rewrite length_map, length_seq. }
  intros o Ho.
  assert (Hoc : o ∈ copies).
  { apply (subseteq_take_slice top_n) in Ho.
    unfold ranking, sorted_reverse in Ho.
    apply list_elem_of_In, in_map_iff in Ho as ([s o'] & <- & Hin).
    apply list_elem_of_In in Hin. rewrite sort_stable_perm in Hin.
    by apply list_elem_of_In, in_map_iff in Hin
      as (o'' & [= _ <-] & ?%list_elem_of_In). }
  apply elem_of_seq in Hoc as [Hge Hlt]. split; [lia|].
  destruct (lookup_lt_is_Some_2 (zip cs scores) (o - base)%nat) as [[c s] Hcs];
    [lia|].
  pose proof Hcs as Hcs'.
  apply lookup_zip_with_Some in Hcs' as (c' & s' & [= <- <-] & Hc & Hs).
  assert (Hcin : c ∈ cs) by (by eapply list_elem_of_lookup_2).
  destruct (Hd c Hcin) as [d Hdc].
  exists c, d, s. split; [done|].
  split.
  { rewrite dict_at_app_l by (rewrite Hhc; pose proof (dict_at_lt _ _ _ Hdc); lia).
    unfold hc. rewrite dict_at_app_l by (by eapply dict_at_lt). done. }
  rewrite dict_at_app_l by (rewrite Hhc; lia).
  replace o with (base + (o - base))%nat at 1 by lia.
  unfold dict_at, hc. unfold base in Hcs |- *. rewrite copies_lookup, Hcs. cbn.
  by rewrite Hdc.
Qed.

Lemma report_top_score_run h cs top_n n r w :
  heap w = h -> ranked_copies h cs top_n n r -> report_top_score r w = Ok tt w.
Proof.
  intros <- (out & Hr & _ & Hout). unfold report_top_score.
  rewrite (bind_Ok _ _ _ out w (read_list_ok r out w Hr)).
  destruct out as [|o out']; [done|].
  destruct (Hout o) as (_ & c & d & s & _ & _ & Ho); [by left|].
  rewrite (bind_Ok _ _ _ _ _ (dict_get_ok o "rerank_score" (VInt 0) _ w Ho)).
  by rewrite lookup_insert_eq.
Qed.

Lemma compare_loop_run question chunks top_n cs models :
  cs <> [] ->
  (forall a n, a ∈ models -> CrossEncoder_ok n (resolved a) = true) ->
  (forall h ps, exists ss, predict h ps = inr ss /\ length ss = length ps) ->
  0 <= top_n ->
  forall results w,
    items (heap w) chunks = Some cs ->
    (forall c, c ∈ cs -> is_Some (dict_at (heap w) c)) ->
    exists results' w' ext,
      compare_loop question chunks top_n models results w = Ok results' w'
      /\ heap w' = heap w ++ ext
      /\ dom results' = dom results ∪ list_to_set models
      /\ (forall a r, results' !! a = Some r ->
            ((a ∉ models) /\ results !! a = Some r)
            \/ (a ∈ models
                /\ ranked_copies (heap w') cs top_n (length (heap w)) r))
      /\ _rerank_model_name w'
         = from_option (fun a => Some (resolved a)) (_rerank_model_name w) (last models)
      /\ _embedding_model w' = _embedding_model w
      /\ _embedding_model_name w' = _embedding_model_name w.
Proof using Type.
  intros Hne Hok Hpred Hn.
  induction models as [|a ms IH]; intros results w Hitems Hd.
  { exists results, w, []. cbn. rewrite app_nil_r. split; [done|]. split; [done|].
    split; [by rewrite union_empty_r_L|]. split; [|done]. intros a r Hr. left. split; [|done].
    apply not_elem_of_nil. }
  destruct (rerank_chunks_step question chunks top_n a w cs Hitems Hne Hd)
    as (r & w1 & ext1 & Hrun & Hh1 & Hr & Hname1 & Hem1 & Hen1); try done.
  { intros n. apply Hok. by left. }
  pose proof (report_top_score_run _ _ _ _ _ w1 eq_refl Hr) as Hrep.
  destruct (IH (fun b n Hb => Hok b n (list_elem_of_further _ _ _ Hb))
              (<[a := r]> results) w1)
    as (results' & w' & ext2 & Hloop & Hh2 & Hdom & Hres & Hname & Hem & Hen).
  { rewrite Hh1. by rewrite items_app_l by (by eapply items_lt). }
  { intros c Hc. rewrite Hh1. destruct (Hd c Hc) as [d Hdc].
    rewrite dict_at_app_l by (by eapply dict_at_lt). by exists d. }
  exists results', w', (ext1 ++ ext2).
  split.
  { cbn [compare_loop]. rewrite (bind_Ok _ _ _ _ _ Hrun). cbv beta zeta.
    by rewrite (bind_Ok _ _ _ _ _ Hrep). }
  split. { by rewrite Hh2, Hh1, <- app_assoc. }
  split. { rewrite Hdom, dom_insert_L. apply list_to_set_cons_union. }
  split.
  { intros b r' Hb. destruct (Hres b r' Hb) as [[Hnot Hin]|[Hin Hgood]].
    - destruct (decide (a = b)) as [<-|Hab].
      + rewrite lookup_insert_eq in Hin. inversion Hin; subst r'. right.
        split; [by left|]. rewrite Hh2.
        eapply ranked_copies_app; [|exact Hr]. lia.
      + rewrite lookup_insert_ne in Hin by done. left. split; [|done].
        intros [?|?]%elem_of_cons; done.
    - right. split; [by right|]. destruct Hgood as (out & Ho & Hl & Hall).
      exists out. split; [done|]. split; [done|]. intros o Hoo.
      destruct (Hall o Hoo) as [Hge Hcopy]. split; [|done].
      rewrite Hh1, length_app in Hge. lia. }
  split.
  { rewrite Hname, Hname1, last_cons. by destruct (last ms). }
  split; [by rewrite Hem|by rewrite Hen].
Qed.

(** X19: [compare_rerank_models] on chunks that are dicts, when every
    model named loads and the cross-encoders return one score per pair,
    returns a dict with exactly the requested aliases as keys; each entry
    is a list of [min(top_n, number of chunks)] scored copies made for this
    entry, and the chunks passed in are unchanged (no score is written to
    them).  The comparison goes through the shared model cache: afterwards
    the cache holds the model of the last alias compared, whatever it held
    before, and the embedding slot is untouched. *)
Theorem X19_compare_rerank_models_entries
    (question : text) (chunks : loc) (models : list string) (top_n : Z)
    (w : world) (cs : list loc) :
  items (heap w) chunks = Some cs ->
  cs <> [] ->
  forallb (is_dict (heap w)) cs = true ->
  (forall a n, a ∈ models -> CrossEncoder_ok n (resolved a) = true) ->
  (forall h ps, exists ss, predict h ps = inr ss /\ length ss = length ps) ->
  0 <= top_n ->
  exists results w',
    compare_rerank_models question chunks models top_n w = Ok results w'
    /\ dom results = list_to_set models
    /\ (forall a r, results !! a = Some r ->
          ranked_copies (heap w') cs top_n (length (heap w)) r)
    /\ (forall i, (i < length (heap w))%nat -> heap w' !! i = heap w !! i)
    /\ _rerank_model_name w'
       = from_option (fun a => Some (resolved a)) (_rerank_model_name w) (last models)
    /\ _embedding_model w' = _embedding_model w
    /\ _embedding_model_name w' = _embedding_model_name w.
Proof using Type.
  intros Hitems Hne Hdict Hok Hpred Hn.
  destruct (compare_loop_run question chunks top_n cs models Hne Hok Hpred Hn ∅ w
              Hitems (is_dict_all _ _ Hdict))
    as (results & w' & ext & Hrun & Hh & Hdom & Hres & Hname & Hem & Hen).
  exists results, w'. split; [exact Hrun|].
  split. { by rewrite Hdom, dom_empty_L, union_empty_l_L. }
  split. { intros a r Hr. by destruct (Hres a r Hr) as [[_ ?]|[_ ?]]. }
  split. { intros i Hi. rewrite Hh. by rewrite lookup_app_l. }
  done.
Qed.

(** X20: on an empty chunk list [compare_rerank_models] loads no model at
    all: every alias, loadable or not, gets a new empty list and nothing
    but these lists is added to the state. *)
Theorem X20_compare_rerank_models_empty_input
    (question : text) (chunks : loc) (models : list string) (top_n : Z) (w : world) :
  items (heap w) chunks = Some [] ->
  exists results w',
    compare_rerank_models question chunks models top_n w = Ok results w'
    /\ dom results = list_to_set models
    /\ (forall a r, results !! a = Some r -> items (heap w') r = Some [])
    /\ trace w' = trace w /\ globals w' = globals w /\ attempts w' = attempts w
    /\ heap w' = heap w ++ replicate (length models) (OList []).
Proof using Type.
  intros Hitems. unfold compare_rerank_models.
  assert (forall results w,
             items (heap w) chunks = Some [] ->
             exists results' w',
               compare_loop question chunks top_n models results w = Ok results' w'
               /\ dom results' = dom results ∪ list_to_set models
               /\ (forall a r, results' !! a = Some r ->
                     results !! a = Some r \/ items (heap w') r = Some [])
               /\ trace w' = trace w /\ globals w' = globals w
               /\ attempts w' = attempts w
               /\ heap w' = heap w ++ replicate (length models) (OList [])) as Hloop.
  { clear w Hitems. induction models as [|a ms IH]; intros results w Hitems.
    { exists results, w. cbn. rewrite app_nil_r. split; [done|].
      split; [by rewrite union_empty_r_L|]. split; [by left|done]. }
    set (w1 := with_heap (heap w ++ [OList []]) w).
    assert (Hrun : rerank_chunks question chunks top_n (Some a) w
                   = Ok (length (heap w)) w1).
    { unfold rerank_chunks.
      by rewrite (bind_Ok _ _ _ [] w (read_list_ok chunks [] w Hitems)). }
    assert (Hnew : items (heap w1) (length (heap w)) = Some []) by apply items_new.
    assert (Hrep : report_top_score (length (heap w)) w1 = Ok tt w1).
    { unfold report_top_score.
      by rewrite (bind_Ok _ _ _ [] w1 (read_list_ok _ [] w1 Hnew)). }
    destruct (IH (<[a := length (heap w)]> results) w1)
      as (results' & w' & Hl & Hdom & Hres & T & G & A & Hh).
    { cbn [heap w1 with_heap]. by rewrite items_app_l by (by eapply items_lt). }
    exists results', w'. split.
    { cbn [compare_loop]. rewrite (bind_Ok _ _ _ _ _ Hrun). cbv beta zeta.
      by rewrite (bind_Ok _ _ _ _ _ Hrep). }
    split. { rewrite Hdom, dom_insert_L. apply list_to_set_cons_union. }
    split.
    { intros b r Hb. destruct (Hres b r Hb) as [Hin|?]; [|by right].
      destruct (decide (a = b)) as [<-|Hab].
      - rewrite lookup_insert_eq in Hin. inversion Hin; subst r. right.
        rewrite Hh. by rewrite items_app_l by (by eapply items_lt).
      - rewrite lookup_insert_ne in Hin by done. by left. }
    split; [by rewrite T|]. split; [by rewrite G|]. split; [by rewrite A|].
    rewrite Hh. cbn [heap w1 with_heap length replicate]. by rewrite <- app_assoc. }
  destruct (Hloop ∅ w Hitems) as (results & w' & Hrun & Hdom & Hres & T & G & A & Hh).
  exists results, w'. split; [exact Hrun|].
  split. { by rewrite Hdom, dom_empty_L, union_empty_l_L. }
  split. { intros a r Hr. by destruct (Hres a r Hr) as [?|?]. }
  done.
Qed.


(** ** The connection string ([query_improved.py], module level) *)

(** [s.startswith(p)] *)
Fixpoint startswith (p s : text) : bool :=
  match p, s with
  | [], _ => true
  | _ :: _, [] => false
  | a :: p', b :: s' => (a =? b)%N && startswith p' s'
  end.

(** [sep in s] *)
Fixpoint contains (sep s : text) : bool :=
  startswith sep s
  || match s with
     | [] => false
     | _ :: s' => contains sep s'
     end.

(** [s.split(sep)[0]] for a separator that is not empty: the text before
    the leftmost occurrence of [sep], all of [s] when there is none. *)
Fixpoint split_0 (sep s : text) : text :=
  if startswith sep s then []
  else match s with
       | [] => []
       | c :: s' => c :: split_0 sep s'
       end.

Definition DEFAULT_DATABASE_URL : text :=
  lit "postgresql://tzahimoyal@localhost:5432/talbashanai".

(** [DATABASE_URL], from the value of the environment variable of the
    same name ([None] when it is not set). *)
Definition DATABASE_URL (env : option text) : text :=
  let _raw_database_url := default DEFAULT_DATABASE_URL env in
  if contains (lit "?schema=") _raw_database_url
  then split_0 (lit "?schema=") _raw_database_url
  else _raw_database_url.

Lemma startswith_prefix p s : startswith p s = true <-> p `prefix_of` s.
Proof.
  revert s. induction p as [|a p IH]; intros s.
  - split; [intros _; apply prefix_nil|done].
  - destruct s as [|b s]; cbn.
    + split; [done|]. by intros ?%prefix_nil_inv.
    + rewrite andb_true_iff, N.eqb_eq, IH. split.
      * intros [-> Hp]. by apply prefix_cons.
      * intros Hp. split; [by eapply prefix_cons_inv_1|by eapply prefix_cons_inv_2].
Qed.

Lemma split_0_prefix sep s : split_0 sep s `prefix_of` s.
Proof.
  induction s as [|c s IH]; cbn.
  - destruct (startswith sep []); apply prefix_nil.
  - destruct (startswith sep (c :: s)); [apply prefix_nil|by apply prefix_cons].
Qed.

Lemma split_0_decomp sep s :
  contains sep s = true -> exists rest, s = split_0 sep s ++ sep ++ rest.
Proof.
  induction s as [|c s IH]; cbn [contains split_0].
  - rewrite orb_false_r. intros Hp. rewrite Hp.
    apply startswith_prefix in Hp as [rest Hrest]. by exists rest.
  - destruct (startswith sep (c :: s)) eqn:Hp.
    + intros _. apply startswith_prefix in Hp as [rest Hrest]. by exists rest.
    + cbn. intros [rest Hrest]%IH. exists rest. by rewrite <- Hrest.
Qed.

Lemma split_0_no_sep sep s : sep <> [] -> contains sep (split_0 sep s) = false.
Proof.
  intros Hsep. induction s as [|c s IH]; cbn [split_0].
  - assert (contains sep [] = false) as Hnil.
    { destruct sep; [done|]. done. }
    by destruct (startswith sep []).
  - destruct (startswith sep (c :: s)) eqn:Hp.
    + destruct sep; [done|]. done.
    + cbn [contains]. rewrite IH, orb_false_r.
      apply not_true_is_false. intros Hq. apply startswith_prefix in Hq.
      assert (startswith sep (c :: s) = true); [|congruence].
      apply startswith_prefix. etrans; [exact Hq|].
      apply prefix_cons, split_0_prefix.
Qed.

Lemma split_0_none sep s : contains sep s = false -> split_0 sep s = s.
Proof.
  induction s as [|c s IH]; cbn [contains split_0].
  - by intros [-> _]%orb_false_iff.
  - intros [-> Hs]%orb_false_iff. by rewrite IH.
Qed.

(** X21: the connection string the module hands to [psycopg2] never
    contains [?schema=].  It is the configured URL up to the first
    [?schema=]: everything from there on is cut, so a parameter that
    follows the schema is lost with it, and a URL without [?schema=] is
    taken as it is. *)
Theorem X21_database_url_has_no_schema_parameter (env : option text) :
  let raw := default DEFAULT_DATABASE_URL env in
  contains (lit "?schema=") (DATABASE_URL env) = false
  /\ DATABASE_URL env `prefix_of` raw
  /\ (if contains (lit "?schema=") raw
      then exists rest, raw = DATABASE_URL env ++ lit "?schema=" ++ rest
      else DATABASE_URL env = raw).
Proof.
  cbv zeta. unfold DATABASE_URL.
  destruct (contains (lit "?schema=") (default DEFAULT_DATABASE_URL env)) eqn:Hc.
  - split; [by apply split_0_no_sep|]. split; [apply split_0_prefix|].
    by apply split_0_decomp.
  - by repeat split.
Qed.

(** ** Constructing the engine ([RagQueryEngine.__init__]) *)

(** [psycopg2.connect(database_url)]: the connection, standing for the
    table it reads, or the exception raised. *)
Variable psycopg2_connect : text -> exn + list row.

(** The getters never return [None] ([get_embedding_model_cached],
    [get_rerank_model_cached]), so the last branch is never taken; in the
    source [None] would be stored and fail at its first use. *)
Definition RagQueryEngine_init (database_url : text)
    (embedding_model_name rerank_model_name : string)
    (top_k_retrieve top_n_rerank : Z) : M RagQueryEngine :=
  conn <- lift (psycopg2_connect database_url) ;;
  embed_model <- get_embedding_model embedding_model_name ;;
  rerank_model <- get_rerank_model rerank_model_name ;;
  match embed_model, rerank_model with
  | Some e, Some r => ret (Engine conn e r top_k_retrieve top_n_rerank)
  | _, _ => raise AttributeError
  end.

Lemma RagQueryEngine_init_inv url ename rname k n w e w1 :
  RagQueryEngine_init url ename rname k n w = Ok e w1 ->
  exists t wa,
    psycopg2_connect url = inr t
    /\ get_embedding_model ename w = Ok (Some (embed_model e)) wa
    /\ get_rerank_model rname wa = Ok (Some (rerank_model e)) w1
    /\ e = Engine t (embed_model e) (rerank_model e) k n.
Proof.
  unfold RagQueryEngine_init. intros (t & w0 & Hc & H)%bind_inv_Ok.
  apply bind_inv_Ok in H as (em & wa & He & H).
  apply bind_inv_Ok in H as (rm & wb & Hr & H).
  destruct em as [eh|], rm as [rh|]; try done. inversion H; subst e w1.
  unfold lift in Hc. destruct (psycopg2_connect url) as [x|t']; [done|].
  inversion Hc; subst t' w0.
  exists t, wa. cbn [embed_model rerank_model]. done.
Qed.

(** X22: engines share the cached models.  After an engine has been
    constructed, constructing another one with the same embedding model
    name and a re-rank name that stands for the same model (the name
    itself or an alias of it) loads nothing: the state is unchanged and the
    new engine holds the very model objects of the first one, together with
    its own connection and bounds. *)
Theorem X22_engines_share_cached_models
    (url1 url2 : text) (ename rname rname' : string) (k1 n1 k2 n2 : Z)
    (w w1 : world) (e1 : RagQueryEngine) (t2 : list row) :
  RagQueryEngine_init url1 ename rname k1 n1 w = Ok e1 w1 ->
  psycopg2_connect url2 = inr t2 ->
  literal_get RERANK_MODEL_ALIASES rname' rname'
  = literal_get RERANK_MODEL_ALIASES rname rname ->
  RagQueryEngine_init url2 ename rname' k2 n2 w1
  = Ok (Engine t2 (embed_model e1) (rerank_model e1) k2 n2) w1.
Proof.
  intros Hinit Hconn Halias.
  destruct (RagQueryEngine_init_inv _ _ _ _ _ _ _ _ Hinit) as (t & wa & _ & He & Hr & _).
  destruct (get_embedding_model_cached _ _ _ _ He) as (eh & [= <-] & Hem & Hen & _).
  destruct (get_rerank_model_cached _ _ _ _ Hr) as (rh & [= <-] & Hrm & Hrn).
  pose proof (get_rerank_model_final rname wa) as Hfin. cbv zeta in Hfin.
  rewrite Hr in Hfin. cbn [final] in Hfin. destruct Hfin as (Em & En & _).
  unfold RagQueryEngine_init. rewrite Hconn.
  rewrite (bind_Ok _ _ _ t2 w1) by done. cbv beta.
  rewrite (bind_Ok _ _ _ _ _ (get_embedding_model_hit ename (embed_model e1) w1
                                ltac:(by rewrite Em) ltac:(by rewrite En))).
  cbv beta.
  rewrite (bind_Ok _ _ _ _ _ (get_rerank_model_hit rname' (rerank_model e1) w1
                                Hrm ltac:(by rewrite Halias))).
  done.
Qed.

End Pipeline.

Arguments VNone {Score Json}.
Arguments VStr {Score Json} s.
Arguments VInt {Score Json} n.
Arguments VFloat {Score Json} x.
Arguments VJson {Score Json} j.
Arguments ODict {Score Json} d.
Arguments OList {Score Json} l.
Arguments EvLoadEmbedding {Score Json} name.
Arguments EvLoadRerank {Score Json} name.
Arguments EvRetrieve {Score Json} question.
Arguments EvRerank {Score Json} question candidates.
Arguments EvPredict {Score Json} m pairs.
Arguments EvGenerate {Score Json} question chunks.
Arguments World {Score Json}.
Arguments Ok {Score Json A} a w.
Arguments Raise {Score Json A} e w.
Arguments heap {Score Json} w.
Arguments trace {Score Json} w.
Arguments ticks {Score Json} w.
Arguments attempts {Score Json} w.
Arguments globals {Score Json} w.
Arguments items {Score Json} h l.
Arguments field {Score Json} h c k.
Arguments dict_at {Score Json} h c.
Arguments MNull {Json}.
Arguments MDict {Json} j.
Arguments MStr {Json} s.
Arguments MOther {Json} truthy.
Arguments Row {Vec Json}.
Arguments Engine {Vec Json}.

(** ** A concrete instance

    Scores and distances are integers ordered by [<], embeddings are
    integers at distance [|e - q|], the encoder maps a question to its
    length, the cross-encoder scores a pair by the length of its text, every
    model loads except the one named "no-such-model", and the clock counts
    its readings. *)

Lemma Z_ltb_strict_weak : StrictWeak Z.ltb.
Proof.
  split.
  - intros x. apply Z.ltb_irrefl.
  - intros x y z H1%Z.ltb_lt H2%Z.ltb_lt. apply Z.ltb_lt. lia.
  - intros x y z H1%Z.ltb_ge H2%Z.ltb_ge. apply Z.ltb_ge. lia.
Qed.

Definition demo_loads (n : nat) (name : string) : bool :=
  negb (String.eqb name "no-such-model").

Definition demo_encode (m : handle) (q : text) : exn + Z :=
  inr (Z.of_nat (length q)).

Definition demo_score (p : text * value Z unit) : Z :=
  match snd p with
  | VStr s => Z.of_nat (length s)
  | _ => 0
  end.

Definition demo_predict (m : handle) (pairs : list (text * value Z unit))
  : exn + list Z :=
  inr (map demo_score pairs).

Definition demo_distance (e q : Z) : Z := Z.abs (e - q).

Definition demo_json_loads (s : text) : exn + unit := inr tt.

Definition demo_time (n : nat) : Z := Z.of_nat n.

Definition demo_model : handle := {| h_name := "cross-encoder/ms-marco-MiniLM-L-6-v2"; h_oid := 1 |}.
Definition demo_embedder : handle := {| h_name := "embedder"; h_oid := 0 |}.

(** A candidate dict with an id and a text. *)
Definition demo_chunk (id txt : string) : obj Z unit :=
  ODict (<["id" := VStr (lit id)]> (<["text" := VStr (lit txt)]> ∅)).

(** Three candidates, two of them with texts of the same length, the list
    [0; 1; 2] that holds them and a permutation of it. *)
Definition demo_heap : list (obj Z unit) :=
  [ demo_chunk "a" "xx"; demo_chunk "b" "yyyy"; demo_chunk "c" "zz";
    OList [0; 1; 2]%nat; OList [2; 1; 0]%nat ].

(** A candidate with an empty text, one without a "text" key, and two lists
    over them. *)
Definition demo_heap_blank : list (obj Z unit) :=
  [ demo_chunk "a" ""; ODict (<["id" := VStr (lit "b")]> ∅);
    OList [0]%nat; OList [0; 1]%nat ].

Definition demo_world (h : list (obj Z unit)) : world Z unit :=
  World h None None None None 0%nat [] 0%nat.

(** The same state once the default re-rank model has been loaded. *)
Definition demo_world_loaded (h : list (obj Z unit)) : world Z unit :=
  World h None (Some {| h_name := "cross-encoder/ms-marco-MiniLM-L-6-v2"; h_oid := 0 |})
        None (Some "cross-encoder/ms-marco-MiniLM-L-6-v2"%string) 1%nat
        [EvLoadRerank "cross-encoder/ms-marco-MiniLM-L-6-v2"] 0%nat.

(** A table of four rows, one of them without embedding. *)
Definition demo_table : list (row Z unit) :=
  [ Row (lit "r9") (Some (lit "far")) MNull None None (Some 9);
    Row (lit "r0") (Some (lit "lost")) MNull None None None;
    Row (lit "r1") (Some (lit "near")) (MDict tt) (Some (lit "doc")) (Some 4) (Some 1);
    Row (lit "r3") None (MStr (lit "{}")) None (Some 0) (Some 3) ].

Definition demo_engine (table : list (row Z unit)) (k n : Z) : RagQueryEngine Z unit :=
  Engine table demo_embedder demo_model k n.

Abbreviation demo_rerank :=
  (rerank Z Z.ltb Z unit demo_predict).
Abbreviation demo_rerank_chunks :=
  (rerank_chunks Z Z.ltb unit demo_loads demo_predict).
Abbreviation demo_retrieve :=
  (retrieve_candidates Z Z.ltb Z unit demo_encode demo_distance demo_json_loads tt).
Abbreviation demo_answer :=
  (answer Z Z.ltb Z.add Z.sub Z unit demo_encode demo_predict demo_distance
          demo_json_loads tt demo_time).
Abbreviation demo_llm := (call_llm_default Z unit).

Example demo_rerank_run :
  exists w', demo_rerank (demo_engine [] 50 2) (lit "q") 3%nat (demo_world demo_heap)
             = Ok 5%nat w'
             /\ items (heap w') 5 = Some [1; 0]%nat.
Proof. eexists. split; vm_compute; reflexivity. Qed.

Example demo_retrieve_run :
  exists w', demo_retrieve (demo_engine demo_table 2 8) (lit "") (demo_world [])
             = Ok 0%nat w'
             /\ items (heap w') 0 = Some [1; 2]%nat
             /\ field (heap w') 1 "id" = Some (VStr (lit "r1"))
             /\ field (heap w') 2 "id" = Some (VStr (lit "r3")).
Proof. eexists. repeat split; vm_compute; reflexivity. Qed.

(** ** The theorems at the concrete instance *)

Lemma C5_embedding_cache_witness :
  exists h w1,
    get_embedding_model Z unit demo_loads "X" (demo_world []) = Ok (Some h) w1
    /\ get_embedding_model Z unit demo_loads "X" w1 = Ok (Some h) w1
    /\ exists h' w2, get_embedding_model Z unit demo_loads "Y" w1 = Ok (Some h') w2
                     /\ h' <> h.
Proof.
  eassert (E : get_embedding_model Z unit demo_loads "X" (demo_world []) = Ok _ _)
    by (vm_compute; reflexivity).
  destruct (C5_embedding_cache_reuse_and_replace Z unit demo_loads "X"
              (demo_world []) _ _ eq_refl E)
    as (h & Hr & Hsame & Hother).
  destruct (Hother "Y"%string) as (h' & w2 & Hrun & Hne & _); [done|reflexivity|].
  exists h. eexists. split; [rewrite <- Hr; exact E|].
  split; [exact Hsame|]. by exists h', w2.
Defined.

Lemma C6_rerank_alias_witness :
  exists h w1,
    get_rerank_model Z unit demo_loads "fast" (demo_world []) = Ok (Some h) w1
    /\ get_rerank_model Z unit demo_loads "fast" w1 = Ok (Some h) w1
    /\ get_rerank_model Z unit demo_loads "cross-encoder/ms-marco-MiniLM-L-6-v2" w1
       = Ok (Some h) w1.
Proof.
  eassert (E : get_rerank_model Z unit demo_loads "fast" (demo_world []) = Ok _ _)
    by (vm_compute; reflexivity).
  destruct (C6_rerank_alias_hits_cache Z unit demo_loads "fast" _ _ _
              (or_introl eq_refl) E)
    as (_ & _ & h & Hr & _ & Halias & Hactual).
  exists h. eexists. split; [rewrite <- Hr; exact E|]. by split.
Defined.

Lemma C7_failed_load_witness :
  (exists w', get_embedding_model Z unit demo_loads "no-such-model"
                (demo_world_loaded [])
              = Raise (ModelLoadError "no-such-model") w'
              /\ globals w' = globals (demo_world_loaded []))
  /\ (exists w', get_rerank_model Z unit demo_loads "no-such-model"
                   (demo_world_loaded [])
                 = Raise (ModelLoadError "no-such-model") w'
                 /\ globals w' = globals (demo_world_loaded [])).
Proof.
  destruct (C7_failed_load_keeps_cache Z unit demo_loads demo_loads
              (demo_world_loaded []) "no-such-model" "no-such-model")
    as [(w' & He & Hg & _) (w'' & Hr & Hg' & _)].
  - reflexivity.
  - left. reflexivity.
  - reflexivity.
  - right. vm_compute. discriminate.
  - split; [by exists w'|by exists w''].
Defined.

Lemma C1_rerank_witness :
  (exists r w' out,
      demo_rerank (demo_engine [] 50 2) (lit "q") 3%nat (demo_world_loaded demo_heap)
      = Ok r w'
      /\ items (heap w') r = Some out /\ length out = 2%nat)
  /\ (exists r w' out,
      demo_rerank_chunks (lit "q") 3%nat 2 None (demo_world_loaded demo_heap) = Ok r w'
      /\ items (heap w') r = Some out /\ length out = 2%nat).
Proof.
  destruct (C1_rerank_top_n_sorted_stable Z Z.ltb Z unit demo_loads demo_predict
              Z_ltb_strict_weak (demo_engine [] 50 2) (lit "q") 3%nat 2 None
              (demo_world_loaded demo_heap) [0; 1; 2]%nat)
    as [H1 H2]; [reflexivity|discriminate|lia|].
  destruct (H1 [2; 4; 2]) as (r & w' & out & R1 & R2 & R3 & _);
    try (vm_compute; reflexivity).
  destruct (H2 {| h_name := "cross-encoder/ms-marco-MiniLM-L-6-v2"; h_oid := 0 |}
               (demo_world_loaded demo_heap) [2; 4; 2])
    as (r' & w'' & out' & G1 & G2 & G3 & _);
    try (vm_compute; reflexivity).
  split; [by exists r, w', out|by exists r', w'', out'].
Defined.

Lemma C2_pairs_witness :
  (exists r w',
      demo_rerank (demo_engine [] 50 2) (lit "q") 2%nat (demo_world_loaded demo_heap_blank)
      = Ok r w'
      /\ trace w' = trace (demo_world_loaded demo_heap_blank) ++
           [EvRerank (lit "q") 2%nat; EvPredict demo_model [(lit "q", VStr [])]])
  /\ (exists r w',
      demo_rerank_chunks (lit "q") 3%nat 2 None (demo_world_loaded demo_heap_blank)
      = Ok r w'
      /\ trace w' = trace (demo_world_loaded demo_heap_blank) ++
           [EvPredict {| h_name := "cross-encoder/ms-marco-MiniLM-L-6-v2"; h_oid := 0 |}
              [(lit "q", VStr []); (lit "q", VStr [])]]).
Proof.
  destruct (C2_every_candidate_is_paired_and_scored Z Z.ltb Z unit demo_loads demo_predict
              (demo_engine [] 50 2) (lit "q") 2%nat 3%nat 2 None
              (demo_world_loaded demo_heap_blank) (demo_world_loaded demo_heap_blank)
              [0]%nat [0; 1]%nat
              {| h_name := "cross-encoder/ms-marco-MiniLM-L-6-v2"; h_oid := 0 |}
              [0] [0; 0])
    as [(r & w' & H1 & H2 & _) (r' & w'' & G1 & G2)];
    try (vm_compute; reflexivity); try discriminate.
  split.
  - exists r, w'. split; [exact H1|]. rewrite H2. vm_compute. reflexivity.
  - exists r', w''. split; [exact G1|]. rewrite G2. vm_compute. reflexivity.
Defined.

Lemma C10_rerank_in_place_witness :
  exists r w',
    demo_rerank (demo_engine [] 50 2) (lit "q") 3%nat (demo_world demo_heap) = Ok r w'
    /\ (exists s, field (heap w') 2 "rerank_score" = Some (VFloat s))
    /\ items (heap w') 3 = Some [0; 1; 2]%nat
    /\ r <> 3%nat.
Proof.
  destruct (C10_rerank_scores_input_in_place Z Z.ltb Z unit demo_predict
              (demo_engine [] 50 2) (lit "q") 3%nat (demo_world demo_heap)
              [0; 1; 2]%nat [2; 4; 2])
    as (r & w' & out & H1 & H2 & _ & H4 & H5 & _);
    try (vm_compute; reflexivity).
  - discriminate.
  - exists r, w'. split; [exact H1|]. split; [|by split].
    apply H2. apply list_elem_of_In. right. right. by left.
Defined.

Lemma C8_permuted_input_witness :
  exists r1 w1 out1 r2 w2 out2,
    demo_rerank (demo_engine [] 50 1) (lit "q") 3%nat (demo_world demo_heap) = Ok r1 w1
    /\ demo_rerank (demo_engine [] 50 1) (lit "q") 4%nat (demo_world demo_heap) = Ok r2 w2
    /\ items (heap w1) r1 = Some out1
    /\ items (heap w2) r2 = Some out2
    /\ out1 ≡ₚ out2.
Proof.
  destruct (C8_permuted_input_same_top_n_without_tie_at_cut Z Z.ltb Z unit demo_predict
              Z_ltb_strict_weak (demo_engine [] 50 1) (lit "q") 3%nat 4%nat
              (demo_world demo_heap) [0; 1; 2]%nat [2; 1; 0]%nat demo_score)
    as (r1 & w1 & out1 & r2 & w2 & out2 & H1 & H2 & H3 & H4 & H5 & _);
    try (vm_compute; reflexivity).
  - change [2; 1; 0]%nat with (rev [0; 1; 2]%nat). apply Permutation_rev.
  - discriminate.
  - intros k n x y Hx Hy. vm_compute in Hx, Hy.
    injection Hx as <-. injection Hy as <-. vm_compute. reflexivity.
  - by exists r1, w1, out1, r2, w2, out2.
Defined.

Lemma C9_retrieve_witness :
  exists r w' out,
    demo_retrieve (demo_engine demo_table 2 8) (lit "") (demo_world []) = Ok r w'
    /\ items (heap w') r = Some out
    /\ Z.of_nat (length out) <= 2.
Proof.
  eassert (E : demo_retrieve (demo_engine demo_table 2 8) (lit "") (demo_world [])
               = Ok _ _) by (vm_compute; reflexivity).
  destruct (C9_retrieve_bounded_nonnull_ascending Z Z.ltb Z unit demo_encode
              demo_distance demo_json_loads tt Z_ltb_strict_weak _ _ _ _ _ E)
    as [(out & H1 & H2 & _) _].
  eexists _, _, out. split; [exact E|]. split; [exact H1|exact H2].
Defined.

Lemma C3_blank_query_witness :
  exists none w',
    demo_answer (demo_engine demo_table 2 8) (Some [32; 9; 160]%N) None demo_llm false
                (demo_world [])
    = Ok (EMPTY_QUESTION, none, None) w'
    /\ trace w' = [].
Proof.
  destruct (C3_blank_query_returns_sentinel_without_calls Z Z.ltb Z.add Z.sub Z unit
              demo_encode demo_predict demo_distance demo_json_loads tt demo_time
              (demo_engine demo_table 2 8) [32; 9; 160]%N None demo_llm false
              (demo_world []))
    as (none & w' & H1 & _ & _ & H4 & _).
  - reflexivity.
  - by exists none, w'.
Defined.

Lemma C4_no_candidates_witness :
  exists none timing w',
    demo_answer (demo_engine demo_table 0 8) (Some (lit "why")) None demo_llm true
                (demo_world [])
    = Ok (NO_CANDIDATES, none, timing) w'
    /\ trace w' = [EvRetrieve (lit "why")].
Proof.
  eassert (E : demo_retrieve (demo_engine demo_table 0 8) (lit "why") (demo_world [])
               = Ok _ _) by (vm_compute; reflexivity).
  destruct (C4_no_candidates_returns_sentinel_without_rerank Z Z.ltb Z.add Z.sub Z unit
              demo_encode demo_predict demo_distance demo_json_loads tt demo_time
              (demo_engine demo_table 0 8) (lit "why") None demo_llm true
              (demo_world []) _ _ eq_refl E eq_refl)
    as (none & timing & w' & H1 & _ & H3 & _).
  by exists none, timing, w'.
Defined.

(** ** The further properties at the concrete instance *)

(** A generator that answers with the question it is given. *)
Definition demo_echo (question : text) (context_chunks : nat) : M Z unit text :=
  fun w => Ok question w.

(** A table of one row and a store holding one empty list. *)
Definition demo_table_one : list (row Z unit) :=
  [ Row (lit "r1") (Some (lit "near")) MNull None None (Some 1) ].
Definition demo_heap_empty_list : list (obj Z unit) := [ OList [] ].

(** A connection that always succeeds and reads [demo_table_one]. *)
Definition demo_connect (database_url : text) : exn + list (row Z unit) :=
  inr demo_table_one.

Lemma demo_predict_scores_every_pair (h : handle) (ps : list (text * value Z unit)) :
  exists ss, demo_predict h ps = inr ss /\ length ss = length ps.
Proof. exists (map demo_score ps). split; [reflexivity|apply length_map]. Qed.

Lemma X1_cache_witness :
  cache_coherent Z unit
    (final Z unit (get_embedding_model Z unit demo_loads "X" (demo_world_loaded [])))
  = true.
Proof.
  destruct (X1_cache_slots_independent_and_coherent Z unit demo_loads demo_loads
              "X" "fast" (demo_world_loaded []) eq_refl) as [(H & _) _].
  exact H.
Defined.

Lemma X2_clear_cache_witness :
  exists w0, clear_cache Z unit (demo_world_loaded []) = Ok tt w0
             /\ globals w0 = (None, None, None, None).
Proof.
  destruct (X2_clear_cache_forces_reload Z unit demo_loads demo_loads "X" "fast"
              (demo_world_loaded []) eq_refl eq_refl eq_refl)
    as (w0 & H1 & H2 & _).
  by exists w0.
Defined.

Lemma X3_embedding_loads_witness :
  exists hs w',
    map_m Z unit (get_embedding_model Z unit demo_loads) ["X"; "Y"; "X"]%string
          (demo_world [])
    = Ok hs w'
    /\ trace w' = [EvLoadEmbedding "X"; EvLoadEmbedding "Y"; EvLoadEmbedding "X"].
Proof.
  destruct (X3_embedding_loads_follow_name_changes Z unit demo_loads
              ["X"; "Y"; "X"]%string (demo_world []))
    as (hs & w' & H1 & _ & H3).
  - intros n name Hin. apply list_elem_of_In in Hin. cbn in Hin.
    destruct Hin as [<-|[<-|[<-|[]]]]; reflexivity.
  - reflexivity.
  - by exists hs, w'.
Defined.

Lemma X4_rerank_empty_witness :
  demo_rerank_chunks (lit "q") 0%nat 8 (Some "no-such-model"%string)
    (demo_world demo_heap_empty_list)
  = Ok 1%nat (with_heap Z unit [OList []; OList []] (demo_world demo_heap_empty_list)).
Proof.
  destruct (X4_rerank_empty_input Z Z.ltb Z unit demo_loads demo_predict
              (demo_engine [] 50 8) (lit "q") 0%nat 8 (Some "no-such-model"%string)
              (demo_world demo_heap_empty_list) eq_refl) as [_ H].
  exact H.
Defined.

Lemma X5_rerank_missing_text_witness :
  exists w', demo_rerank (demo_engine [] 50 8) (lit "q") 3%nat
               (demo_world demo_heap_blank)
             = Raise (KeyError "text") w'.
Proof.
  eexists.
  exact (X5_rerank_missing_text_raises_key_error Z Z.ltb Z unit demo_predict
           (demo_engine [] 50 8) (lit "q") 3%nat (demo_world demo_heap_blank)
           [0; 1]%nat eq_refl eq_refl eq_refl).
Defined.

Lemma X6_rerank_negative_bound_witness :
  exists r w' out full,
    demo_rerank (demo_engine [] 50 (-1)) (lit "q") 3%nat (demo_world demo_heap) = Ok r w'
    /\ items (heap w') r = Some out
    /\ full ≡ₚ [0; 1; 2]%nat
    /\ out = take 2 full.
Proof.
  destruct (X6_rerank_nonpositive_bound_drops_from_the_end Z Z.ltb Z unit demo_predict
              Z_ltb_strict_weak
              (demo_engine [] 50 (-1)) (lit "q") 3%nat (demo_world demo_heap)
              [0; 1; 2]%nat [2; 4; 2])
    as (r & w' & out & full & H1 & H2 & _ & H4 & _ & _ & H7 & _);
    try (vm_compute; reflexivity).
  - discriminate.
  - cbn. lia.
  - exists r, w', out, full. split; [exact H1|]. split; [exact H2|].
    split; [exact H4|exact H7].
Defined.

Lemma X7_rerank_chunks_untouched_witness :
  exists r w',
    demo_rerank_chunks (lit "q") 3%nat 2 None (demo_world_loaded demo_heap) = Ok r w'
    /\ heap w' !! 1%nat = demo_heap !! 1%nat.
Proof.
  destruct (X7_rerank_chunks_leaves_input_untouched Z Z.ltb unit demo_loads demo_predict
              (lit "q") 3%nat 2 None
              (demo_world_loaded demo_heap) (demo_world_loaded demo_heap)
              [0; 1; 2]%nat
              {| h_name := "cross-encoder/ms-marco-MiniLM-L-6-v2"; h_oid := 0 |}
              [2; 4; 2])
    as (r & w' & out & H1 & _ & H3 & _);
    try (vm_compute; reflexivity).
  - discriminate.
  - exists r, w'. split; [exact H1|]. apply H3. cbn. lia.
Defined.

Lemma X8_retrieved_records_witness :
  exists r w' out,
    demo_retrieve (demo_engine demo_table_one 2 8) (lit "") (demo_world []) = Ok r w'
    /\ items (heap w') r = Some out
    /\ Forall (fun c => exists s, field (heap w') c "source" = Some (VStr s) /\ s <> [])
              out.
Proof.
  eassert (E : demo_retrieve (demo_engine demo_table_one 2 8) (lit "") (demo_world [])
               = Ok _ _) by (vm_compute; reflexivity).
  destruct (X8_retrieved_records_are_normalised Z Z.ltb Z unit demo_encode
              demo_distance demo_json_loads tt _ _ _ _ _ E) as (out & H1 & H2).
  eexists _, _, out. split; [exact E|]. split; [exact H1|].
  eapply Forall_impl; [exact H2|].
  intros c (d & Hd & _ & (s & Hs & Hne) & _). exists s. split; [|done].
  unfold field. by rewrite Hd.
Defined.

Lemma X9_retrieve_only_allocates_witness :
  exists r w' out,
    demo_retrieve (demo_engine demo_table_one 2 8) (lit "")
                  (demo_world demo_heap_empty_list) = Ok r w'
    /\ items (heap w') r = Some out
    /\ NoDup out
    /\ heap w' !! 0%nat = Some (OList []).
Proof.
  eassert (E : demo_retrieve (demo_engine demo_table_one 2 8) (lit "")
                 (demo_world demo_heap_empty_list)
               = Ok _ _) by (vm_compute; reflexivity).
  destruct (X9_retrieve_only_allocates Z Z.ltb Z unit demo_encode
              demo_distance demo_json_loads tt _ _ _ _ _ E)
    as (out & H1 & H2 & _ & H4 & _).
  eexists _, _, out. split; [exact E|]. split; [exact H1|]. split; [exact H4|].
  apply (H2 0%nat). cbn. lia.
Defined.

Lemma X10_fetched_rows_witness :
  exists r w' out,
    candidates_of_rows Z Z unit demo_json_loads tt
      [ (9, Row (lit "r3") None (MStr (lit "{}")) None (Some 0) (Some 3));
        (2, Row (lit "r1") (Some (lit "near")) (MDict tt) (Some (lit "doc")) (Some 4)
               (Some 1)) ]
      (demo_world demo_heap_empty_list)
    = Ok r w'
    /\ items (heap w') r = Some out
    /\ length out = 2%nat.
Proof.
  destruct (X10_retrieve_keeps_every_fetched_row Z Z unit demo_json_loads tt
              [ (9, Row (lit "r3") None (MStr (lit "{}")) None (Some 0) (Some 3));
                (2, Row (lit "r1") (Some (lit "near")) (MDict tt) (Some (lit "doc"))
                       (Some 4) (Some 1)) ]
              (demo_world demo_heap_empty_list))
    as (r & w' & out & H1 & H2 & H3 & _).
  - intros dr Hin. apply list_elem_of_In in Hin. cbn in Hin.
    destruct Hin as [<-|[<-|[]]]; by eexists.
  - by exists r, w', out.
Defined.

Lemma X11_retrieve_then_rerank_witness :
  exists r w1 r' w2 out,
    demo_retrieve (demo_engine demo_table 2 1) (lit "") (demo_world []) = Ok r w1
    /\ demo_rerank (demo_engine demo_table 2 1) (lit "q") r w1 = Ok r' w2
    /\ items (heap w2) r' = Some out
    /\ length out = 1%nat.
Proof.
  eassert (E : demo_retrieve (demo_engine demo_table 2 1) (lit "") (demo_world [])
               = Ok _ _) by (vm_compute; reflexivity).
  destruct (X11_rerank_accepts_what_retrieve_returns Z Z.ltb Z unit demo_encode
              demo_predict demo_distance demo_json_loads tt _ _ (lit "q") _ _ _ E)
    as (cands & r' & w2 & out & H1 & H2 & H3 & H4 & _).
  - intros ps. apply demo_predict_scores_every_pair.
  - cbn. lia.
  - eexists _, _, r', w2, out. split; [exact E|]. split; [exact H2|].
    split; [exact H3|]. rewrite H4.
    vm_compute in H1. injection H1 as <-. reflexivity.
Defined.

Lemma X12_answer_outcomes_witness :
  exists a chunks timing w',
    demo_answer (demo_engine demo_table_one 2 8) (Some (lit "why")) None demo_echo false
                (demo_world [])
    = Ok (a, chunks, timing) w'
    /\ forallb isspace (lit "why") = false.
Proof.
  eassert (E : demo_answer (demo_engine demo_table_one 2 8) (Some (lit "why")) None
                 demo_echo false (demo_world [])
               = Ok (_, _, _) _) by (vm_compute; reflexivity).
  destruct (X12_answer_outcomes Z Z.ltb Z.add Z.sub Z unit demo_encode demo_predict
              demo_distance demo_json_loads tt demo_time _ _ _ _ _ _ _ _ _ _ E)
    as [(_ & Hb & _)|(Hb & _)].
  - vm_compute in Hb. discriminate.
  - eexists _, _, _, _. split; [exact E|exact Hb].
Defined.

Lemma X13_default_generator_witness :
  exists a chunks timing w',
    demo_answer (demo_engine demo_table 0 8) (Some (lit "why")) None demo_llm true
                (demo_world [])
    = Ok (a, chunks, timing) w'
    /\ items (heap w') chunks = Some [].
Proof.
  eassert (E : demo_answer (demo_engine demo_table 0 8) (Some (lit "why")) None
                 demo_llm true (demo_world [])
               = Ok (_, _, _) _) by (vm_compute; reflexivity).
  destruct (X13_default_generator_never_answers Z Z.ltb Z.add Z.sub Z unit demo_encode
              demo_predict demo_distance demo_json_loads tt demo_time
              _ _ _ _ _ _ _ _ _ E)
    as (_ & H & _).
  eexists _, _, _, _. split; [exact E|exact H].
Defined.

Lemma X15_zero_bound_witness :
  exists none timing w',
    demo_answer (demo_engine demo_table_one 2 0) (Some (lit "why")) None demo_echo true
                (demo_world [])
    = Ok (NO_RANKED, none, timing) w'
    /\ items (heap w') none = Some [].
Proof.
  eassert (E : demo_retrieve (demo_engine demo_table_one 2 0) (lit "why") (demo_world [])
               = Ok _ _) by (vm_compute; reflexivity).
  destruct (X15_zero_bound_gives_no_ranked_sentinel Z Z.ltb Z.add Z.sub Z unit
              demo_encode demo_predict demo_distance demo_json_loads tt demo_time
              (demo_engine demo_table_one 2 0) (lit "why") None demo_echo true
              (demo_world []) _ _ eq_refl E)
    as (none & w' & cands & ps & H1 & H2 & _).
  - vm_compute. discriminate.
  - intros ps. apply demo_predict_scores_every_pair.
  - reflexivity.
  - eexists none, _, w'. split; [exact H1|exact H2].
Defined.

Lemma X16_generator_error_witness :
  exists w',
    demo_answer (demo_engine demo_table_one 2 8) (Some (lit "why")) None demo_llm false
                (demo_world [])
    = Raise NotImplementedError w'.
Proof.
  eassert (E : demo_retrieve (demo_engine demo_table_one 2 8) (lit "why") (demo_world [])
               = Ok _ _) by (vm_compute; reflexivity).
  destruct (X16_generator_error_propagates Z Z.ltb Z.add Z.sub Z unit
              demo_encode demo_predict demo_distance demo_json_loads tt demo_time
              (demo_engine demo_table_one 2 8) (lit "why") None demo_llm
              NotImplementedError false (demo_world []) _ _ eq_refl E)
    as (w' & cands & ps & top & H1 & _).
  - vm_compute. discriminate.
  - intros ps. apply demo_predict_scores_every_pair.
  - reflexivity.
  - reflexivity.
  - by exists w'.
Defined.

Lemma X17_full_pipeline_witness :
  exists top timing w' out,
    demo_answer (demo_engine demo_table_one 2 8) (Some (lit "why")) None demo_echo true
                (demo_world [])
    = Ok (lit "why", top, timing) w'
    /\ items (heap w') top = Some out
    /\ (0 < length out)%nat.
Proof.
  eassert (E : demo_retrieve (demo_engine demo_table_one 2 8) (lit "why") (demo_world [])
               = Ok _ _) by (vm_compute; reflexivity).
  destruct (X17_answer_full_pipeline Z Z.ltb Z.add Z.sub Z unit
              demo_encode demo_predict demo_distance demo_json_loads tt demo_time
              (demo_engine demo_table_one 2 8) (lit "why") None demo_echo
              (fun _ _ => lit "why") true (demo_world []) _ _ eq_refl E)
    as (top & w' & wg & cands & cs & out & ps & H1 & _ & _ & _ & H5 & _ & H7 & _).
  - vm_compute. discriminate.
  - intros ps. apply demo_predict_scores_every_pair.
  - reflexivity.
  - reflexivity.
  - eexists top, _, w', out. split; [exact H1|]. split; [exact H5|exact H7].
Defined.

Lemma X18_retrieval_error_witness :
  exists w',
    demo_answer (demo_engine demo_table_one (-1) 8) (Some (lit "why")) None demo_echo
                true (demo_world [])
    = Raise DatabaseError w'
    /\ trace w' = [EvRetrieve (lit "why")].
Proof.
  eassert (E : demo_retrieve (demo_engine demo_table_one (-1) 8) (lit "why")
                 (demo_world [])
               = Raise _ _) by (vm_compute; reflexivity).
  destruct (X18_retrieval_error_propagates Z Z.ltb Z.add Z.sub Z unit
              demo_encode demo_predict demo_distance demo_json_loads tt demo_time
              (demo_engine demo_table_one (-1) 8) (lit "why") None demo_echo true
              (demo_world []) _ _ eq_refl E)
    as (w' & H1 & H2 & _).
  by exists w'.
Defined.

Lemma X19_compare_models_witness :
  exists results w',
    compare_rerank_models Z Z.ltb unit demo_loads demo_predict (lit "q") 3%nat
      ["fast"; "best"]%string 2 (demo_world demo_heap)
    = Ok results w'
    /\ dom results = {[ "fast"; "best" ]}%string
    /\ _rerank_model_name Z unit w' = Some "BAAI/bge-reranker-large"%string.
Proof.
  destruct (X19_compare_rerank_models_entries Z Z.ltb unit demo_loads demo_predict
              (lit "q") 3%nat ["fast"; "best"]%string 2 (demo_world demo_heap)
              [0; 1; 2]%nat)
    as (results & w' & H1 & H2 & _ & _ & H5 & _).
  - reflexivity.
  - discriminate.
  - reflexivity.
  - intros a n Hin. apply list_elem_of_In in Hin. cbn in Hin.
    destruct Hin as [<-|[<-|[]]]; reflexivity.
  - apply demo_predict_scores_every_pair.
  - lia.
  - exists results, w'. split; [exact H1|]. split; [|exact H5].
    rewrite H2. cbn [list_to_set]. by rewrite union_empty_r_L.
Defined.

Lemma X20_compare_models_empty_witness :
  exists results w',
    compare_rerank_models Z Z.ltb unit demo_loads demo_predict (lit "q") 0%nat
      ["fast"; "no-such-model"]%string 2 (demo_world demo_heap_empty_list)
    = Ok results w'
    /\ trace w' = [].
Proof.
  destruct (X20_compare_rerank_models_empty_input Z Z.ltb unit demo_loads demo_predict
              (lit "q") 0%nat ["fast"; "no-such-model"]%string 2
              (demo_world demo_heap_empty_list) eq_refl)
    as (results & w' & H1 & _ & _ & H4 & _).
  by exists results, w'.
Defined.

Lemma X22_engines_share_witness :
  exists e1 w1,
    RagQueryEngine_init Z Z unit demo_loads demo_loads demo_connect (lit "db")
      "embedder" "cross-encoder/ms-marco-MiniLM-L-6-v2" 50 8 (demo_world [])
    = Ok e1 w1
    /\ RagQueryEngine_init Z Z unit demo_loads demo_loads demo_connect (lit "db2")
         "embedder" "fast" 10 3 w1
       = Ok (Engine demo_table_one (embed_model Z unit e1) (rerank_model Z unit e1) 10 3)
            w1.
Proof.
  eassert (E : RagQueryEngine_init Z Z unit demo_loads demo_loads demo_connect (lit "db")
                 "embedder" "cross-encoder/ms-marco-MiniLM-L-6-v2" 50 8 (demo_world [])
               = Ok _ _) by (vm_compute; reflexivity).
  eexists _, _. split; [exact E|].
  exact (X22_engines_share_cached_models Z Z unit demo_loads demo_loads demo_connect
           (lit "db") (lit "db2") "embedder" "cross-encoder/ms-marco-MiniLM-L-6-v2"
           "fast" 50 8 10 3 _ _ _ demo_table_one E eq_refl eq_refl).
Defined.

(** ** Inputs on which the specification's statements fail *)

(** The pairs handed to the cross-encoder during a run. *)
Definition scored_pairs {Score Json} (t : list (event Score Json))
  : list (text * value Score Json) :=
  flat_map (fun e => match e with EvPredict _ ps => ps | _ => [] end) t.

(** Two candidates with the same text and different ids, and the two
    orders of them. *)
Definition demo_heap_twins : list (obj Z unit) :=
  [ demo_chunk "a" "same"; demo_chunk "b" "same";
    OList [0; 1]%nat; OList [1; 0]%nat ].

(** ** Scores that may be NaN

    A float is a number or NaN, and every comparison with NaN is false.
    The cross-encoder of this instance returns NaN for an empty text and
    the length of the text otherwise. *)
Inductive nfloat :=
  | Num (x : Z)
  | NaN.

Definition nfloat_lt (a b : nfloat) : bool :=
  match a, b with
  | Num x, Num y => x <? y
  | _, _ => false
  end.

Definition nan_score (p : text * value nfloat unit) : nfloat :=
  match snd p with
  | VStr [] => NaN
  | VStr s => Num (Z.of_nat (length s))
  | _ => NaN
  end.

Definition nan_predict (m : handle) (pairs : list (text * value nfloat unit))
  : exn + list nfloat :=
  inr (map nan_score pairs).

Definition nan_chunk (id txt : string) : obj nfloat unit :=
  ODict (<["id" := VStr (lit id)]> (<["text" := VStr (lit txt)]> ∅)).

(** The candidates a, b and c with the scores 2, 1 and NaN, and three
    orders of them: b, c, a; c, a, b; a, b, c. *)
Definition nan_heap : list (obj nfloat unit) :=
  [ nan_chunk "a" "yy"; nan_chunk "b" "x"; nan_chunk "c" "";
    OList [1; 2; 0]%nat; OList [2; 0; 1]%nat; OList [0; 1; 2]%nat ].

Definition nan_world : world nfloat unit :=
  World nan_heap None None None None 0%nat [] 0%nat.

(** With NaN the comparison is not a strict weak order: neither of 1 and
    NaN is below the other, nor of NaN and 2, yet 1 is below 2. *)
Lemma nfloat_lt_not_strict_weak : ~ StrictWeak nfloat_lt.
Proof.
  intros H. by pose proof (sw_negtrans (Num 1) NaN (Num 2) eq_refl eq_refl).
Qed.

(** C1, counterexample: the cross-encoder returns NaN for one candidate.
    The candidates b, c, a get the scores 1, NaN, 2.  No score is below
    the one that follows it (1 < NaN and NaN < 2 are both false), so
    [sorted] takes the list to be in order and returns it as it is:
    [rerank] returns b, c, a and [rerank_chunks] returns their copies in
    the same order.  The list is not empty, the bound is positive and the
    call returns, but the first score is below the last one: the result
    is not sorted in descending order. *)
Lemma C1_counterexample_nan_score :
  nfloat_lt (Num 1) NaN = false /\ nfloat_lt NaN (Num 2) = false
  /\ nfloat_lt (Num 1) (Num 2) = true
  /\ (exists w',
        rerank nfloat nfloat_lt Z unit nan_predict
               (Engine [] demo_embedder demo_model 50 3) (lit "q") 3%nat nan_world
        = Ok 6%nat w'
        /\ items (heap w') 6 = Some [1; 2; 0]%nat
        /\ score_of nfloat unit (heap w') 1 = Some (Num 1)
        /\ score_of nfloat unit (heap w') 2 = Some NaN
        /\ score_of nfloat unit (heap w') 0 = Some (Num 2))
  /\ (exists w',
        rerank_chunks nfloat nfloat_lt unit demo_loads nan_predict
                      (lit "q") 3%nat 3 None nan_world
        = Ok 9%nat w'
        /\ items (heap w') 9 = Some [6; 7; 8]%nat
        /\ score_of nfloat unit (heap w') 6 = Some (Num 1)
        /\ score_of nfloat unit (heap w') 7 = Some NaN
        /\ score_of nfloat unit (heap w') 8 = Some (Num 2)).
Proof.
  do 3 (split; [reflexivity|]).
  split; eexists; repeat split; vm_compute; reflexivity.
Qed.

(** Why C8 needs scores without NaN: a, b, c have the scores 2, 1, NaN,
    no two of them equal, and the bound is 1.  Both c, a, b and a, b, c
    are lists in which no score is below the one that follows it, so each
    is returned as it is and cut after its first item: re-ranking c, a, b
    returns c and re-ranking a, b, c returns a. *)
Lemma C8_nan_scores_depend_on_input_order :
  [2; 0; 1]%nat ≡ₚ [0; 1; 2]%nat
  /\ exists w1 w2,
      rerank nfloat nfloat_lt Z unit nan_predict
             (Engine [] demo_embedder demo_model 50 1) (lit "q") 4%nat nan_world
      = Ok 6%nat w1
      /\ rerank nfloat nfloat_lt Z unit nan_predict
                (Engine [] demo_embedder demo_model 50 1) (lit "q") 5%nat nan_world
         = Ok 6%nat w2
      /\ items (heap w1) 6 = Some [2%nat]
      /\ items (heap w2) 6 = Some [0%nat]
      /\ field (heap w1) 2 "id" = Some (VStr (lit "c"))
      /\ field (heap w2) 0 "id" = Some (VStr (lit "a")).
Proof.
  split.
  { change [2; 0; 1]%nat with ([2]%nat ++ [0; 1]%nat).
    change [0; 1; 2]%nat with ([0; 1]%nat ++ [2]%nat). apply Permutation_app_comm. }
  eexists _, _. repeat split; vm_compute; reflexivity.
Qed.

(** C2, counterexample: a candidate whose text is empty is paired with the
    query, scored and returned by [rerank]; [rerank_chunks] also scores the
    chunk that has no text at all, as the empty string. *)
Lemma C2_counterexample_empty_text_is_scored :
  (exists r w',
      demo_rerank (demo_engine [] 50 8) (lit "q") 2%nat (demo_world demo_heap_blank)
      = Ok r w'
      /\ scored_pairs (trace w') = [(lit "q", VStr [])]
      /\ items (heap w') r = Some [0%nat]
      /\ field (heap w') 0 "text" = Some (VStr [])
      /\ field (heap w') 0 "rerank_score" = Some (VFloat 0))
  /\ (exists r w',
      demo_rerank_chunks (lit "q") 3%nat 8 None (demo_world demo_heap_blank) = Ok r w'
      /\ scored_pairs (trace w') = [(lit "q", VStr []); (lit "q", VStr [])]
      /\ length <$> items (heap w') r = Some 2%nat).
Proof.
  split; eexists _, _; repeat split; vm_compute; reflexivity.
Qed.

(** C4, counterexample: the query " " is not the empty string and its
    retrieval over an empty table returns an empty list, yet [answer]
    returns the empty-question message, not the no-candidates one, and does
    not call the retriever at all. *)
Lemma C4_counterexample_blank_query :
  [32%N] <> []
  /\ (exists r w1,
        demo_retrieve (demo_engine [] 50 8) [32%N] (demo_world []) = Ok r w1
        /\ items (heap w1) r = Some [])
  /\ (exists none w',
        demo_answer (demo_engine [] 50 8) (Some [32%N]) None demo_llm false (demo_world [])
        = Ok (EMPTY_QUESTION, none, None) w'
        /\ trace w' = [])
  /\ EMPTY_QUESTION <> NO_CANDIDATES.
Proof.
  split; [discriminate|]. split; [|split; [|discriminate]].
  - eexists _, _. split; vm_compute; reflexivity.
  - eexists _, _. split; vm_compute; reflexivity.
Qed.

(** C8, counterexample: two candidates with the same text get the same
    score from any scorer that is a function of the pair; with a bound of
    one, re-ranking [a; b] returns [a] and re-ranking [b; a] returns [b]:
    the two results do not hold the same ids. *)
Lemma C8_counterexample_tie_at_cut :
  [0; 1]%nat ≡ₚ [1; 0]%nat
  /\ exists w1 w2,
      demo_rerank (demo_engine [] 50 1) (lit "q") 2%nat (demo_world demo_heap_twins)
      = Ok 4%nat w1
      /\ demo_rerank (demo_engine [] 50 1) (lit "q") 3%nat (demo_world demo_heap_twins)
         = Ok 4%nat w2
      /\ items (heap w1) 4 = Some [0%nat]
      /\ items (heap w2) 4 = Some [1%nat]
      /\ field (heap w1) 0 "id" = Some (VStr (lit "a"))
      /\ field (heap w2) 1 "id" = Some (VStr (lit "b")).
Proof.
  split; [apply Permutation_swap|].
  eexists _, _. repeat split; vm_compute; reflexivity.
Qed.
